(** * 3D-RCAN: network assembly and training preparation

    A shallow embedding of [rcan/model.py] and of the preparation phase of
    [train.py] (schema validation, defaults, data verification, input-shape
    reconciliation), followed by the properties proved about them.

    Python integers are [Z]; [//] is floor division, which is [Z.div].
    Exceptions are values of [Py.exn] carried by an error monad.  Building a
    Keras graph is stateful (every layer call adds a node), so the builders
    of [model.py] live in a state-and-error monad over the list of nodes
    created so far. *)

From Stdlib Require Import ZArith QArith Qround Lia SpecFloat.
From stdpp Require Import base list strings sorting gmap.

#[local] Set Warnings "-register-all".
#[local] Open Scope Z_scope.

(* ===================================================================== *)
(** ** Python exceptions and the error monad *)
(* ===================================================================== *)

Module Py.

(** The messages of the exceptions the sources raise; the values their
    f-strings interpolate are arguments where a statement refers to
    them. *)
Inductive message :=
  | ConvolutionNotSupported (n : Z)
      (* f'{n}D convolution is not supported' *)
  | GlobalAveragePoolingNotSupported (n : Z)
      (* f'{n}D global average pooling is not supported' *)
  | NoTiffFileFound (raw_dir : string)
      (* f'No TIFF file found in {raw_dir}' *)
  | MustContainSameNumberOfTiff (raw_dir gt_dir : string)
  | RawAndGtMustBeSameSize
      (raw_path : string) (raw_shape : list Z)
      (gt_path : string) (gt_shape : list Z)
  | AllImagesSameNumberOfDimensions
  | InputShapeMustBeArray (ndim : Z)
      (* f'`input_shape` must be a {ndim}D array; received: ...' *)
  | OperandsCouldNotBeBroadcast (a b : list Z)
  | LibraryMessage (origin : string).

Inductive exn :=
  | NotImplementedError (m : message)
  | ValueError (m : message)
  | RuntimeError (m : message)
  | KeyError (key : string)
  | IndexError
  | ZeroDivisionError
  | TypeError
  | AttributeError
  | ImreadError (path : string)
      (* what [tifffile.imread] raises on a file it cannot read
         (FileNotFoundError, TiffFileError, ...); its class is not
         followed *)
  | ValidationError.

Inductive result (A : Type) :=
  | Ok (a : A)
  | Raise (e : exn).
Arguments Ok {A} a.
Arguments Raise {A} e.

Definition bind {A B} (r : result A) (k : A -> result B) : result B :=
  match r with
  | Ok a => k a
  | Raise e => Raise e
  end.

Definition raises {A} (r : result A) : Prop :=
  match r with Ok _ => False | Raise _ => True end.

(** [a // b] *)
Definition floordiv (a b : Z) : result Z :=
  if b =? 0 then Raise ZeroDivisionError else Ok (a / b).

(** [t[-1]] on a tuple *)
Definition last_item (t : list Z) : result Z :=
  match last t with
  | Some v => Ok v
  | None => Raise IndexError
  end.

End Py.
Import Py.

Notation "'try!' x ':=' e 'in' k" := (Py.bind e (fun x => k))
  (at level 10, x name, e at level 100, k at level 200).

(* ===================================================================== *)
(** ** Keras: symbolic tensors, layers and the graph under construction *)
(* ===================================================================== *)

Module Keras.

Inductive Activation := linear | relu | sigmoid.
Inductive Padding := same | valid.
Inductive ConvClass := Conv1D | Conv2D | Conv3D.
Inductive PoolClass := GlobalAveragePooling2D | GlobalAveragePooling3D.

Inductive Layer :=
  | InputLayer (input_shape : list Z)
  | Standardise
  | Destandardise
  | Conv (cls : ConvClass) (filters kernel_size : Z)
         (padding : Padding) (activation : Activation)
  | GlobalAveragePooling (cls : PoolClass)
  | Reshape (target_shape : list Z)
  | Multiply
  | Add
  | Lambda (residual_scaling : Q).

(** A symbolic tensor: its static shape without the leading batch axis
    (which is [None] in every tensor here), and the index of the node
    that produced it. *)
Record Tensor := mkTensor { shape : list Z; producer : nat }.

Record Node := mkNode {
  layer : Layer;
  inbound : list nat;
  output_shape : list Z
}.

Definition Graph := list Node.

(** State (the nodes created so far) and exceptions. *)
Definition Build (A : Type) : Type := Graph -> result (A * Graph).

Definition retB {A} (a : A) : Build A := fun g => Ok (a, g).
Definition raiseB {A} (e : exn) : Build A := fun _ => Raise e.
Definition bindB {A B} (m : Build A) (k : A -> Build B) : Build B :=
  fun g => match m g with
           | Ok (a, g') => k a g'
           | Raise e => Raise e
           end.
Definition liftB {A} (r : result A) : Build A :=
  fun g => match r with Ok a => Ok (a, g) | Raise e => Raise e end.

(** Calling a layer on tensors records a node and returns its output. *)
Definition call (l : Layer) (inputs : list Tensor) (out : list Z)
  : Build Tensor :=
  fun g => Ok (mkTensor out (length g),
               g ++ [mkNode l (map producer inputs) out]).

(** [tf.keras.backend.ndim]: the batch axis counts. *)
Definition ndim (x : Tensor) : Z := Z.of_nat (length (shape x)) + 1.

Definition product (s : list Z) : Z := foldr Z.mul 1 s.

(** [tf.keras.layers.Input(input_shape)], for sizes that are positive
    (the library refuses a negative size; the statements assume positive
    sizes). *)
Definition Input (input_shape : list Z) : Build Tensor :=
  call (InputLayer input_shape) [] input_shape.

(** A convolution layer with unit strides called on [x], for a positive
    kernel size and an input of positive sizes (the statements assume
    both).  The layer constructor refuses a non-positive number of
    filters; with [same] padding the spatial axes keep their size, with
    [valid] padding they lose [kernel_size - 1]; the channel axis becomes
    [filters]. *)
Definition conv_layer (cls : ConvClass) (filters kernel_size : Z)
    (padding : Padding) (activation : Activation) (x : Tensor)
  : Build Tensor :=
  if filters <=? 0 then
    raiseB (ValueError (LibraryMessage "Conv: filters"))
  else
    let spatial := removelast (shape x) in
    let spatial' :=
      match padding with
      | same => spatial
      | valid => map (fun d => d - kernel_size + 1) spatial
      end in
    call (Conv cls filters kernel_size padding activation) [x]
         (spatial' ++ [filters]).

(** Global average pooling removes the spatial axes, for an input of
    positive sizes (the library refuses a spatial axis of size 0; the
    statements assume positive sizes). *)
Definition pooling_layer (cls : PoolClass) (x : Tensor) : Build Tensor :=
  call (GlobalAveragePooling cls) [x]
       (match last (shape x) with Some c => [c] | None => [] end).

(** [Reshape(target)] keeps the number of elements. *)
Definition reshape_layer (target : list Z) (y : Tensor) : Build Tensor :=
  if product (shape y) =? product target then
    call (Reshape target) [y] target
  else raiseB (ValueError (LibraryMessage "Reshape: total size")).

(** Broadcasting of one pair of axes in a merge layer. *)
Definition merge_axis (i j : Z) : result Z :=
  if i =? 1 then Ok j
  else if j =? 1 then Ok i
  else if i =? j then Ok i
  else Raise (ValueError (LibraryMessage "Merge: incompatible shapes")).

Fixpoint merge_axes (s1 s2 : list Z) : result (list Z) :=
  match s1, s2 with
  | i :: s1', j :: s2' =>
      try! d := merge_axis i j in
      try! r := merge_axes s1' s2' in
      Ok (d :: r)
  | _, _ => Ok []
  end.

(** Output shape of an element-wise merge of two inputs:
    the shorter shape is aligned on the trailing axes of the longer. *)
Definition elemwise_output_shape (s1 s2 : list Z) : result (list Z) :=
  let '(s1, s2) :=
    if (length s1 <? length s2)%nat then (s2, s1) else (s1, s2) in
  let k := (length s1 - length s2)%nat in
  try! r := merge_axes (drop k s1) s2 in
  Ok (take k s1 ++ r).

Definition merge_layer (l : Layer) (a b : Tensor) : Build Tensor :=
  fun g =>
    match elemwise_output_shape (shape a) (shape b) with
    | Ok s => call l [a; b] s g
    | Raise e => Raise e
    end.

(** Layers that act element by element on one input. *)
Definition pointwise_layer (l : Layer) (x : Tensor) : Build Tensor :=
  call l [x] (shape x).

Record Model := mkModel {
  inputs : Tensor;
  outputs : Tensor;
  layers : Graph
}.

End Keras.
Import Keras.

Notation "'let*' x ':=' e 'in' k" := (bindB e (fun x => k))
  (at level 10, x name, e at level 100, k at level 200).

(** [for _ in range(n)] with a loop-carried value; the body says whether
    the loop goes on or was left by [break]. *)
Inductive Flow (A : Type) :=
  | Next (a : A)
  | Break (a : A).
Arguments Next {A} a.
Arguments Break {A} a.

Fixpoint for_range {A} (n : nat) (body : A -> Build (Flow A)) (x : A)
  : Build A :=
  match n with
  | O => retB x
  | S n' =>
      let* r := body x in
      match r with
      | Next x' => for_range n' body x'
      | Break x' => retB x'
      end
  end.

(* ===================================================================== *)
(** ** rcan/model.py *)
(* ===================================================================== *)

Module Model.

Definition _get_spatial_ndim (x : Tensor) : Z := ndim x - 2.

(** [x.shape[-1]].  For a tensor that has only the batch axis Python
    yields [None]; every function below raises [NotImplementedError]
    (spatial rank -1) before it would use that value, so the [0] returned
    here for such a tensor is never consumed. *)
Definition _get_num_channels (x : Tensor) : Z := default 0 (last (shape x)).

Definition _conv (x : Tensor) (num_filters kernel_size : Z)
    (padding : Padding) (activation : Activation) : Build Tensor :=
  let n := _get_spatial_ndim x in
  let* conv_func :=
    (if n =? 1 then retB Conv1D
     else if n =? 2 then retB Conv2D
     else if n =? 3 then retB Conv3D
     else raiseB (NotImplementedError (ConvolutionNotSupported n))) in
  conv_layer conv_func num_filters kernel_size padding activation x.

Definition _global_average_pooling (x : Tensor) : Build Tensor :=
  let n := _get_spatial_ndim x in
  if n =? 2 then pooling_layer GlobalAveragePooling2D x
  else if n =? 3 then pooling_layer GlobalAveragePooling3D x
  else raiseB (NotImplementedError (GlobalAveragePoolingNotSupported n)).

(** [num_channels // reduction], the number of filters the channel
    attention block asks for in its first convolution. *)
Definition bottleneck_channels (x : Tensor) (reduction : Z) : result Z :=
  floordiv (_get_num_channels x) reduction.

Definition _channel_attention_block (x : Tensor) (reduction : Z)
  : Build Tensor :=
  let num_channels := _get_num_channels x in
  let* y := _global_average_pooling x in
  let* y :=
    reshape_layer
      (replicate (Z.to_nat (_get_spatial_ndim x)) 1 ++ [num_channels]) y in
  let* bottleneck := liftB (bottleneck_channels x reduction) in
  let* y := _conv y bottleneck 1 same relu in
  let* y := _conv y num_channels 1 same sigmoid in
  merge_layer Multiply x y.

(** One iteration of the loop of [_residual_channel_attention_blocks]. *)
Definition rcab (num_channels channel_reduction : Z)
    (residual_scaling : Q) (x : Tensor) : Build (Flow Tensor) :=
  let skip := x in
  let* x := _conv x num_channels 3 same relu in
  let* x := _conv x num_channels 3 same linear in
  let* x := _channel_attention_block x channel_reduction in
  let* x :=
    (if Qeq_bool residual_scaling 1 then retB x
     else pointwise_layer (Lambda residual_scaling) x) in
  let* x := merge_layer Add x skip in
  retB (Next x).

Definition _residual_channel_attention_blocks (x : Tensor)
    (repeat channel_reduction : Z) (residual_scaling : Q)
  : Build Tensor :=
  let num_channels := _get_num_channels x in
  for_range (Z.to_nat repeat)
    (rcab num_channels channel_reduction residual_scaling) x.

(** The body of the loop over the residual groups in [build_rcan]. *)
Definition residual_group_body
    (num_channels num_residual_blocks num_residual_groups
     channel_reduction : Z) (residual_scaling : Q) (x : Tensor)
  : Build (Flow Tensor) :=
  let short_skip := x in
  let* x :=
    _residual_channel_attention_blocks
      x num_residual_blocks channel_reduction residual_scaling in
  if num_residual_groups =? 1 then retB (Break x)
  else
    let* x := _conv x num_channels 3 same linear in
    let* x := merge_layer Add x short_skip in
    retB (Next x).

Definition residual_groups
    (num_channels num_residual_blocks num_residual_groups
     channel_reduction : Z) (residual_scaling : Q) (x : Tensor)
  : Build Tensor :=
  for_range (Z.to_nat num_residual_groups)
    (residual_group_body num_channels num_residual_blocks
       num_residual_groups channel_reduction residual_scaling) x.

Definition build_rcan_graph (input_shape : list Z)
    (num_channels num_residual_blocks num_residual_groups
     channel_reduction : Z) (residual_scaling : Q)
    (num_output_channels : Z) : Build (Tensor * Tensor) :=
  let* num_output_channels :=
    (if num_output_channels <? 0 then liftB (last_item input_shape)
     else retB num_output_channels) in
  let* inputs := Input input_shape in
  let* x := pointwise_layer Standardise inputs in
  let* x := _conv x num_channels 3 same linear in
  let long_skip := x in
  let* x :=
    residual_groups num_channels num_residual_blocks
      num_residual_groups channel_reduction residual_scaling x in
  let* x := _conv x num_channels 3 same linear in
  let* x := merge_layer Add x long_skip in
  let* x := _conv x num_output_channels 3 same linear in
  let* outputs := pointwise_layer Destandardise x in
  retB (inputs, outputs).

(** [build_rcan]: the graph is built from scratch and wrapped in a
    model. *)
Definition build_rcan (input_shape : list Z)
    (num_channels num_residual_blocks num_residual_groups
     channel_reduction : Z) (residual_scaling : Q)
    (num_output_channels : Z) : result Model :=
  match build_rcan_graph input_shape num_channels num_residual_blocks
          num_residual_groups channel_reduction residual_scaling
          num_output_channels [] with
  | Ok ((i, o), g) => Ok (mkModel i o g)
  | Raise e => Raise e
  end.

End Model.
Import Model.

(* ===================================================================== *)
(** ** The two normalisation layers on numbers *)
(* ===================================================================== *)

Module Normalisation.

(** The arithmetic a tensor element supports: [tf.math.add] and
    [tf.math.scalar_mul] act element by element, with the three constants
    the layers use. *)
Class Arith (F : Type) := {
  f_add : F -> F -> F;
  f_mul : F -> F -> F;
  f_two : F;
  f_minus_one : F;
  f_half : F
}.

(** Exact arithmetic on rationals. *)
#[export] Instance exact_arith : Arith Q := {
  f_add := Qplus;
  f_mul := Qmult;
  f_two := 2%Q;
  f_minus_one := (-1)%Q;
  f_half := (1 # 2)%Q
}.

(** IEEE 754 binary32 with rounding to nearest even, the element type of
    the tensors of a Keras model ([floatx] is [float32]):
    24 bits of precision, exponents up to 128. *)
Definition float32 := spec_float.

#[export] Instance float32_arith : Arith float32 := {
  f_add := SFadd 24 128;
  f_mul := SFmul 24 128;
  f_two := S754_finite false 8388608 (-22);
  f_minus_one := S754_finite true 8388608 (-23);
  f_half := S754_finite false 8388608 (-24)
}.

Section Layers.
Context {F : Type} `{Arith F}.

(** [StandardiseLayer.call]:
    [tf.math.add(tf.math.scalar_mul(2.0, inputs), -1.0)] *)
Definition standardise_call (inputs : list F) : list F :=
  map (fun v => f_add (f_mul f_two v) f_minus_one) inputs.

(** [DestandardiseLayer.call]:
    [tf.math.add(tf.math.scalar_mul(0.5, inputs), 0.5)] *)
Definition destandardise_call (inputs : list F) : list F :=
  map (fun v => f_add (f_mul f_half v) f_half) inputs.
End Layers.

#[export] Instance float32_eq_dec : EqDecision float32.
Proof. solve_decision. Defined.

(** The binary32 number [k / 256]. *)
Definition of_256th (k : Z) : float32 := binary_normalize 24 128 k (-8) false.

(** [get_config] of both layers: an empty dictionary, no parameter. *)
Definition get_config : list (string * Z) := [].

End Normalisation.
Import Normalisation.

(* ===================================================================== *)
(** ** JSON values and JSON Schema *)
(* ===================================================================== *)

Module Json.

(** What [json.load] returns.  A float is kept as the rational it
    denotes. *)
Inductive json :=
  | JNull
  | JBool (b : bool)
  | JInt (z : Z)
  | JFloat (q : Q)
  | JStr (s : string)
  | JArr (l : list json)
  | JObj (m : gmap string json).

Definition is_integral (q : Q) : bool := Qeq_bool q (inject_Z (Qfloor q)).

(** Python truth value of a JSON value. *)
Definition truthy (v : json) : bool :=
  match v with
  | JNull => false
  | JBool b => b
  | JInt z => negb (z =? 0)
  | JFloat q => negb (Qeq_bool q 0)
  | JStr s => negb (String.eqb s "")
  | JArr l => negb (Nat.eqb (length l) 0)
  | JObj m => negb (Nat.eqb (size m) 0)
  end.

(** [v[k]] with a string key. *)
Definition getitem (v : json) (k : string) : result json :=
  match v with
  | JObj m =>
      match m !! k with
      | Some x => Ok x
      | None => Raise (KeyError k)
      end
  | _ => Raise TypeError
  end.

Inductive jtype := object | array | integer | number | string_ | boolean.

(** The keywords the schema of [train.py] uses; a [$ref] is replaced by
    the definition it points to. *)
Inductive Schema : Type := mkSchema {
  type_ : option jtype;
  properties : option (list (string * Schema));
  additionalProperties : bool;
  anyOf : option (list Schema);
  required : list string;
  items : option Schema;
  minItems : option nat;
  maxItems : option nat;
  minimum : option Q;
  maximum : option Q;
  enum : option (list string)
}.

(** The schema with no keyword. *)
Definition anything : Schema :=
  mkSchema None None true None [] None None None None None None.

Definition has_type (t : jtype) (v : json) : bool :=
  match t, v with
  | object, JObj _ => true
  | array, JArr _ => true
  | integer, JInt _ => true
  | integer, JFloat q => is_integral q
  | number, JInt _ => true
  | number, JFloat _ => true
  | string_, JStr _ => true
  | boolean, JBool _ => true
  | _, _ => false
  end.

Definition number_value (v : json) : option Q :=
  match v with
  | JInt z => Some (inject_Z z)
  | JFloat q => Some q
  | _ => None
  end.

Definition opt_all {A} (o : option A) (p : A -> bool) : bool :=
  match o with Some a => p a | None => true end.

Definition mem (k : string) (l : list string) : bool :=
  existsb (String.eqb k) l.

Definition keys (m : gmap string json) : list string :=
  map fst (map_to_list m).

(** [jsonschema.validate]: every keyword present must hold; a keyword
    that talks about another kind of value than the instance holds. *)
Fixpoint validate (s : Schema) (v : json) {struct s} : bool :=
  match s with
  | mkSchema ty props addl any req its mn mx lo hi en =>
      opt_all ty (fun t => has_type t v)
      && match v with
         | JObj m =>
             opt_all props (fun ps =>
               List.forallb (fun '(k, sub) =>
                 match m !! k with
                 | Some x => validate sub x
                 | None => true
                 end) ps)
             && (addl
                 || List.forallb
                      (fun k => mem k (map fst (default [] props)))
                      (keys m))
             && List.forallb (fun k => bool_decide (is_Some (m !! k))) req
         | _ => true
         end
      && opt_all any (fun subs => List.existsb (fun sub => validate sub v) subs)
      && match v with
         | JArr l =>
             opt_all its (fun sub => List.forallb (validate sub) l)
             && opt_all mn (fun n => (n <=? length l)%nat)
             && opt_all mx (fun n => (length l <=? n)%nat)
         | _ => true
         end
      && match number_value v with
         | Some q =>
             opt_all lo (fun b => Qle_bool b q)
             && opt_all hi (fun b => Qle_bool q b)
         | None => true
         end
      && opt_all en (fun l =>
           match v with JStr x => mem x l | _ => false end)
  end.

End Json.
Import Json.

(* ===================================================================== *)
(** ** train.py: configuration, data verification, input shape *)
(* ===================================================================== *)

Module Train.

(** *** The schema and the defaults *)

Definition typed (t : jtype) : Schema :=
  mkSchema (Some t) None true None [] None None None None None None.

Definition at_least (t : jtype) (lo : Q) : Schema :=
  mkSchema (Some t) None true None [] None None None (Some lo) None None.

Definition requires (k : string) : Schema :=
  mkSchema None None true None [k] None None None None None None.

(** [definitions/raw_gt_pair] *)
Definition raw_gt_pair : Schema :=
  mkSchema (Some object)
    (Some [("raw", typed string_); ("gt", typed string_)])
    true None [] None None None None None None.

(** [definitions/image_pairs] *)
Definition image_pairs : Schema :=
  mkSchema (Some array) None true None [] (Some raw_gt_pair)
    (Some 1%nat) None None None None.

Definition schema_properties : list (string * Schema) :=
  [ ("training_image_pairs", image_pairs);
    ("validation_image_pairs", image_pairs);
    ("training_data_dir", raw_gt_pair);
    ("validation_data_dir", raw_gt_pair);
    ("input_shape",
      mkSchema (Some array) None true None [] (Some (at_least integer 1))
        (Some 2%nat) (Some 3%nat) None None None);
    ("num_channels", at_least integer 1);
    ("num_residual_blocks", at_least integer 1);
    ("num_residual_groups", at_least integer 1);
    ("channel_reduction", at_least integer 1);
    ("epochs", at_least integer 1);
    ("steps_per_epoch", at_least integer 1);
    ("batch_size", at_least integer 1);
    ("data_augmentation", typed boolean);
    ("intensity_threshold", typed number);
    ("area_ratio_threshold",
      mkSchema (Some number) None true None [] None None None
        (Some 0%Q) (Some 1%Q) None);
    ("initial_learning_rate", at_least number (1 # 1000000));
    ("loss",
      mkSchema (Some string_) None true None [] None None None None None
        (Some ["mae"; "mse"]));
    ("metrics",
      mkSchema (Some array) None true None []
        (Some (mkSchema (Some string_) None true None [] None None None
                 None None (Some ["psnr"; "ssim"])))
        None None None None None) ].

Definition schema : Schema :=
  mkSchema (Some object) (Some schema_properties) false
    (Some [requires "training_image_pairs"; requires "training_data_dir"])
    [] None None None None None None.

(** [dict.setdefault] *)
Definition setdefault (k : string) (v : json) (d : gmap string json)
  : gmap string json :=
  match d !! k with
  | Some _ => d
  | None => <[k := v]> d
  end.

(** The calls of [config.setdefault], in the order of the script. *)
Definition defaults : list (string * json) :=
  [ ("epochs", JInt 300);
    ("steps_per_epoch", JInt 256);
    ("batch_size", JInt 1);
    ("num_channels", JInt 32);
    ("num_residual_blocks", JInt 3);
    ("num_residual_groups", JInt 5);
    ("channel_reduction", JInt 8);
    ("data_augmentation", JBool true);
    ("intensity_threshold", JFloat (1 # 4));
    ("area_ratio_threshold", JFloat (1 # 2));
    ("initial_learning_rate", JFloat (1 # 10000));
    ("loss", JStr "mae");
    ("metrics", JArr [JStr "psnr"]) ].

Definition apply_defaults (config : gmap string json) : gmap string json :=
  foldl (fun d '(k, v) => setdefault k v d) config defaults.

(** [jsonschema.validate(config, schema)] followed by the defaults. *)
Definition validated_config (config : json) : result (gmap string json) :=
  if validate schema config then
    match config with
    | JObj m => Ok (apply_defaults m)
    | _ => Raise AttributeError
    end
  else Raise ValidationError.

(** *** Files *)

Record FileSystem := mkFS {
  (** the paths [Path(d).glob('*.tif')] yields, as strings, in the order
      of the directory *)
  glob_tif : string -> list string;
  (** the shape of the array [tifffile.imread] returns, [None] when the
      file cannot be read *)
  image_shape : string -> option (list Z)
}.

Definition path_le (a b : string) : Prop := String.leb a b = true.

#[export] Instance path_le_dec (a b : string) : Decision (path_le a b).
Proof. unfold path_le. apply _. Defined.

Definition sorted (l : list string) : list string := merge_sort path_le l.

Definition as_path (v : json) : result string :=
  match v with
  | JStr s => Ok s
  | _ => Raise TypeError
  end.

Definition imread (fs : FileSystem) (path : string) : result (list Z) :=
  match image_shape fs path with
  | Some s => Ok s
  | None => Raise (ImreadError path)
  end.

Definition pair_of (raw_file gt_file : string) : json :=
  JObj (<["raw" := JStr raw_file]> (<["gt" := JStr gt_file]> ∅)).

(** *** numpy *)

(** [np.minimum] on two one-dimensional integer arrays, with
    broadcasting of an array of length 1. *)
Definition np_minimum (a b : list Z) : result (list Z) :=
  if (length a =? length b)%nat then Ok (zip_with Z.min a b)
  else match a, b with
       | [x], _ => Ok (map (Z.min x) b)
       | _, [y] => Ok (map (fun x => Z.min x y) a)
       | _, _ => Raise (ValueError (OperandsCouldNotBeBroadcast a b))
       end.

(** *** load_data_paths *)

(** Lines 26-46: the pairs taken from the data directory of the split. *)
Definition directory_pairs (fs : FileSystem) (config : gmap string json)
    (data_type : string) : result (list json) :=
  match config !! (data_type +:+ "_data_dir") with
  | None => Ok []
  | Some d =>
      try! raw := getitem d "raw" in
      try! raw_dir := as_path raw in
      try! gt := getitem d "gt" in
      try! gt_dir := as_path gt in
      let raw_files := sorted (glob_tif fs raw_dir) in
      let gt_files := sorted (glob_tif fs gt_dir) in
      if (length raw_files =? 0)%nat then
        Raise (RuntimeError (NoTiffFileFound raw_dir))
      else if negb (length raw_files =? length gt_files)%nat then
        Raise (RuntimeError (MustContainSameNumberOfTiff raw_dir gt_dir))
      else Ok (zip_with pair_of raw_files gt_files)
  end.

(** Lines 52-66: every pair is read; the shapes of the raw images are
    collected ([raw.ndim] is the length of [raw.shape]). *)
Fixpoint read_shapes (fs : FileSystem) (image_pair_list : list json)
  : result (list (list Z)) :=
  match image_pair_list with
  | [] => Ok []
  | p :: rest =>
      try! raw_file := getitem p "raw" in
      try! gt_file := getitem p "gt" in
      try! raw_path := as_path raw_file in
      try! raw := imread fs raw_path in
      try! gt_path := as_path gt_file in
      try! gt := imread fs gt_path in
      if bool_decide (raw = gt) then
        try! shapes := read_shapes fs rest in
        Ok (raw :: shapes)
      else
        Raise (ValueError
                 (RawAndGtMustBeSameSize raw_path raw gt_path gt))
  end.

(** Lines 67-71 *)
Definition check_ndim (ndim_list : list nat) : result unit :=
  match ndim_list with
  | [] => Ok tt
  | first :: _ =>
      if forallb (Nat.eqb first) ndim_list then Ok tt
      else Raise (ValueError AllImagesSameNumberOfDimensions)
  end.

(** Lines 73-75 *)
Fixpoint fold_minimum (min_input_shape : list Z)
    (input_shape_list : list (list Z)) : result (list Z) :=
  match input_shape_list with
  | [] => Ok min_input_shape
  | input_shape :: rest =>
      try! m := np_minimum min_input_shape input_shape in
      fold_minimum m rest
  end.

(** Lines 22-46: the explicit pairs of the split, then those of its
    directory.  [append] changes the list the configuration holds; the
    script does not read that entry again. *)
Definition resolve_pairs (fs : FileSystem) (config : gmap string json)
    (data_type : string) : result json :=
  let image_pair_list :=
    default (JArr []) (config !! (data_type +:+ "_image_pairs")) in
  try! from_dir := directory_pairs fs config data_type in
  match image_pair_list, from_dir with
  | JArr l, _ => Ok (JArr (l ++ from_dir))
  | other, [] => Ok other
  | _, _ :: _ => Raise AttributeError
  end.

(** Lines 51-75: verification of the pairs, then the fold. *)
Definition verify_pairs (fs : FileSystem) (image_pair_list : list json)
  : result (list Z) :=
  try! input_shape_list := read_shapes fs image_pair_list in
  try! _checked := check_ndim (map length input_shape_list) in
  match input_shape_list with
  | [] => Raise IndexError
  | first :: _ => fold_minimum first input_shape_list
  end.

(** The result [(None, None)] is [None]. *)
Definition load_data_paths (fs : FileSystem) (config : gmap string json)
    (data_type : string) : result (option (list json * list Z)) :=
  try! image_pair_list := resolve_pairs fs config data_type in
  if negb (truthy image_pair_list) then Ok None
  else
    match image_pair_list with
    | JArr l =>
        try! min_input_shape := verify_pairs fs l in
        Ok (Some (l, min_input_shape))
    | _ => Raise TypeError
    end.

(** *** The script, up to the call of [model.fit] *)

(** [tifffile.imread(data[0]['raw']).ndim] *)
Definition first_ndim (fs : FileSystem)
    (data : option (list json * list Z)) : result nat :=
  match data with
  | Some (p :: _, _) =>
      try! raw_file := getitem p "raw" in
      try! raw_path := as_path raw_file in
      try! raw := imread fs raw_path in
      Ok (length raw)
  | Some ([], _) => Raise IndexError
  | None => Raise TypeError
  end.

(** [if validation_data:] *)
Definition present (data : option (list json * list Z)) : bool :=
  match data with
  | Some (_ :: _, _) => true
  | _ => false
  end.

Definition min_shape_of (data : option (list json * list Z)) : list Z :=
  match data with
  | Some (_, m) => m
  | None => []
  end.

Definition as_int (v : json) : result Z :=
  match v with
  | JInt z => Ok z
  | JFloat q => if is_integral q then Ok (Qfloor q) else Raise TypeError
  | _ => Raise TypeError
  end.

Fixpoint as_int_list (l : list json) : result (list Z) :=
  match l with
  | [] => Ok []
  | v :: rest =>
      try! z := as_int v in
      try! zs := as_int_list rest in
      Ok (z :: zs)
  end.

(** Lines 159-176.  The configured [input_shape] is read as the integers
    it denotes; after validation it is a list and each of its items is an
    integer. *)
Definition reconcile_input_shape (fs : FileSystem)
    (config : gmap string json)
    (training_data validation_data : option (list json * list Z))
  : result (list Z) :=
  try! ndim := first_ndim fs training_data in
  try! _checked :=
    (if present validation_data then
       try! v := first_ndim fs validation_data in
       if negb (v =? ndim)%nat then
         Raise (ValueError AllImagesSameNumberOfDimensions)
       else Ok tt
     else Ok tt) in
  try! input_shape :=
    match config !! "input_shape" with
    | Some (JArr l) =>
        if negb (length l =? ndim)%nat then
          Raise (ValueError (InputShapeMustBeArray (Z.of_nat ndim)))
        else as_int_list l
    | Some _ => Raise TypeError
    | None => Ok (if (ndim =? 3)%nat then [16; 256; 256] else [256; 256])
    end in
  try! input_shape :=
    np_minimum input_shape (min_shape_of training_data) in
  if present validation_data then
    np_minimum input_shape (min_shape_of validation_data)
  else Ok input_shape.

Record Prepared := mkPrepared {
  (** the configuration after the defaults; the pairs the loader appends
      in place to an explicit list are in [training_data], not here *)
  config : gmap string json;
  training_data : list json;
  validation_data : option (list json);
  input_shape : list Z;
  model : Model
}.

(** [config[k]] used as an integer.  A float that passes the schema as an
    integer makes the construction of the graph fail ([range], a layer
    constructor); the kind of that error is not followed. *)
Definition config_int (config : gmap string json) (k : string) : result Z :=
  match config !! k with
  | Some (JInt z) => Ok z
  | Some _ => Raise TypeError
  | None => Raise (KeyError k)
  end.

(** Everything the script does before the model is compiled and fitted:
    lines 139-194. *)
Definition prepare (fs : FileSystem) (config : json) : result Prepared :=
  try! config := validated_config config in
  try! training := load_data_paths fs config "training" in
  try! validation := load_data_paths fs config "validation" in
  try! input_shape := reconcile_input_shape fs config training validation in
  try! num_channels := config_int config "num_channels" in
  try! num_residual_blocks := config_int config "num_residual_blocks" in
  try! num_residual_groups := config_int config "num_residual_groups" in
  try! channel_reduction := config_int config "channel_reduction" in
  try! model :=
    build_rcan (input_shape ++ [1]) num_channels num_residual_blocks
      num_residual_groups channel_reduction 1 (-1) in
  match training with
  | Some (pairs, _) =>
      Ok (mkPrepared config pairs (fst <$> validation) input_shape model)
  | None => Raise TypeError
  end.

End Train.
Import Train.

(* ===================================================================== *)
(** ** Vocabulary of the statements *)
(* ===================================================================== *)

Module Graphs.

Definition is_conv (l : Layer) : bool :=
  match l with Conv _ _ _ _ _ => true | _ => false end.

Definition is_add (l : Layer) : bool :=
  match l with Add => true | _ => false end.

Definition count (p : Layer -> bool) (ls : list Layer) : nat :=
  length (List.filter p ls).

Definition layers_of (g : Graph) : list Layer := map layer g.

(** Every convolution pads with [same]. *)
Definition same_padding (l : Layer) : Prop :=
  match l with
  | Conv _ _ _ p _ => p = same
  | _ => True
  end.

(** Run from graph [g], the builder [m] succeeds with a value that
    satisfies [post], and the nodes it adds carry the layers [ls], in
    this order. *)
Definition emits {A} (m : Build A) (g : Graph) (post : A -> Prop)
    (ls : list Layer) : Prop :=
  exists a nodes,
    m g = Ok (a, g ++ nodes) /\ post a /\ layers_of nodes = ls.

(** A tensor of shape [spatial ++ [channels]]. *)
Definition has_shape (spatial : list Z) (channels : Z) (x : Tensor) : Prop :=
  shape x = spatial ++ [channels].

(** The layer classes the dispatch on the spatial rank selects. *)
Definition conv_class (rank : nat) : ConvClass :=
  match rank with
  | 1%nat => Conv1D
  | 2%nat => Conv2D
  | _ => Conv3D
  end.

Definition pool_class (rank : nat) : PoolClass :=
  match rank with
  | 2%nat => GlobalAveragePooling2D
  | _ => GlobalAveragePooling3D
  end.

(** [n] monadic repetitions of [f]. *)
Fixpoint repeatB {A} (n : nat) (f : A -> Build A) (x : A) : Build A :=
  match n with
  | O => retB x
  | S n' => let* x' := f x in repeatB n' f x'
  end.

(** The residual group as section 4.5 of the design describes it:
    the stack of blocks, a convolution to [num_channels], the addition
    of the short skip. *)
Definition residual_group (num_channels num_residual_blocks
    channel_reduction : Z) (residual_scaling : Q) (x : Tensor)
  : Build Tensor :=
  let short := x in
  let* x :=
    _residual_channel_attention_blocks
      x num_residual_blocks channel_reduction residual_scaling in
  let* x := _conv x num_channels 3 same linear in
  merge_layer Add x short.

Section Expected.
Variables (rank : nat) (num_channels channel_reduction : Z)
          (residual_scaling : Q).

Definition conv3 (filters : Z) (a : Activation) : Layer :=
  Conv (conv_class rank) filters 3 same a.

Definition conv1 (filters : Z) (a : Activation) : Layer :=
  Conv (conv_class rank) filters 1 same a.

(** Layers of one channel attention block on [num_channels] channels. *)
Definition attention_layers : list Layer :=
  [ GlobalAveragePooling (pool_class rank);
    Reshape (replicate rank 1 ++ [num_channels]);
    conv1 (num_channels / channel_reduction) relu;
    conv1 num_channels sigmoid;
    Multiply ].

(** Layers of one residual channel attention block. *)
Definition rcab_layers : list Layer :=
  [conv3 num_channels relu; conv3 num_channels linear]
  ++ attention_layers
  ++ (if Qeq_bool residual_scaling 1 then []
      else [Lambda residual_scaling])
  ++ [Add].

Definition stack_layers (num_residual_blocks : Z) : list Layer :=
  concat (replicate (Z.to_nat num_residual_blocks) rcab_layers).

(** Layers of the loop over the groups: the bare stack for a single
    group, otherwise stack, convolution and addition per group. *)
Definition groups_layers (num_residual_blocks num_residual_groups : Z)
  : list Layer :=
  if num_residual_groups =? 1 then stack_layers num_residual_blocks
  else concat (replicate (Z.to_nat num_residual_groups)
                 (stack_layers num_residual_blocks
                  ++ [conv3 num_channels linear; Add])).

Definition rcan_layers (input_shape : list Z)
    (num_residual_blocks num_residual_groups num_output_channels : Z)
  : list Layer :=
  [InputLayer input_shape; Standardise; conv3 num_channels linear]
  ++ groups_layers num_residual_blocks num_residual_groups
  ++ [conv3 num_channels linear; Add;
      conv3 num_output_channels linear; Destandardise].
End Expected.

(** The number of output channels [build_rcan] resolves. *)
Definition resolved_output_channels (input_shape : list Z)
    (num_output_channels : Z) : Z :=
  if num_output_channels <? 0 then default 0 (last input_shape)
  else num_output_channels.

End Graphs.
Import Graphs.

(* ===================================================================== *)
(** ** Vocabulary of the statements about the data *)
(* ===================================================================== *)

Module Data.

(** The pair [p] names the raw image [rp] of shape [rs] and the ground
    truth image [gp] of shape [gs], both readable. *)
Definition pair_shapes (fs : FileSystem) (p : json)
    (rp : string) (rs : list Z) (gp : string) (gs : list Z) : Prop :=
  getitem p "raw" = Ok (JStr rp) /\ getitem p "gt" = Ok (JStr gp)
  /\ image_shape fs rp = Some rs /\ image_shape fs gp = Some gs.

(** The pair [p] names the readable raw image [rp] of shape [rs]. *)
Definition raw_shape (fs : FileSystem) (p : json)
    (rp : string) (rs : list Z) : Prop :=
  getitem p "raw" = Ok (JStr rp) /\ image_shape fs rp = Some rs.

(** A pair whose two images are readable and have the shape [s]. *)
Definition pair_ok (fs : FileSystem) (p : json) (s : list Z) : Prop :=
  exists rp gp, pair_shapes fs p rp s gp s.

(** Axis by axis minimum of [base] and all of [shapes]. *)
Definition elementwise_min (base : list Z) (shapes : list (list Z))
  : list Z :=
  foldl (zip_with Z.min) base shapes.

Definition default_input_shape (ndim : nat) : list Z :=
  if (ndim =? 3)%nat then [16; 256; 256] else [256; 256].

Definition pairs_key (data_type : string) : string :=
  data_type +:+ "_image_pairs".

Definition dir_key (data_type : string) : string :=
  data_type +:+ "_data_dir".

(** Neither the list of pairs nor the directory of the split yields a
    pair. *)
Definition yields_no_pairs (fs : FileSystem) (config : gmap string json)
    (data_type : string) : Prop :=
  (config !! pairs_key data_type = None
   \/ config !! pairs_key data_type = Some (JArr []))
  /\ (config !! dir_key data_type = None
      \/ exists d raw_dir gt_dir,
           config !! dir_key data_type = Some d
           /\ getitem d "raw" = Ok (JStr raw_dir)
           /\ getitem d "gt" = Ok (JStr gt_dir)
           /\ glob_tif fs raw_dir = []).

(** C8 as the design states it. *)
Definition absent_source_gives_none : Prop :=
  forall fs config data_type,
    yields_no_pairs fs config data_type ->
    load_data_paths fs config data_type = Ok None.

(** C5 as the design states it: whatever the channel count and the
    reduction, the bottleneck has a channel. *)
Definition bottleneck_never_empty : Prop :=
  forall x sp c r,
    has_shape sp c x -> 1 <= c -> 1 <= r ->
    exists b, bottleneck_channels x r = Ok b /\ 1 <= b.

(** C7 as the design states it, on the numbers the layers compute
    with. *)
Definition float32_round_trip_exact : Prop :=
  forall x : list float32,
    destandardise_call (standardise_call x) = x.

Definition known_keys : list string := map fst schema_properties.

(** First value bound to [k] in an association list. *)
Fixpoint assoc (k : string) (l : list (string * json)) : option json :=
  match l with
  | [] => None
  | (k', v) :: rest => if String.eqb k k' then Some v else assoc k rest
  end.

(** *** Example data *)

Definition dir_entry (raw gt : string) : json :=
  JObj (<["raw" := JStr raw]> (<["gt" := JStr gt]> ∅)).

(** Three pairs of shapes (10,100,100), (8,120,90), (12,100,100),
    listed out of order by the directories. *)
Definition example_fs : FileSystem :=
  mkFS
    (fun d =>
       if String.eqb d "raw" then ["raw/b.tif"; "raw/a.tif"; "raw/c.tif"]
       else if String.eqb d "gt" then ["gt/c.tif"; "gt/a.tif"; "gt/b.tif"]
       else [])
    (fun p =>
       if String.eqb p "raw/a.tif" || String.eqb p "gt/a.tif"
       then Some [10; 100; 100]
       else if String.eqb p "raw/b.tif" || String.eqb p "gt/b.tif"
       then Some [8; 120; 90]
       else if String.eqb p "raw/c.tif" || String.eqb p "gt/c.tif"
       then Some [12; 100; 100]
       else if String.eqb p "raw/d.tif" then Some [4; 64; 64]
       else if String.eqb p "gt/d.tif" then Some [4; 64; 32]
       else if String.eqb p "raw/e.tif" || String.eqb p "gt/e.tif"
       then Some [64; 64]
       else None).

Definition example_config : gmap string json :=
  <["training_data_dir" := dir_entry "raw" "gt"]> ∅.

(** A validation directory without TIFF files. *)
Definition empty_dir_config : gmap string json :=
  <["validation_data_dir" := dir_entry "nowhere" "nowhere"]> example_config.


(** A training split whose only pair has images of different shapes. *)
Definition mismatch_config : gmap string json :=
  <["training_image_pairs" := JArr [pair_of "raw/d.tif" "gt/d.tif"]]> ∅.

(** 0.1 rounded to binary32. *)
Definition tenth : float32 := S754_finite false 13421773 (-27).

End Data.
Import Data.

(* ===================================================================== *)
(** ** Vocabulary of the further properties *)
(* ===================================================================== *)

Module Wiring.

Definition is_lambda (l : Layer) : bool :=
  match l with Lambda _ => true | _ => false end.

Definition is_multiply (l : Layer) : bool :=
  match l with Multiply => true | _ => false end.

Definition is_pooling (l : Layer) : bool :=
  match l with GlobalAveragePooling _ => true | _ => false end.

(** The number of residual channel attention blocks of a network. *)
Definition block_count (num_residual_blocks num_residual_groups : Z) : nat :=
  if num_residual_groups =? 1 then Z.to_nat num_residual_blocks
  else (Z.to_nat num_residual_groups * Z.to_nat num_residual_blocks)%nat.

(** The number of residual groups that end with a convolution and the
    addition of a short skip. *)
Definition closed_groups (num_residual_groups : Z) : nat :=
  if num_residual_groups =? 1 then 0%nat else Z.to_nat num_residual_groups.

End Wiring.
Import Wiring.

Module Order.

(** Every node takes its inputs from nodes created before it. *)
Definition inbound_earlier (g : Graph) : Prop :=
  forall i node, g !! i = Some node ->
    Forall (fun j => (j < i)%nat) (inbound node).

(** The tensor carried out of a loop iteration. *)
Definition carried {A} (fl : Flow A) : A :=
  match fl with Next a => a | Break a => a end.

(** Run from a graph of [n0] nodes that take their inputs from earlier
    nodes, a builder that succeeds only appends nodes, leaves such a graph
    and a value that satisfies [post] with it. *)
Definition keeps_order {A} (m : Build A) (post : A -> Graph -> Prop)
    (n0 : nat) : Prop :=
  forall g a g',
    inbound_earlier g -> length g = n0 -> m g = Ok (a, g') ->
    inbound_earlier g' /\ g `prefix_of` g' /\ post a g'.

(** The tensor was produced by a node of the graph. *)
Definition produced (x : Tensor) (g : Graph) : Prop :=
  (producer x < length g)%nat.

(** The tensor was produced by the last node of the graph, by a call of
    the layer [l] on the tensors [ins]. *)
Definition fresh (l : Layer) (ins : list nat) (x : Tensor) (g : Graph)
  : Prop :=
  S (producer x) = length g
  /\ last g = Some (mkNode l ins (shape x)).

End Order.
Import Order.

Module Dataflow.

(** The inbound indices of the nodes one residual channel attention block
    adds to a graph of [n] nodes, for a block input produced by node [px]:
    two convolutions in sequence, the pooling of the second, the reshape,
    the two convolutions of the gate, the product of the second
    convolution and the gate, the scaling when there is one, and the
    addition of the block input. *)
Definition rcab_inbound (n px : nat) (residual_scaling : Q)
  : list (list nat) :=
  [ [px]; [n]; [S n]; [n + 2]; [n + 3]; [n + 4]; [S n; n + 5] ]%nat
  ++ (if Qeq_bool residual_scaling 1 then [[n + 6; px]]
      else [[n + 6]; [n + 7; px]])%nat.

(** A successful call appends one node that reads [ins] and returns its
    output. *)
Definition appends_one (m : Build Tensor) (ins : list nat) : Prop :=
  forall g y g',
    m g = Ok (y, g') ->
    producer y = length g
    /\ exists l s, g' = g ++ [mkNode l ins s].

End Dataflow.
Import Dataflow.

Module SchemaFacts.

(** The check of the [properties] keyword of the schema on a dictionary. *)
Definition properties_hold (m : gmap string json) : bool :=
  List.forallb (fun '(k, sub) =>
    match m !! k with
    | Some x => validate sub x
    | None => true
    end) schema_properties.

End SchemaFacts.
Import SchemaFacts.

(* ===================================================================== *)
(** ** train.py: from the model to the call of [model.fit] *)
(* ===================================================================== *)

Module Orchestration.

Inductive Loss := MeanAbsoluteError | MeanSquaredError.
Inductive Metric := psnr | ssim.

(** What the lookups and the arithmetic of lines 196-258 can raise, with
    the value at fault. *)
Inductive failure :=
  | MissingKey (key : json)      (* KeyError(key) *)
  | Unhashable (key : json)      (* TypeError: unhashable type *)
  | NotIterable (v : json)       (* TypeError: object is not iterable *)
  | BadOperand (v : json).       (* TypeError: unsupported operand for // *)

Definition and_then {A B} (r : failure + A) (k : A -> failure + B)
  : failure + B :=
  match r with
  | inr a => k a
  | inl e => inl e
  end.

Notation "'get!' x ':=' e 'in' k" := (and_then e (fun x => k))
  (at level 10, x name, e at level 100, k at level 200).

(** [{'mae': ..., 'mse': ...}] *)
Definition loss_table (k : string) : option Loss :=
  if String.eqb k "mae" then Some MeanAbsoluteError
  else if String.eqb k "mse" then Some MeanSquaredError
  else None.

(** [{'psnr': psnr, 'ssim': ssim}] *)
Definition metric_table (k : string) : option Metric :=
  if String.eqb k "psnr" then Some psnr
  else if String.eqb k "ssim" then Some ssim
  else None.

(** [table[v]] for a dictionary whose keys are strings: a list or a
    dictionary cannot be hashed, any other value is looked up and, unless
    it is a string of the table, missing. *)
Definition table_lookup {A} (table : string -> option A) (v : json)
  : failure + A :=
  match v with
  | JStr s =>
      match table s with
      | Some a => inr a
      | None => inl (MissingKey v)
      end
  | JArr _ | JObj _ => inl (Unhashable v)
  | _ => inl (MissingKey v)
  end.

Fixpoint lookup_all {A} (table : string -> option A) (l : list json)
  : failure + list A :=
  match l with
  | [] => inr []
  | v :: rest =>
      get! a := table_lookup table v in
      get! others := lookup_all table rest in
      inr (a :: others)
  end.

(** [config[k]] *)
Definition config_get (config : gmap string json) (k : string)
  : failure + json :=
  match config !! k with
  | Some v => inr v
  | None => inl (MissingKey (JStr k))
  end.

(** [v // 4] *)
Definition floordiv4 (v : json) : failure + json :=
  match v with
  | JInt z => inr (JInt (z / 4))
  | JBool b => inr (JInt 0)
  | JFloat q => inr (JFloat (inject_Z (Qfloor (q / 4))))
  | _ => inl (BadOperand v)
  end.

(** What the script passes to [compile], to the data generator, to the
    checkpoint callback and to [fit]. *)
Record FitArguments := mkFit {
  learning_rate : json;
  loss : Loss;
  metrics : list Metric;
  batch_size : json;
  transform_function : option string;
  intensity_threshold : json;
  area_ratio_threshold : json;
  checkpoint_filepath : string;
  steps_per_epoch : json;
  validation_steps : option json;
  epochs : json;
  decay_period : json;
  monitor : string
}.

Section FileOrder.

(** A dictionary read by [json.load] keeps the order of its keys in the
    file, which the map does not record. *)
Variable key_order : gmap string json -> list string.

(** The values a [for] loop over [v] visits: the items of a list, the
    characters of a string, the keys of a dictionary. *)
Definition iterate (v : json) : failure + list json :=
  match v with
  | JArr l => inr l
  | JStr s =>
      inr (map (fun c => JStr (String c "")) (String.list_ascii_of_string s))
  | JObj m => inr (map JStr (key_order m))
  | _ => inl (NotIterable v)
  end.

(** Lines 196-258, the calls into the libraries left out: the arguments
    in the order the script evaluates them. *)
Definition fit_arguments (config : gmap string json)
    (validation_data : option (list json * list Z))
  : failure + FitArguments :=
  get! learning_rate := config_get config "initial_learning_rate" in
  get! loss_name := config_get config "loss" in
  get! loss := table_lookup loss_table loss_name in
  get! metric_names := config_get config "metrics" in
  get! metric_names := iterate metric_names in
  get! metrics := lookup_all metric_table metric_names in
  get! batch_size := config_get config "batch_size" in
  get! data_augmentation := config_get config "data_augmentation" in
  let transform_function :=
    if truthy data_augmentation then Some "rotate_and_flip" else None in
  get! intensity_threshold := config_get config "intensity_threshold" in
  get! area_ratio_threshold := config_get config "area_ratio_threshold" in
  let checkpoint_filepath :=
    match validation_data with
    | Some _ => "weights_{epoch:03d}_{val_loss:.8f}.keras"
    | None => "weights_{epoch:03d}_{loss:.8f}.keras"
    end in
  get! steps_per_epoch := config_get config "steps_per_epoch" in
  let validation_steps :=
    match validation_data with
    | None => None
    | Some _ => Some steps_per_epoch
    end in
  get! epochs := config_get config "epochs" in
  get! epochs_again := config_get config "epochs" in
  get! decay_period := floordiv4 epochs_again in
  let monitor :=
    match validation_data with
    | None => "loss"
    | Some _ => "val_loss"
    end in
  inr (mkFit learning_rate loss metrics batch_size transform_function
         intensity_threshold area_ratio_threshold checkpoint_filepath
         steps_per_epoch validation_steps epochs decay_period monitor).

End FileOrder.

End Orchestration.
Import Orchestration.

(* ===================================================================== *)
(** ** Further example data *)
(* ===================================================================== *)

Module Examples.

(** The files of [example_fs], each directory listed in sorted order. *)
Definition example_fs_sorted : FileSystem :=
  mkFS
    (fun d =>
       if String.eqb d "raw" then ["raw/a.tif"; "raw/b.tif"; "raw/c.tif"]
       else if String.eqb d "gt" then ["gt/a.tif"; "gt/b.tif"; "gt/c.tif"]
       else [])
    (image_shape example_fs).

(** A training directory entry without paths. *)
Definition no_paths_config : gmap string json :=
  <["training_data_dir" := JObj ∅]> ∅.

(** Images with three dimensions and an [input_shape] with two. *)
Definition wrong_shape_config : gmap string json :=
  <["input_shape" := JArr [JInt 64; JInt 64]]> example_config.

End Examples.
Import Examples.

(* ===================================================================== *)
(** ** Properties of the graph builders *)
(* ===================================================================== *)

Section BuilderLemmas.

Lemma count_app p (l1 l2 : list Layer) :
  count p (l1 ++ l2) = (count p l1 + count p l2)%nat.
Proof. unfold count. by rewrite List.filter_app, length_app. Qed.

Lemma count_concat_replicate p n (l : list Layer) :
  count p (concat (replicate n l)) = (n * count p l)%nat.
Proof.
  induction n as [|n IH]; [done|]. simpl. rewrite count_app, IH. lia.
Qed.

Lemma emits_ret {A} (a : A) g (post : A -> Prop) :
  post a -> emits (retB a) g post [].
Proof. intros Hp. exists a, []. by rewrite app_nil_r. Qed.

Lemma emits_bind {A B} (m : Build A) (k : A -> Build B) g
    (P : A -> Prop) (Q : B -> Prop) l1 l2 :
  emits m g P l1 ->
  (forall a g', P a -> emits (k a) g' Q l2) ->
  emits (bindB m k) g Q (l1 ++ l2).
Proof.
  intros (a & n1 & Hm & Hp & Hl) Hk.
  destruct (Hk a (g ++ n1) Hp) as (b & n2 & Hk' & Hq & Hl').
  exists b, (n1 ++ n2). unfold bindB. rewrite Hm, Hk', app_assoc.
  unfold layers_of in *. rewrite map_app. by subst.
Qed.

Lemma emits_cast {A} (m : Build A) g (P : A -> Prop) l l' :
  emits m g P l -> l = l' -> emits m g P l'.
Proof. by intros H ->. Qed.

Lemma emits_post {A} (m : Build A) g (P Q : A -> Prop) l :
  emits m g P l -> (forall x, P x -> Q x) -> emits m g Q l.
Proof.
  intros (x & n & H1 & H2 & H3) HPQ. exists x, n. auto.
Qed.

Lemma emits_call l ins out g :
  emits (call l ins out) g (fun y => shape y = out) [l].
Proof. by eexists _, [_]. Qed.

Lemma emits_lift {A} (r : result A) (a : A) g :
  r = Ok a -> emits (liftB r) g (fun b => b = a) [].
Proof. intros ->. by apply emits_ret. Qed.

Lemma spatial_ndim_snoc x sp c :
  has_shape sp c x -> _get_spatial_ndim x = Z.of_nat (length sp).
Proof.
  unfold has_shape, _get_spatial_ndim, ndim. intros ->.
  rewrite length_app. simpl. lia.
Qed.

Lemma num_channels_snoc x sp c : has_shape sp c x -> _get_num_channels x = c.
Proof.
  unfold has_shape, _get_num_channels. intros ->. by rewrite last_snoc.
Qed.

(** A convolution on a tensor of spatial rank 1, 2 or 3 with a positive
    number of filters adds one node and changes the channel axis only. *)
Lemma emits_conv x sp c f k act g :
  has_shape sp c x -> (1 <= length sp <= 3)%nat -> 0 < f ->
  emits (_conv x f k same act) g (has_shape sp f)
    [Conv (conv_class (length sp)) f k same act].
Proof.
  intros Hx Hn Hf. unfold _conv. rewrite (spatial_ndim_snoc _ _ _ Hx).
  assert (Hcl :
    (if Z.of_nat (length sp) =? 1 then retB Conv1D
     else if Z.of_nat (length sp) =? 2 then retB Conv2D
     else if Z.of_nat (length sp) =? 3 then retB Conv3D
     else raiseB (NotImplementedError
                    (ConvolutionNotSupported (Z.of_nat (length sp)))))
    = retB (conv_class (length sp))).
  { destruct (length sp) as [|[|[|[|n]]]]; try lia; reflexivity. }
  rewrite Hcl. unfold bindB, retB, conv_layer.
  destruct (f <=? 0) eqn:E; [lia|].
  unfold has_shape in Hx. rewrite Hx, removelast_last.
  by eexists _, [_].
Qed.

Lemma emits_pooling x sp c g :
  has_shape sp c x -> (2 <= length sp <= 3)%nat ->
  emits (_global_average_pooling x) g (fun y => shape y = [c])
    [GlobalAveragePooling (pool_class (length sp))].
Proof.
  intros Hx Hn. unfold _global_average_pooling.
  rewrite (spatial_ndim_snoc _ _ _ Hx).
  unfold has_shape in Hx.
  destruct (length sp) as [|[|[|[|n]]]]; try lia; simpl;
    unfold pooling_layer; rewrite Hx, last_snoc; apply emits_call.
Qed.

Lemma merge_axis_same i : merge_axis i i = Ok i.
Proof.
  unfold merge_axis. destruct (i =? 1) eqn:E; [f_equal; lia|].
  by rewrite Z.eqb_refl.
Qed.

Lemma merge_axis_one i : merge_axis i 1 = Ok i.
Proof. unfold merge_axis. destruct (i =? 1) eqn:E; [f_equal; lia|done]. Qed.

Lemma merge_axes_same s : merge_axes s s = Ok s.
Proof.
  induction s as [|i s IH]; [done|]. simpl.
  by rewrite merge_axis_same, IH.
Qed.

Lemma merge_axes_ones sp c :
  merge_axes (sp ++ [c]) (replicate (length sp) 1 ++ [c]) = Ok (sp ++ [c]).
Proof.
  induction sp as [|i sp IH]; simpl.
  - by rewrite merge_axis_same.
  - by rewrite merge_axis_one, IH.
Qed.

Lemma elemwise_same s : elemwise_output_shape s s = Ok s.
Proof.
  unfold elemwise_output_shape. rewrite Nat.ltb_irrefl, Nat.sub_diag.
  simpl. by rewrite merge_axes_same.
Qed.

Lemma elemwise_ones sp c :
  elemwise_output_shape (sp ++ [c]) (replicate (length sp) 1 ++ [c])
  = Ok (sp ++ [c]).
Proof.
  unfold elemwise_output_shape.
  assert (E : length (replicate (length sp) 1 ++ [c]) = length (sp ++ [c])).
  { by rewrite !length_app, length_replicate. }
  rewrite E, Nat.ltb_irrefl. cbv beta iota.
  rewrite E, Nat.sub_diag, drop_0, take_0, merge_axes_ones.
  reflexivity.
Qed.

Lemma emits_add x y s g :
  shape x = s -> shape y = s ->
  emits (merge_layer Add x y) g (fun z => shape z = s) [Add].
Proof.
  intros Hx Hy. unfold merge_layer. rewrite Hx, Hy, elemwise_same.
  apply emits_call.
Qed.

Lemma emits_multiply x y sp c g :
  has_shape sp c x -> has_shape (replicate (length sp) 1) c y ->
  emits (merge_layer Multiply x y) g (has_shape sp c) [Multiply].
Proof.
  unfold has_shape. intros Hx Hy. unfold merge_layer.
  rewrite Hx, Hy, elemwise_ones. apply emits_call.
Qed.

Lemma product_ones n l : product (replicate n 1 ++ l) = product l.
Proof.
  induction n as [|n IH]; [done|]. simpl.
  change (foldr Z.mul 1 (replicate n 1 ++ l)) with
    (product (replicate n 1 ++ l)).
  rewrite IH. destruct (product l); reflexivity.
Qed.

Lemma emits_reshape y n c g :
  shape y = [c] ->
  emits (reshape_layer (replicate n 1 ++ [c]) y) g
    (has_shape (replicate n 1) c) [Reshape (replicate n 1 ++ [c])].
Proof.
  intros Hy. unfold reshape_layer. rewrite Hy, product_ones, Z.eqb_refl.
  apply emits_call.
Qed.

(** The channel attention block on [c] channels with [r <= c]. *)
Lemma emits_attention x sp c r g :
  has_shape sp c x -> (2 <= length sp <= 3)%nat -> 1 <= r -> r <= c ->
  emits (_channel_attention_block x r) g (has_shape sp c)
    (attention_layers (length sp) c r).
Proof.
  intros Hx Hn Hr Hc. unfold _channel_attention_block.
  rewrite (num_channels_snoc _ _ _ Hx), (spatial_ndim_snoc _ _ _ Hx).
  rewrite Nat2Z.id.
  assert (Hq : 0 < c / r) by (apply Z.div_str_pos; lia).
  assert (Hl : length (replicate (length sp) 1) = length sp)
    by apply length_replicate.
  eapply emits_cast.
  - eapply emits_bind; [by apply emits_pooling|]. intros y1 g1 H1.
    eapply emits_bind; [by apply emits_reshape|]. intros y2 g2 H2.
    eapply emits_bind.
    { apply emits_lift. unfold bottleneck_channels, floordiv.
      rewrite (num_channels_snoc _ _ _ Hx).
      destruct (r =? 0) eqn:E; [lia|reflexivity]. }
    intros b g3 ->.
    eapply emits_bind.
    { eapply emits_conv; [exact H2|lia|exact Hq]. }
    intros y3 g4 H3.
    eapply emits_bind.
    { eapply emits_conv; [exact H3|lia|lia]. }
    intros y4 g5 H4.
    by apply emits_multiply.
  - unfold attention_layers, conv1. by rewrite Hl.
Qed.

Lemma emits_rcab x sp c r rs g :
  has_shape sp c x -> (2 <= length sp <= 3)%nat -> 1 <= r -> r <= c ->
  emits (rcab c r rs x) g
    (fun fl => exists x', fl = Next x' /\ has_shape sp c x')
    (rcab_layers (length sp) c r rs).
Proof.
  intros Hx Hn Hr Hc. unfold rcab, rcab_layers.
  change [conv3 (length sp) c relu; conv3 (length sp) c linear]
    with ([conv3 (length sp) c relu] ++ [conv3 (length sp) c linear]).
  rewrite <- app_assoc.
  eapply emits_bind; [eapply emits_conv; [exact Hx|lia|lia]|].
  intros x1 g1 H1.
  eapply emits_bind; [eapply emits_conv; [exact H1|lia|lia]|].
  intros x2 g2 H2.
  eapply emits_bind; [by apply emits_attention|]. intros x3 g3 H3.
  eapply emits_bind.
  { instantiate (1 := has_shape sp c).
    destruct (Qeq_bool rs 1); [by apply emits_ret|].
    eapply emits_post; [apply emits_call|].
    intros y Hy. unfold has_shape. by rewrite Hy. }
  intros x4 g4 H4.
  eapply emits_cast.
  - eapply emits_bind; [by apply (emits_add x4 x (sp ++ [c]))|].
    intros x5 g5 H5. apply emits_ret. by exists x5.
  - reflexivity.
Qed.

Lemma emits_for_range {A} n (body : A -> Build (Flow A)) x g
    (P : A -> Prop) ls :
  (forall x g, P x ->
     emits (body x) g (fun fl => exists x', fl = Next x' /\ P x') ls) ->
  P x ->
  emits (for_range n body x) g P (concat (replicate n ls)).
Proof.
  intros Hbody. revert x g.
  induction n as [|n IH]; intros x g Hx; simpl.
  - by apply emits_ret.
  - eapply emits_bind; [by apply Hbody|].
    intros fl g' (x' & -> & Hx'). by apply IH.
Qed.

Lemma emits_stack x sp c blocks r rs g :
  has_shape sp c x -> (2 <= length sp <= 3)%nat -> 1 <= r -> r <= c ->
  emits (_residual_channel_attention_blocks x blocks r rs) g
    (has_shape sp c) (stack_layers (length sp) c r rs blocks).
Proof.
  intros Hx Hn Hr Hc. unfold _residual_channel_attention_blocks.
  rewrite (num_channels_snoc _ _ _ Hx).
  apply emits_for_range; [|done].
  intros y g' Hy. by apply emits_rcab.
Qed.

Lemma emits_groups x sp c blocks groups r rs g :
  has_shape sp c x -> (2 <= length sp <= 3)%nat -> 1 <= r -> r <= c ->
  emits (residual_groups c blocks groups r rs x) g
    (has_shape sp c) (groups_layers (length sp) c r rs blocks groups).
Proof.
  intros Hx Hn Hr Hc. unfold residual_groups, groups_layers.
  destruct (groups =? 1) eqn:E.
  - apply Z.eqb_eq in E. subst groups.
    change (Z.to_nat 1) with 1%nat. simpl for_range.
    unfold residual_group_body. simpl (1 =? 1).
    eapply emits_cast.
    + eapply emits_bind.
      { eapply emits_bind; [by apply emits_stack|].
        intros y g' Hy.
        apply (emits_ret (Break y) g'
                 (fun fl => exists y', fl = Break y' /\ has_shape sp c y')).
        by exists y. }
      intros fl g' (y & -> & Hy). by apply emits_ret.
    + by rewrite !app_nil_r.
  - apply emits_for_range; [|done].
    intros y g' Hy. unfold residual_group_body. rewrite E.
    eapply emits_bind; [by apply emits_stack|]. intros y1 g1 H1.
    eapply emits_cast.
    + eapply emits_bind; [eapply emits_conv; [exact H1|lia|lia]|].
      intros y2 g2 H2.
      eapply emits_bind; [by apply (emits_add y2 y (sp ++ [c]))|].
      intros y3 g3 H3. apply emits_ret. by exists y3.
    + reflexivity.
Qed.

(** The whole graph, for an input of spatial rank 2 or 3. *)
Lemma emits_build_rcan sp cin nc blocks groups r rs k g :
  (2 <= length sp <= 3)%nat -> 1 <= r -> r <= nc ->
  0 < resolved_output_channels (sp ++ [cin]) k ->
  emits (build_rcan_graph (sp ++ [cin]) nc blocks groups r rs k) g
    (fun io => shape (fst io) = sp ++ [cin]
               /\ has_shape sp (resolved_output_channels (sp ++ [cin]) k)
                    (snd io))
    (rcan_layers (length sp) nc r rs (sp ++ [cin]) blocks groups
       (resolved_output_channels (sp ++ [cin]) k)).
Proof.
  intros Hn Hr Hc Hk. unfold build_rcan_graph, rcan_layers.
  set (K := resolved_output_channels (sp ++ [cin]) k) in *.
  change (emits
    (let* num_output_channels :=
       (if k <? 0 then liftB (last_item (sp ++ [cin])) else retB k) in
     let* inputs := Input (sp ++ [cin]) in
     let* x := pointwise_layer Standardise inputs in
     let* x := _conv x nc 3 same linear in
     let* x0 := residual_groups nc blocks groups r rs x in
     let* x1 := _conv x0 nc 3 same linear in
     let* x2 := merge_layer Add x1 x in
     let* x3 := _conv x2 num_output_channels 3 same linear in
     let* outputs := pointwise_layer Destandardise x3 in
     retB (inputs, outputs)) g
    (fun io => shape io.1 = sp ++ [cin] /\ has_shape sp K io.2)
    ([] ++ [InputLayer (sp ++ [cin])] ++ [Standardise]
     ++ [conv3 (length sp) nc linear]
     ++ groups_layers (length sp) nc r rs blocks groups
     ++ [conv3 (length sp) nc linear] ++ [Add]
     ++ [conv3 (length sp) K linear] ++ [Destandardise] ++ [])).
  eapply emits_bind.
  { instantiate (1 := fun v => v = K). unfold K, resolved_output_channels.
    destruct (k <? 0).
    - unfold last_item. rewrite last_snoc. simpl. by apply emits_ret.
    - by apply emits_ret. }
  intros ? g0 ->.
  eapply emits_bind; [apply emits_call|]. intros i g1 Hi.
  eapply emits_bind; [apply emits_call|]. intros x1 g2 H1.
  rewrite Hi in H1.
  eapply emits_bind; [eapply emits_conv; [exact H1|lia|lia]|].
  intros x2 g3 H2.
  eapply emits_bind; [by apply emits_groups|]. intros x3 g4 H3.
  eapply emits_bind; [eapply emits_conv; [exact H3|lia|lia]|].
  intros x4 g5 H4.
  eapply emits_bind; [by apply (emits_add x4 x2 (sp ++ [nc]))|].
  intros x5 g6 H5.
  eapply emits_bind; [eapply emits_conv; [exact H5|lia|exact Hk]|].
  intros x6 g7 H6.
  eapply emits_bind; [apply emits_call|]. intros o g8 Ho.
  apply emits_ret. simpl. split; [done|].
  unfold has_shape. by rewrite Ho.
Qed.

End BuilderLemmas.

(* ===================================================================== *)
(** ** The network assembler *)
(* ===================================================================== *)

Section Assembler.

Lemma bind_raises {A B} (m : Build A) (k : A -> Build B) g e :
  m g = Raise e -> bindB m k g = Raise e.
Proof. unfold bindB. by intros ->. Qed.

Lemma bind_then_raises {A B} (m : Build A) (k : A -> Build B) g
    (P : A -> Prop) ls e :
  emits m g P ls -> (forall a g', P a -> k a g' = Raise e) ->
  bindB m k g = Raise e.
Proof.
  intros (a & n & Hm & Hp & _) Hk. unfold bindB. rewrite Hm. by apply Hk.
Qed.

(** With a single group the loop runs the stack of blocks and nothing
    else. *)
Lemma lone_group_is_stack nc blocks r rs x g :
  residual_groups nc blocks 1 r rs x g
  = _residual_channel_attention_blocks x blocks r rs g.
Proof.
  unfold residual_groups. change (Z.to_nat 1) with 1%nat. simpl.
  unfold residual_group_body, bindB, retB. simpl.
  by destruct (_residual_channel_attention_blocks x blocks r rs g)
    as [[y g']|e].
Qed.

Lemma for_range_repeatB {A} n (body : A -> Build (Flow A))
    (f : A -> Build A) x g :
  (forall x g, body x g = (let* y := f x in retB (Next y)) g) ->
  for_range n body x g = repeatB n f x g.
Proof.
  intros Hbody. revert x g.
  induction n as [|n IH]; intros x g; [done|]. simpl.
  unfold bindB. rewrite Hbody. unfold bindB, retB.
  destruct (f x g) as [[y g']|e]; [apply IH|done].
Qed.

(** With two groups or more every group is stack, convolution, skip. *)
Lemma several_groups_are_residual_groups nc blocks groups r rs x g :
  groups <> 1 ->
  residual_groups nc blocks groups r rs x g
  = repeatB (Z.to_nat groups) (residual_group nc blocks r rs) x g.
Proof.
  intros Hg. unfold residual_groups. apply for_range_repeatB.
  intros y g'. unfold residual_group_body, residual_group, bindB, retB.
  destruct (groups =? 1) eqn:E; [lia|].
  destruct (_residual_channel_attention_blocks y blocks r rs g')
    as [[y1 g1]|e]; [|done].
  destruct (_conv y1 nc 3 same linear g1) as [[y2 g2]|e]; [|done].
  by destruct (merge_layer Add y2 y g2) as [[y3 g3]|e].
Qed.

(** A well-formed call of [build_rcan] returns a model whose nodes carry
    exactly the layers of [rcan_layers]. *)
Lemma build_rcan_ok sp cin nc blocks groups r rs k :
  (2 <= length sp <= 3)%nat -> 1 <= r -> r <= nc ->
  0 < resolved_output_channels (sp ++ [cin]) k ->
  exists m,
    build_rcan (sp ++ [cin]) nc blocks groups r rs k = Ok m
    /\ shape (inputs m) = sp ++ [cin]
    /\ shape (outputs m)
       = sp ++ [resolved_output_channels (sp ++ [cin]) k]
    /\ layers_of (layers m)
       = rcan_layers (length sp) nc r rs (sp ++ [cin]) blocks groups
           (resolved_output_channels (sp ++ [cin]) k).
Proof.
  intros Hn Hr Hc Hk.
  destruct (emits_build_rcan sp cin nc blocks groups r rs k [] Hn Hr Hc Hk)
    as ([i o] & nodes & Hrun & [Hi Ho] & Hl).
  unfold build_rcan. rewrite Hrun. simpl in *.
  by exists (mkModel i o nodes).
Qed.

Lemma count_groups_lt p rank nc r rs blocks groups :
  2 <= groups ->
  (1 <= count p [conv3 rank nc linear; Add])%nat ->
  (count p (groups_layers rank nc r rs blocks 1)
   < count p (groups_layers rank nc r rs blocks groups))%nat.
Proof.
  intros Hg Hp. unfold groups_layers. simpl (1 =? 1).
  destruct (groups =? 1) eqn:E; [lia|].
  rewrite count_concat_replicate, count_app.
  assert (2 <= Z.to_nat groups)%nat by lia. nia.
Qed.

Lemma count_rcan_lt p rank nc r rs s blocks groups k :
  2 <= groups ->
  (1 <= count p [conv3 rank nc linear; Add])%nat ->
  (count p (rcan_layers rank nc r rs s blocks 1 k)
   < count p (rcan_layers rank nc r rs s blocks groups k))%nat.
Proof.
  intros Hg Hp. unfold rcan_layers. rewrite !count_app.
  pose proof (count_groups_lt p rank nc r rs blocks groups Hg Hp). lia.
Qed.

Lemma count_all (ls : list Layer) : count (fun _ => true) ls = length ls.
Proof.
  unfold count. induction ls as [|l ls IH]; simpl; [done|]. by rewrite IH.
Qed.

(** C1. With [num_residual_groups = 1] the loop over the groups runs the
    stack of residual channel attention blocks only: the convolution
    after the group and the addition of its short skip are not built.
    With two groups or more, every group is the stack, a convolution to
    [num_channels] and the addition of the short skip.  Hence, for an
    input of spatial rank 2 or 3 with positive sizes and valid
    hyperparameters, the model with one group has strictly fewer
    convolution nodes, strictly fewer addition nodes and strictly fewer
    nodes than the model with [groups >= 2] groups and the same other
    arguments. *)
Theorem lone_group_has_no_post_conv_nor_skip
    sp cin nc blocks groups r rs k (x : Tensor) (g : Graph) :
  (2 <= length sp <= 3)%nat ->
  Forall (fun d => 1 <= d) (sp ++ [cin]) ->
  1 <= r -> r <= nc ->
  0 < resolved_output_channels (sp ++ [cin]) k ->
  2 <= groups ->
  residual_groups nc blocks 1 r rs x g
  = _residual_channel_attention_blocks x blocks r rs g
  /\ residual_groups nc blocks groups r rs x g
     = repeatB (Z.to_nat groups) (residual_group nc blocks r rs) x g
  /\ exists m1 m2,
       build_rcan (sp ++ [cin]) nc blocks 1 r rs k = Ok m1
       /\ build_rcan (sp ++ [cin]) nc blocks groups r rs k = Ok m2
       /\ (count is_conv (layers_of (layers m1))
           < count is_conv (layers_of (layers m2)))%nat
       /\ (count is_add (layers_of (layers m1))
           < count is_add (layers_of (layers m2)))%nat
       /\ (length (layers m1) < length (layers m2))%nat.
Proof.
  intros Hn _ Hr Hc Hk Hg. split; [apply lone_group_is_stack|].
  split; [apply several_groups_are_residual_groups; lia|].
  destruct (build_rcan_ok sp cin nc blocks 1 r rs k Hn Hr Hc Hk)
    as (m1 & E1 & _ & _ & L1).
  destruct (build_rcan_ok sp cin nc blocks groups r rs k Hn Hr Hc Hk)
    as (m2 & E2 & _ & _ & L2).
  exists m1, m2. split; [done|]. split; [done|].
  rewrite <- (length_map layer (layers m1)), <- (length_map layer (layers m2)).
  fold (layers_of (layers m1)) (layers_of (layers m2)).
  rewrite <- !count_all, L1, L2.
  repeat split; apply count_rcan_lt; auto; unfold count; simpl; lia.
Qed.

Lemma lone_group_witness :
  ((2 <= length [64; 64] <= 3)%nat
   /\ Forall (fun d => 1 <= d) ([64; 64] ++ [1])
   /\ 1 <= 2 /\ 2 <= 8
   /\ 0 < resolved_output_channels ([64; 64] ++ [1]) (-1) /\ 2 <= 2)
  /\ exists m1 m2,
       build_rcan ([64; 64] ++ [1]) 8 1 1 2 1 (-1) = Ok m1
       /\ build_rcan ([64; 64] ++ [1]) 8 1 2 2 1 (-1) = Ok m2
       /\ (count is_conv (layers_of (layers m1))
           < count is_conv (layers_of (layers m2)))%nat
       /\ (count is_add (layers_of (layers m1))
           < count is_add (layers_of (layers m2)))%nat
       /\ (length (layers m1) < length (layers m2))%nat.
Proof.
  assert (H1 : (2 <= length [64; 64] <= 3)%nat) by (simpl; lia).
  assert (H0 : Forall (fun d => 1 <= d) ([64; 64] ++ [1])).
  { repeat constructor; lia. }
  assert (H2 : 1 <= 2) by lia.
  assert (H3 : 2 <= 8) by lia.
  assert (H4 : 0 < resolved_output_channels ([64; 64] ++ [1]) (-1))
    by reflexivity.
  assert (H5 : 2 <= 2) by lia.
  split; [tauto|].
  exact (proj2 (proj2 (lone_group_has_no_post_conv_nor_skip
           [64; 64] 1 8 1 2 2 1 (-1) (mkTensor [64; 64; 8] 0) []
           H1 H0 H2 H3 H4 H5))).
Defined.

Lemma same_padding_rcan rank nc r rs s blocks groups k :
  Forall same_padding (rcan_layers rank nc r rs s blocks groups k).
Proof.
  assert (Hrcab : Forall same_padding (rcab_layers rank nc r rs)).
  { unfold rcab_layers, attention_layers.
    destruct (Qeq_bool rs 1); repeat constructor. }
  assert (Hstack : Forall same_padding (stack_layers rank nc r rs blocks)).
  { unfold stack_layers. apply Forall_concat, Forall_replicate, Hrcab. }
  unfold rcan_layers, groups_layers.
  repeat (apply Forall_app; split); try (repeat constructor).
  destruct (groups =? 1); [done|].
  apply Forall_concat, Forall_replicate, Forall_app.
  split; [done|repeat constructor].
Qed.

(** C2. For an input shape [S ++ [c]] of spatial rank 2 or 3 with
    positive sizes, a channel reduction between 1 and [num_channels], and
    a non-zero [num_output_channels] argument [k], [build_rcan] returns a
    model whose input has the given shape and whose output has shape
    [S ++ [K]], the spatial sizes unchanged, where [K] is [k] when [k] is
    positive and the channel count [c] of the input (the last item of
    [input_shape]) when [k] is negative; every convolution of the model
    pads with [same]. *)
Theorem build_rcan_output_shape sp cin nc blocks groups r rs k :
  (2 <= length sp <= 3)%nat ->
  Forall (fun d => 1 <= d) (sp ++ [cin]) ->
  1 <= r -> r <= nc -> k <> 0 ->
  exists m,
    build_rcan (sp ++ [cin]) nc blocks groups r rs k = Ok m
    /\ shape (inputs m) = sp ++ [cin]
    /\ shape (outputs m) = sp ++ [if k <? 0 then cin else k]
    /\ (k < 0 -> last_item (sp ++ [cin]) = Ok cin)
    /\ Forall same_padding (layers_of (layers m)).
Proof.
  intros Hn Hpos Hr Hc Hk.
  assert (HK : resolved_output_channels (sp ++ [cin]) k
               = if k <? 0 then cin else k).
  { unfold resolved_output_channels. by rewrite last_snoc. }
  assert (Hcin : 1 <= cin).
  { apply Forall_app in Hpos as [_ H]. by inversion H. }
  assert (HK' : 0 < resolved_output_channels (sp ++ [cin]) k).
  { rewrite HK. destruct (k <? 0) eqn:E; lia. }
  destruct (build_rcan_ok sp cin nc blocks groups r rs k Hn Hr Hc HK')
    as (m & E & Hi & Ho & Hl).
  exists m. rewrite <- HK. repeat split; auto.
  - intros _. unfold last_item. by rewrite last_snoc.
  - rewrite Hl. apply same_padding_rcan.
Qed.

Lemma build_rcan_output_shape_witness :
  ((2 <= length [16; 256; 256] <= 3)%nat
   /\ Forall (fun d => 1 <= d) ([16; 256; 256] ++ [1])
   /\ 1 <= 8 /\ 8 <= 32 /\ 3 <> 0)
  /\ exists m,
    build_rcan ([16; 256; 256] ++ [1]) 32 3 5 8 1 3 = Ok m
    /\ shape (inputs m) = [16; 256; 256] ++ [1]
    /\ shape (outputs m) = [16; 256; 256] ++ [if 3 <? 0 then 1 else 3]
    /\ (3 < 0 -> last_item ([16; 256; 256] ++ [1]) = Ok 1)
    /\ Forall same_padding (layers_of (layers m)).
Proof.
  assert (H1 : (2 <= length [16; 256; 256] <= 3)%nat) by (simpl; lia).
  assert (H2 : Forall (fun d => 1 <= d) ([16; 256; 256] ++ [1])).
  { repeat constructor; lia. }
  assert (H3 : 1 <= 8) by lia.
  assert (H4 : 8 <= 32) by lia.
  assert (H5 : 3 <> 0) by lia.
  split; [tauto|].
  exact (build_rcan_output_shape [16; 256; 256] 1 32 3 5 8 1 3
           H1 H2 H3 H4 H5).
Defined.

End Assembler.

(* ===================================================================== *)
(** ** Unsupported ranks and the attention bottleneck *)
(* ===================================================================== *)

Section Dispatch.

Lemma conv_layer_not_unsupported cls f k pad act x g m :
  conv_layer cls f k pad act x g <> Raise (NotImplementedError m).
Proof. unfold conv_layer. by destruct (f <=? 0). Qed.

Lemma conv_unsupported_iff x f k pad act g :
  (exists m, _conv x f k pad act g = Raise (NotImplementedError m))
  <-> ~ (1 <= _get_spatial_ndim x <= 3).
Proof.
  unfold _conv. set (n := _get_spatial_ndim x). unfold bindB.
  destruct (n =? 1) eqn:E1; [|destruct (n =? 2) eqn:E2;
    [|destruct (n =? 3) eqn:E3]]; simpl.
  1-3: split; [intros [m Hm]; by apply conv_layer_not_unsupported in Hm
              |lia].
  split; [lia|]. intros _. by eexists.
Qed.

Lemma conv_unsupported x f k pad act g :
  ~ (1 <= _get_spatial_ndim x <= 3) ->
  _conv x f k pad act g
  = Raise (NotImplementedError
             (ConvolutionNotSupported (_get_spatial_ndim x))).
Proof.
  intros Hn. unfold _conv. set (n := _get_spatial_ndim x) in *.
  unfold bindB.
  destruct (n =? 1) eqn:E1; [lia|]. destruct (n =? 2) eqn:E2; [lia|].
  destruct (n =? 3) eqn:E3; [lia|]. reflexivity.
Qed.

Lemma pooling_unsupported_iff x g :
  (exists m, _global_average_pooling x g = Raise (NotImplementedError m))
  <-> ~ (2 <= _get_spatial_ndim x <= 3).
Proof.
  unfold _global_average_pooling. set (n := _get_spatial_ndim x).
  destruct (n =? 2) eqn:E2; [|destruct (n =? 3) eqn:E3].
  1-2: split; [by intros [m Hm]|lia].
  split; [lia|]. intros _. by eexists.
Qed.

Lemma pooling_unsupported x g :
  ~ (2 <= _get_spatial_ndim x <= 3) ->
  _global_average_pooling x g
  = Raise (NotImplementedError
             (GlobalAveragePoolingNotSupported (_get_spatial_ndim x))).
Proof.
  intros Hn. unfold _global_average_pooling.
  set (n := _get_spatial_ndim x) in *.
  destruct (n =? 2) eqn:E2; [lia|]. by destruct (n =? 3) eqn:E3; [lia|].
Qed.

Lemma attention_unsupported x r g :
  ~ (2 <= _get_spatial_ndim x <= 3) ->
  _channel_attention_block x r g
  = Raise (NotImplementedError
             (GlobalAveragePoolingNotSupported (_get_spatial_ndim x))).
Proof.
  intros Hn. unfold _channel_attention_block.
  apply bind_raises. by apply pooling_unsupported.
Qed.

(** On an input with one spatial axis the stem convolution is built and
    the first channel attention block fails. *)
Lemma build_rcan_one_spatial_axis d cin nc blocks groups r rs k :
  0 < nc -> 1 <= blocks -> 1 <= groups ->
  build_rcan [d; cin] nc blocks groups r rs k
  = Raise (NotImplementedError (GlobalAveragePoolingNotSupported 1)).
Proof.
  intros Hnc Hb Hg.
  assert (Hx : forall (x : Tensor) g, has_shape [d] nc x ->
    _residual_channel_attention_blocks x blocks r rs g
    = Raise (NotImplementedError (GlobalAveragePoolingNotSupported 1))).
  { intros x g Hs. unfold _residual_channel_attention_blocks.
    rewrite (num_channels_snoc _ _ _ Hs).
    destruct (Z.to_nat blocks) as [|n] eqn:E; [lia|]. simpl.
    apply bind_raises. unfold rcab.
    eapply bind_then_raises;
      [eapply emits_conv; [exact Hs|simpl; lia|lia]|].
    intros x1 g1 H1.
    eapply bind_then_raises;
      [eapply emits_conv; [exact H1|simpl; lia|lia]|].
    intros x2 g2 H2. apply bind_raises.
    rewrite attention_unsupported;
      rewrite (spatial_ndim_snoc _ _ _ H2); [done|simpl; lia]. }
  assert (Hrun : forall g, build_rcan_graph [d; cin] nc blocks groups r rs k g
    = Raise (NotImplementedError (GlobalAveragePoolingNotSupported 1))).
  { intros g. unfold build_rcan_graph.
    eapply bind_then_raises.
    { instantiate (1 := []). instantiate (1 := fun _ => True).
      destruct (k <? 0); by apply emits_ret. }
    intros k' g0 _.
    eapply bind_then_raises; [apply emits_call|]. intros i g1 Hi.
    eapply bind_then_raises; [apply emits_call|]. intros x1 g2 H1.
    rewrite Hi in H1.
    eapply bind_then_raises;
      [eapply (emits_conv x1 [d] cin); [exact H1|simpl; lia|lia]|].
    intros x2 g3 H2. apply bind_raises. unfold residual_groups.
    destruct (Z.to_nat groups) as [|n] eqn:E; [lia|]. simpl.
    apply bind_raises. unfold residual_group_body.
    apply bind_raises. by apply Hx. }
  unfold build_rcan. by rewrite Hrun.
Qed.

(** On an input whose spatial rank is not 1, 2 or 3 the stem convolution
    fails. *)
Lemma build_rcan_unsupported_rank input_shape nc blocks groups r rs k :
  let n := Z.of_nat (length input_shape) - 1 in
  ~ (1 <= n <= 3) -> 0 <= k ->
  build_rcan input_shape nc blocks groups r rs k
  = Raise (NotImplementedError (ConvolutionNotSupported n)).
Proof.
  intros n Hn Hk. unfold build_rcan, build_rcan_graph.
  destruct (k <? 0) eqn:E; [lia|].
  unfold bindB at 1. unfold retB at 1.
  unfold bindB at 1. unfold Input, call at 1.
  unfold bindB at 1. unfold pointwise_layer, call at 1. simpl shape.
  rewrite bind_raises with
    (e := NotImplementedError (ConvolutionNotSupported n)); [done|].
  rewrite conv_unsupported; unfold _get_spatial_ndim, ndim; simpl shape.
  - do 3 f_equal. lia.
  - lia.
Qed.

(** C4. The convolution dispatch raises the unsupported-rank error
    exactly when the spatial rank of its input is not 1, 2 or 3; global
    average pooling, and with it the channel attention block, raises it
    exactly when the spatial rank is not 2 or 3.  A tensor with one
    spatial axis is thus accepted by the convolution and refused by the
    pooling (for a tensor of positive sizes, a positive number of filters
    and a positive kernel size).  The error is the result of the graph
    construction itself: on an input shape of positive sizes,
    [build_rcan] returns the error of the pooling when there is one
    spatial axis, and the error of the stem convolution when the spatial
    rank is outside 1..3. *)
Theorem unsupported_rank_errors (x : Tensor) f k pad act r (g : Graph) :
  let n := _get_spatial_ndim x in
  ((exists m, _conv x f k pad act g = Raise (NotImplementedError m))
   <-> ~ (1 <= n <= 3))
  /\ (~ (1 <= n <= 3) ->
      _conv x f k pad act g
      = Raise (NotImplementedError (ConvolutionNotSupported n)))
  /\ ((exists m,
         _global_average_pooling x g = Raise (NotImplementedError m))
      <-> ~ (2 <= n <= 3))
  /\ (~ (2 <= n <= 3) ->
      _global_average_pooling x g
      = Raise (NotImplementedError (GlobalAveragePoolingNotSupported n))
      /\ _channel_attention_block x r g
         = Raise (NotImplementedError (GlobalAveragePoolingNotSupported n)))
  /\ (n = 1 -> Forall (fun d => 0 < d) (shape x) -> 0 < f -> 0 < k ->
      (exists y g', _conv x f k same act g = Ok (y, g'))
      /\ _global_average_pooling x g
         = Raise (NotImplementedError (GlobalAveragePoolingNotSupported 1)))
  /\ (forall d cin nc blocks groups rs ko,
        0 < d -> 0 < cin ->
        0 < nc -> 1 <= blocks -> 1 <= groups ->
        build_rcan [d; cin] nc blocks groups r rs ko
        = Raise (NotImplementedError (GlobalAveragePoolingNotSupported 1)))
  /\ (forall input_shape nc blocks groups rs ko,
        Forall (fun d => 0 < d) input_shape ->
        ~ (1 <= Z.of_nat (length input_shape) - 1 <= 3) -> 0 <= ko ->
        build_rcan input_shape nc blocks groups r rs ko
        = Raise (NotImplementedError
                   (ConvolutionNotSupported
                      (Z.of_nat (length input_shape) - 1)))).
Proof.
  intros n. subst n.
  split; [apply conv_unsupported_iff|].
  split; [apply conv_unsupported|].
  split; [apply pooling_unsupported_iff|].
  split.
  { intros Hn. split;
      [by apply pooling_unsupported|by apply attention_unsupported]. }
  split.
  { intros Hn _ Hf _. split.
    - destruct (removelast (shape x)) as [|d sp] eqn:Esp.
      + exfalso. unfold _get_spatial_ndim, ndim in Hn.
        destruct (shape x) as [|a [|b l]]; simpl in *; try lia; done.
      + assert (Hs : has_shape (removelast (shape x))
                       (default 0 (last (shape x))) x).
        { unfold has_shape. destruct (shape x) as [|a l] using rev_ind;
            [done|]. by rewrite removelast_last, last_snoc. }
        pose proof (spatial_ndim_snoc _ _ _ Hs) as Hl.
        destruct (emits_conv x _ _ f k act g Hs ltac:(lia) Hf)
          as (y & nodes & Hy & _). eauto.
    - rewrite pooling_unsupported; [by rewrite Hn|lia]. }
  split.
  { intros. by apply build_rcan_one_spatial_axis. }
  intros. by apply build_rcan_unsupported_rank.
Qed.

Lemma unsupported_rank_errors_witness :
  (_get_spatial_ndim (mkTensor [64; 8] 0) = 1
   /\ Forall (fun d => 0 < d) (shape (mkTensor [64; 8] 0))
   /\ 0 < 8 /\ 0 < 3)
  /\ (exists y g', _conv (mkTensor [64; 8] 0) 8 3 same linear [] = Ok (y, g'))
  /\ _global_average_pooling (mkTensor [64; 8] 0) []
     = Raise (NotImplementedError (GlobalAveragePoolingNotSupported 1)).
Proof.
  assert (H1 : _get_spatial_ndim (mkTensor [64; 8] 0) = 1) by reflexivity.
  assert (H0 : Forall (fun d => 0 < d) (shape (mkTensor [64; 8] 0))).
  { simpl. repeat constructor; lia. }
  assert (H2 : 0 < 8) by lia.
  assert (H3 : 0 < 3) by lia.
  split; [tauto|].
  exact (proj1 (proj2 (proj2 (proj2 (proj2
           (unsupported_rank_errors
              (mkTensor [64; 8] 0) 8 3 same linear 2 [])))))
           H1 H0 H2 H3).
Defined.

(** C5 as stated does not hold: with 4 channels and a reduction of 8 the
    block asks for a bottleneck of 0 channels, and is not built. *)
Lemma bottleneck_can_be_empty :
  bottleneck_channels (mkTensor [64; 64; 4] 0) 8 = Ok 0
  /\ _channel_attention_block (mkTensor [64; 64; 4] 0) 8 []
     = Raise (ValueError (LibraryMessage "Conv: filters"))
  /\ ~ bottleneck_never_empty.
Proof.
  split; [reflexivity|]. split; [reflexivity|].
  intros H.
  destruct (H (mkTensor [64; 64; 4] 0) [64; 64] 4 8) as (b & Hb & Hle);
    [reflexivity|lia|lia|].
  vm_compute in Hb. injection Hb as <-. lia.
Qed.

(** C5, amended.  The channel attention block asks for
    [num_channels // reduction] filters in its first convolution and has
    no guard of its own: for a reduction of at least 1 this number is at
    least 1 exactly when the reduction does not exceed the channel count.
    In that case the block is built with that bottleneck, on a tensor of
    spatial rank 2 or 3 with positive sizes; otherwise the block is not
    built, the convolution layer refusing the request. *)
Theorem bottleneck_is_floor_quotient x sp c r (g : Graph) :
  has_shape sp c x -> Forall (fun d => 0 < d) (sp ++ [c]) ->
  (2 <= length sp <= 3)%nat -> 1 <= r ->
  bottleneck_channels x r = Ok (c / r)
  /\ (1 <= c / r <-> r <= c)
  /\ (r <= c ->
      emits (_channel_attention_block x r) g (has_shape sp c)
        [ GlobalAveragePooling (pool_class (length sp));
          Reshape (replicate (length sp) 1 ++ [c]);
          Conv (conv_class (length sp)) (c / r) 1 same relu;
          Conv (conv_class (length sp)) c 1 same sigmoid;
          Multiply ])
  /\ (c < r ->
      _channel_attention_block x r g
      = Raise (ValueError (LibraryMessage "Conv: filters"))).
Proof.
  intros Hx _ Hn Hr.
  assert (Hb : bottleneck_channels x r = Ok (c / r)).
  { unfold bottleneck_channels, floordiv.
    rewrite (num_channels_snoc _ _ _ Hx).
    destruct (r =? 0) eqn:E; [lia|done]. }
  assert (Hq : 1 <= c / r <-> r <= c).
  { split; intros H.
    - destruct (Z.lt_ge_cases c r) as [Hlt|]; [|lia].
      assert (c / r < 1) by (apply Z.div_lt_upper_bound; lia). lia.
    - assert (0 < c / r) by (apply Z.div_str_pos; lia). lia. }
  split; [done|]. split; [done|]. split.
  { intros Hc. by apply emits_attention. }
  intros Hc. unfold _channel_attention_block.
  rewrite (num_channels_snoc _ _ _ Hx), (spatial_ndim_snoc _ _ _ Hx).
  rewrite Nat2Z.id.
  eapply bind_then_raises; [by apply emits_pooling|]. intros y1 g1 H1.
  eapply bind_then_raises; [by apply emits_reshape|]. intros y2 g2 H2.
  eapply bind_then_raises; [by apply emits_lift|]. intros b g3 ->.
  apply bind_raises. unfold _conv.
  rewrite (spatial_ndim_snoc _ _ _ H2), length_replicate.
  assert (Hle : c / r <= 0) by lia.
  unfold bindB, conv_layer.
  destruct (length sp) as [|[|[|[|n]]]]; try lia; simpl;
    destruct (c / r <=? 0) eqn:E; try lia; reflexivity.
Qed.

Lemma bottleneck_is_floor_quotient_witness :
  (has_shape [64; 64] 32 (mkTensor [64; 64; 32] 0)
   /\ Forall (fun d => 0 < d) ([64; 64] ++ [32])
   /\ (2 <= length [64; 64] <= 3)%nat /\ 1 <= 8)
  /\ bottleneck_channels (mkTensor [64; 64; 32] 0) 8 = Ok (32 / 8).
Proof.
  assert (H1 : has_shape [64; 64] 32 (mkTensor [64; 64; 32] 0))
    by reflexivity.
  assert (H0 : Forall (fun d => 0 < d) ([64; 64] ++ [32])).
  { repeat constructor; lia. }
  assert (H2 : (2 <= length [64; 64] <= 3)%nat) by (simpl; lia).
  assert (H3 : 1 <= 8) by lia.
  split; [tauto|].
  exact (proj1 (bottleneck_is_floor_quotient
                  (mkTensor [64; 64; 32] 0) [64; 64] 32 8 [] H1 H0 H2 H3)).
Defined.

End Dispatch.

(* ===================================================================== *)
(** ** The normalisation layers *)
(* ===================================================================== *)

Section NormalisationLayers.

(** C7 as stated does not hold on binary32 numbers: the round trip of the
    number nearest to 0.1 returns its predecessor. *)
Lemma round_trip_not_exact_in_float32 :
  destandardise_call (standardise_call [tenth])
  = [S754_finite false 13421772 (-27)]
  /\ ~ float32_round_trip_exact.
Proof.
  split; [reflexivity|]. intros H. specialize (H [tenth]).
  vm_compute in H. discriminate H.
Qed.

Lemma round_trip_one (v : Q) :
  (f_add (f_mul f_half (f_add (f_mul f_two v) f_minus_one)) f_half == v)%Q.
Proof. simpl. ring. Qed.

(** C7, amended.  In exact arithmetic the inverse normalisation undoes
    the forward one on every tensor, element by element: the two layers
    are the affine maps [2x - 1] and [x/2 + 1/2], inverse to one another,
    and neither layer has a parameter or a state.  In the binary32
    arithmetic of the tensors the equality holds where no rounding
    occurs, as at every multiple of 1/256 from 0 to 1. *)
Theorem normalisation_round_trip (x : list Q) :
  Forall2 Qeq (destandardise_call (standardise_call x)) x
  /\ get_config = []
  /\ forallb
       (fun k =>
          bool_decide
            (destandardise_call (standardise_call [of_256th k])
             = [of_256th k]))
       (seqZ 0 257) = true.
Proof.
  split; [|split; [reflexivity|vm_compute; reflexivity]].
  induction x as [|v x IH]; [constructor|].
  constructor; [apply round_trip_one|exact IH].
Qed.

End NormalisationLayers.

(* ===================================================================== *)
(** ** Data verification *)
(* ===================================================================== *)

Section Verification.
Variable fs : FileSystem.

Lemma bind_ok {A B} (e : result A) (k : A -> result B) b :
  Py.bind e k = Ok b -> exists a, e = Ok a /\ k a = Ok b.
Proof. destruct e as [a|err]; simpl; [eauto|discriminate]. Qed.

Lemma bind_raise {A B} (e : result A) (k : A -> result B) :
  raises e -> raises (Py.bind e k).
Proof. by destruct e. Qed.

Lemma not_raises_ok {A} (r : result A) : ~ raises r -> exists a, r = Ok a.
Proof. destruct r; simpl; [eauto|tauto]. Qed.

Lemma as_path_ok v p : as_path v = Ok p -> v = JStr p.
Proof. destruct v; simpl; congruence. Qed.

Lemma imread_ok p s : imread fs p = Ok s <-> image_shape fs p = Some s.
Proof.
  unfold imread. destruct (image_shape fs p); split; congruence.
Qed.

Lemma read_shapes_pair_ok p rest s shapes :
  pair_ok fs p s -> read_shapes fs rest = Ok shapes ->
  read_shapes fs (p :: rest) = Ok (s :: shapes).
Proof.
  intros (rp & gp & Hr & Hg & Hrs & Hgs) Hrest. simpl.
  rewrite Hr, Hg. simpl. unfold imread. rewrite Hrs, Hgs. simpl.
  rewrite bool_decide_eq_true_2 by done. by rewrite Hrest.
Qed.

Lemma read_shapes_cons_inv p rest shapes :
  read_shapes fs (p :: rest) = Ok shapes ->
  exists s shapes',
    shapes = s :: shapes' /\ pair_ok fs p s
    /\ read_shapes fs rest = Ok shapes'.
Proof.
  simpl. intros H.
  apply bind_ok in H as (raw_file & Hr & H).
  apply bind_ok in H as (gt_file & Hg & H).
  apply bind_ok in H as (rp & Hrp & H). apply as_path_ok in Hrp as ->.
  apply bind_ok in H as (raw & Hraw & H).
  apply bind_ok in H as (gp & Hgp & H). apply as_path_ok in Hgp as ->.
  apply bind_ok in H as (gt & Hgt & H).
  destruct (bool_decide (raw = gt)) eqn:E; [|discriminate].
  apply bool_decide_eq_true in E as <-.
  apply bind_ok in H as (shapes' & Hrest & H). injection H as <-.
  exists raw, shapes'. split; [done|]. split; [|done].
  exists rp, gp. unfold pair_shapes. by rewrite <- !imread_ok.
Qed.

(** Reading succeeds exactly on lists of well-formed pairs. *)
Lemma read_shapes_ok l shapes :
  read_shapes fs l = Ok shapes <-> Forall2 (pair_ok fs) l shapes.
Proof.
  revert shapes. induction l as [|p l IH]; intros shapes.
  - simpl. split.
    + intros H. injection H as <-. constructor.
    + intros H. by inversion H.
  - split.
    + intros H. apply read_shapes_cons_inv in H as (s & sh & -> & Hp & Hl).
      constructor; [done|]. by apply IH.
    + intros H. inversion H as [|? s ? sh Hp Hl]; subst.
      apply read_shapes_pair_ok; [done|]. by apply IH.
Qed.

Lemma pair_shapes_functional p rp rs gp gs rp' rs' gp' gs' :
  pair_shapes fs p rp rs gp gs -> pair_shapes fs p rp' rs' gp' gs' ->
  rs = rs' /\ gs = gs'.
Proof.
  intros (H1 & H2 & H3 & H4) (H1' & H2' & H3' & H4').
  rewrite H1 in H1'. rewrite H2 in H2'.
  injection H1' as <-. injection H2' as <-.
  rewrite H3 in H3'. rewrite H4 in H4'. split; congruence.
Qed.

(** A pair whose two images differ in shape makes the verification
    fail, wherever the pair stands in the list. *)
Lemma read_shapes_mismatch l p rp rs gp gs :
  p ∈ l -> pair_shapes fs p rp rs gp gs -> rs <> gs ->
  raises (read_shapes fs l).
Proof.
  intros Hin Hp Hne.
  destruct (read_shapes fs l) as [shapes|e] eqn:E; [|done].
  apply read_shapes_ok in E.
  apply list_elem_of_lookup in Hin as [i Hi].
  destruct (Forall2_lookup_l _ _ _ _ _ E Hi) as (s & _ & rp' & gp' & Hs).
  destruct (pair_shapes_functional _ _ _ _ _ _ _ _ _ Hp Hs). congruence.
Qed.

(** The error names the first offending pair and the two shapes. *)
Lemma read_shapes_first_mismatch good shapes p rest rp rs gp gs :
  Forall2 (pair_ok fs) good shapes ->
  pair_shapes fs p rp rs gp gs -> rs <> gs ->
  read_shapes fs (good ++ p :: rest)
  = Raise (ValueError (RawAndGtMustBeSameSize rp rs gp gs)).
Proof.
  intros Hgood (Hr & Hg & Hrs & Hgs) Hne.
  induction Hgood as [|q s good shapes Hq _ IH].
  - simpl. rewrite Hr, Hg. simpl. unfold imread. rewrite Hrs, Hgs. simpl.
    by rewrite bool_decide_eq_false_2.
  - destruct Hq as (rq & gq & Hq1 & Hq2 & Hq3 & Hq4).
    change ((q :: good) ++ p :: rest) with (q :: (good ++ p :: rest)).
    simpl. rewrite Hq1, Hq2. simpl. unfold imread. rewrite Hq3, Hq4. simpl.
    rewrite bool_decide_eq_true_2 by done. by rewrite IH.
Qed.

Lemma check_ndim_ok ns :
  check_ndim ns = Ok tt -> forall a b, a ∈ ns -> b ∈ ns -> a = b.
Proof.
  unfold check_ndim.
  destruct ns as [|n0 ns]; [by intros _ a b Ha; inversion Ha|].
  destruct (forallb (Nat.eqb n0) (n0 :: ns)) eqn:E; [|discriminate].
  intros _ a b Ha Hb.
  rewrite forallb_forall in E.
  apply list_elem_of_In in Ha, Hb.
  apply E, Nat.eqb_eq in Ha. apply E, Nat.eqb_eq in Hb. congruence.
Qed.

Lemma check_ndim_differ ns a b :
  a ∈ ns -> b ∈ ns -> a <> b ->
  check_ndim ns = Raise (ValueError AllImagesSameNumberOfDimensions).
Proof.
  intros Ha Hb Hne. unfold check_ndim.
  destruct ns as [|n0 ns]; [by inversion Ha|].
  destruct (forallb (Nat.eqb n0) (n0 :: ns)) eqn:E; [|done].
  exfalso. apply Hne.
  apply (check_ndim_ok (n0 :: ns)); [|done|done].
  unfold check_ndim. by rewrite E.
Qed.

Lemma np_minimum_same_length a b :
  length a = length b -> np_minimum a b = Ok (zip_with Z.min a b).
Proof. intros H. unfold np_minimum. by rewrite H, Nat.eqb_refl. Qed.

Lemma fold_minimum_same_length n acc shapes :
  length acc = n -> Forall (fun s => length s = n) shapes ->
  fold_minimum acc shapes = Ok (elementwise_min acc shapes)
  /\ length (elementwise_min acc shapes) = n.
Proof.
  intros Hacc Hall. revert acc Hacc.
  induction Hall as [|s shapes Hs _ IH]; intros acc Hacc; [done|].
  simpl. rewrite np_minimum_same_length by congruence. simpl.
  apply IH. rewrite length_zip_with. lia.
Qed.

(** Every entry of the fold is the least entry of its axis. *)
Lemma elementwise_min_axis base shapes i v :
  elementwise_min base shapes !! i = Some v ->
  (exists b, base !! i = Some b /\ v <= b)
  /\ (forall sh, sh ∈ shapes -> exists y, sh !! i = Some y /\ v <= y)
  /\ (base !! i = Some v \/ exists sh, sh ∈ shapes /\ sh !! i = Some v).
Proof.
  revert base. induction shapes as [|s shapes IH]; intros base H.
  - simpl in H. split; [exists v; split; [done|lia]|].
    split; [intros sh Hsh; by inversion Hsh|by left].
  - simpl in H. apply IH in H as ((m & Hm & Hle) & Hall & Hex).
    apply lookup_zip_with_Some in Hm as (x & y & -> & Hx & Hy).
    split; [exists x; split; [done|lia]|]. split.
    + intros sh Hsh. apply elem_of_cons in Hsh as [->|Hsh];
        [exists y; split; [done|lia]|by apply Hall].
    + destruct Hex as [Hb|(sh & Hsh & Hv)].
      * apply lookup_zip_with_Some in Hb as (x' & y' & Hv & Hx' & Hy').
        rewrite Hx in Hx'. rewrite Hy in Hy'.
        injection Hx' as <-. injection Hy' as <-.
        destruct (Z.min_spec x y) as [[_ E]|[_ E]]; rewrite E in Hv.
        -- left. by rewrite Hv.
        -- right. exists s. split; [left|by rewrite Hv].
      * right. exists sh. split; [by right|done].
Qed.

Lemma elementwise_min_head s shapes :
  elementwise_min s (s :: shapes) = elementwise_min s shapes.
Proof.
  unfold elementwise_min. simpl. f_equal.
  induction s as [|x s IH]; [done|]. simpl. by rewrite Z.min_id, IH.
Qed.

(** What a successful verification has established. *)
Lemma verify_pairs_ok l m :
  verify_pairs fs l = Ok m ->
  exists first rest,
    read_shapes fs l = Ok (first :: rest)
    /\ Forall (fun s => length s = length first) (first :: rest)
    /\ m = elementwise_min first rest
    /\ length m = length first.
Proof.
  unfold verify_pairs. intros H.
  apply bind_ok in H as (shapes & Hread & H).
  apply bind_ok in H as ([] & Hnd & H).
  destruct shapes as [|first rest]; [discriminate|].
  exists first, rest. split; [done|].
  assert (Hall : Forall (fun s => length s = length first) (first :: rest)).
  { apply Forall_forall. intros s Hs.
    apply (check_ndim_ok _ Hnd); [|left].
    by apply (list_elem_of_fmap_2 length). }
  split; [done|].
  destruct (fold_minimum_same_length (length first) first (first :: rest)
              eq_refl Hall) as [Hf Hlen].
  rewrite elementwise_min_head in Hf, Hlen.
  rewrite Hf in H. injection H as <-. split; [reflexivity|exact Hlen].
Qed.

End Verification.

(* ===================================================================== *)
(** ** The data loader *)
(* ===================================================================== *)

Section Loader.
Variable fs : FileSystem.

Lemma path_le_total : Total path_le.
Proof. intros a b. apply String.leb_total. Qed.


Lemma sorted_Permutation l : sorted l ≡ₚ l.
Proof. apply merge_sort_Permutation. Qed.

Lemma sorted_length l : length (sorted l) = length l.
Proof. by rewrite sorted_Permutation. Qed.

Lemma sorted_nil_inv l : sorted l = [] -> l = [].
Proof.
  intros H. apply length_zero_iff_nil.
  by rewrite <- sorted_length, H.
Qed.

(** The directory of a split, when it is given as two strings. *)
Lemma directory_pairs_given config data_type d raw_dir gt_dir :
  config !! dir_key data_type = Some d ->
  getitem d "raw" = Ok (JStr raw_dir) ->
  getitem d "gt" = Ok (JStr gt_dir) ->
  directory_pairs fs config data_type
  = let raw_files := sorted (glob_tif fs raw_dir) in
    let gt_files := sorted (glob_tif fs gt_dir) in
    if (length raw_files =? 0)%nat then
      Raise (RuntimeError (NoTiffFileFound raw_dir))
    else if negb (length raw_files =? length gt_files)%nat then
      Raise (RuntimeError (MustContainSameNumberOfTiff raw_dir gt_dir))
    else Ok (zip_with pair_of raw_files gt_files).
Proof.
  intros Hd Hr Hg. unfold directory_pairs, dir_key in *.
  rewrite Hd, Hr. simpl. by rewrite Hg.
Qed.

(** A split with a directory never comes back without pairs. *)
Lemma directory_pairs_nonempty config data_type l :
  is_Some (config !! dir_key data_type) ->
  directory_pairs fs config data_type = Ok l -> l <> [].
Proof.
  intros [d Hd]. unfold directory_pairs, dir_key in *. rewrite Hd.
  intros H.
  apply bind_ok in H as (raw & _ & H).
  apply bind_ok in H as (raw_dir & _ & H).
  apply bind_ok in H as (gt & _ & H).
  apply bind_ok in H as (gt_dir & _ & H).
  destruct (length (sorted (glob_tif fs raw_dir)) =? 0)%nat eqn:E0;
    [discriminate|].
  destruct (length (sorted (glob_tif fs raw_dir))
            =? length (sorted (glob_tif fs gt_dir)))%nat eqn:E1;
    [|discriminate].
  injection H as <-.
  apply Nat.eqb_neq in E0. apply Nat.eqb_eq in E1.
  intros Hnil. apply (f_equal length) in Hnil.
  rewrite length_zip_with in Hnil. simpl in Hnil. lia.
Qed.

Lemma load_of_resolved config data_type l :
  resolve_pairs fs config data_type = Ok (JArr l) ->
  load_data_paths fs config data_type
  = match l with
    | [] => Ok None
    | _ :: _ =>
        try! min_input_shape := verify_pairs fs l in
        Ok (Some (l, min_input_shape))
    end.
Proof.
  intros H. unfold load_data_paths. rewrite H. simpl. by destruct l.
Qed.

Lemma load_some_inv config data_type l m :
  load_data_paths fs config data_type = Ok (Some (l, m)) ->
  resolve_pairs fs config data_type = Ok (JArr l)
  /\ l <> [] /\ verify_pairs fs l = Ok m.
Proof.
  unfold load_data_paths. intros H.
  apply bind_ok in H as (v & Hv & H).
  destruct (negb (truthy v)) eqn:E; [discriminate|].
  destruct v as [| | | | |l'|]; try discriminate.
  apply bind_ok in H as (m' & Hm & H). injection H as <- <-.
  split; [done|]. split; [|done]. intros ->. discriminate E.
Qed.

(** C8 as stated does not hold: a validation directory without TIFF
    files makes the loader raise. *)
Lemma empty_directory_raises :
  yields_no_pairs example_fs empty_dir_config "validation"
  /\ load_data_paths example_fs empty_dir_config "validation"
     = Raise (RuntimeError (NoTiffFileFound "nowhere"))
  /\ ~ absent_source_gives_none.
Proof.
  assert (Hy : yields_no_pairs example_fs empty_dir_config "validation").
  { split; [by left|]. right.
    exists (dir_entry "nowhere" "nowhere"), "nowhere", "nowhere".
    repeat split; reflexivity. }
  assert (Hl : load_data_paths example_fs empty_dir_config "validation"
               = Raise (RuntimeError (NoTiffFileFound "nowhere")))
    by (vm_compute; reflexivity).
  split; [done|]. split; [done|].
  intros H. specialize (H _ _ _ Hy). rewrite Hl in H. discriminate H.
Qed.

(** C8, amended.  The loader returns [(None, None)] for a split that has
    no data directory and whose list of image pairs is missing or empty.
    A split that has a data directory never returns [(None, None)]: the
    loader returns its pairs or raises, and it raises [RuntimeError]
    when the raw directory holds no TIFF file. *)
Theorem absent_split_gives_none config data_type :
  (config !! dir_key data_type = None ->
   config !! pairs_key data_type = None
   \/ config !! pairs_key data_type = Some (JArr []) ->
   load_data_paths fs config data_type = Ok None)
  /\ (is_Some (config !! dir_key data_type) ->
      load_data_paths fs config data_type <> Ok None)
  /\ (forall d raw_dir gt_dir,
        config !! dir_key data_type = Some d ->
        getitem d "raw" = Ok (JStr raw_dir) ->
        getitem d "gt" = Ok (JStr gt_dir) ->
        glob_tif fs raw_dir = [] ->
        load_data_paths fs config data_type
        = Raise (RuntimeError (NoTiffFileFound raw_dir))).
Proof.
  split; [|split].
  - intros Hd Hp. unfold load_data_paths, resolve_pairs, directory_pairs.
    unfold dir_key, pairs_key in *. rewrite Hd. simpl.
    by destruct Hp as [-> | ->].
  - intros Hd H. unfold load_data_paths, resolve_pairs in H.
    apply bind_ok in H as (v & Hv & H).
    apply bind_ok in Hv as (from_dir & Hfrom & Hv).
    pose proof (directory_pairs_nonempty _ _ _ Hd Hfrom) as Hne.
    destruct from_dir as [|q from_dir]; [done|].
    destruct (default (JArr []) (config !! (data_type +:+ "_image_pairs")))
      as [| | | | |l|]; try discriminate.
    injection Hv as <-.
    destruct l; simpl in H;
      match type of H with
      | Py.bind ?e _ = _ => destruct e; discriminate
      end.
  - intros d raw_dir gt_dir Hd Hr Hg Hglob.
    unfold load_data_paths, resolve_pairs.
    rewrite (directory_pairs_given _ _ _ _ _ Hd Hr Hg), Hglob.
    reflexivity.
Qed.


End Loader.

Lemma absent_split_gives_none_witness :
  (example_config !! dir_key "validation" = None
   /\ (example_config !! pairs_key "validation" = None
       \/ example_config !! pairs_key "validation" = Some (JArr [])))
  /\ load_data_paths example_fs example_config "validation" = Ok None.
Proof.
  assert (H1 : example_config !! dir_key "validation" = None)
    by reflexivity.
  assert (H2 : example_config !! pairs_key "validation" = None
               \/ example_config !! pairs_key "validation"
                  = Some (JArr [])) by (left; reflexivity).
  split; [tauto|].
  exact (proj1 (absent_split_gives_none example_fs example_config "validation")
           H1 H2).
Defined.


(* ===================================================================== *)
(** ** Shape checks and the resolved input shape *)
(* ===================================================================== *)

Section Reconciliation.
Variable fs : FileSystem.

Lemma load_raises_of_verify config data_type l :
  resolve_pairs fs config data_type = Ok (JArr l) -> l <> [] ->
  raises (verify_pairs fs l) ->
  raises (load_data_paths fs config data_type).
Proof.
  intros Hres Hne Hv. rewrite (load_of_resolved _ _ _ _ Hres).
  destruct l; [done|]. by apply bind_raise.
Qed.

Lemma load_error_of_verify config data_type l e :
  resolve_pairs fs config data_type = Ok (JArr l) -> l <> [] ->
  verify_pairs fs l = Raise e ->
  load_data_paths fs config data_type = Raise e.
Proof.
  intros Hres Hne Hv. rewrite (load_of_resolved _ _ _ _ Hres).
  destruct l; [done|]. by rewrite Hv.
Qed.

Lemma prepare_raises_of_load cj config data_type :
  validated_config cj = Ok config ->
  data_type = "training" \/ data_type = "validation" ->
  raises (load_data_paths fs config data_type) ->
  raises (prepare fs cj).
Proof.
  intros Hc Hdt Hr. unfold prepare. rewrite Hc. simpl.
  destruct Hdt as [-> | ->].
  - by apply bind_raise.
  - destruct (load_data_paths fs config "training"); [|done].
    simpl. by apply bind_raise.
Qed.

(** C6. Let [l] be the image pairs of a split.  If the raw and the
    ground-truth image of some pair of [l] differ in shape, the loader
    raises; when all pairs before it are well formed, the error is the
    [ValueError] that carries the two paths and the two shapes.  If every
    pair is well formed and two pairs have images with different numbers
    of dimensions, the loader raises the [ValueError] on dimensions.
    Both checks look at every pair of the list and precede the fold of
    the minimum; an error of the loader is an error of the preparation,
    so the model is neither built nor fitted.  Two pairs whose raw images
    have different numbers of dimensions make the loader raise in every
    case. *)
Theorem shape_checks_cover_every_pair config data_type l :
  resolve_pairs fs config data_type = Ok (JArr l) ->
  (forall p rp rs gp gs,
     p ∈ l -> pair_shapes fs p rp rs gp gs -> rs <> gs ->
     raises (load_data_paths fs config data_type))
  /\ (forall good shapes p rest rp rs gp gs,
        l = good ++ p :: rest ->
        Forall2 (pair_ok fs) good shapes ->
        pair_shapes fs p rp rs gp gs -> rs <> gs ->
        load_data_paths fs config data_type
        = Raise (ValueError (RawAndGtMustBeSameSize rp rs gp gs)))
  /\ (forall shapes s1 s2,
        Forall2 (pair_ok fs) l shapes ->
        s1 ∈ shapes -> s2 ∈ shapes -> length s1 <> length s2 ->
        load_data_paths fs config data_type
        = Raise (ValueError AllImagesSameNumberOfDimensions))
  /\ (forall p1 rp1 s1 p2 rp2 s2,
        p1 ∈ l -> p2 ∈ l ->
        raw_shape fs p1 rp1 s1 -> raw_shape fs p2 rp2 s2 ->
        length s1 <> length s2 ->
        raises (load_data_paths fs config data_type))
  /\ (forall m,
        load_data_paths fs config data_type = Ok (Some (l, m)) ->
        exists shapes,
          Forall2 (pair_ok fs) l shapes
          /\ forall s1 s2, s1 ∈ shapes -> s2 ∈ shapes ->
               length s1 = length s2)
  /\ (forall cj,
        validated_config cj = Ok config ->
        data_type = "training" \/ data_type = "validation" ->
        raises (load_data_paths fs config data_type) ->
        raises (prepare fs cj)).
Proof.
  intros Hres.
  assert (Hdim : forall shapes s1 s2,
    Forall2 (pair_ok fs) l shapes ->
    s1 ∈ shapes -> s2 ∈ shapes -> length s1 <> length s2 ->
    load_data_paths fs config data_type
    = Raise (ValueError AllImagesSameNumberOfDimensions)).
  { intros shapes s1 s2 Hall H1 H2 Hne.
    apply (load_error_of_verify _ _ l); [done| |].
    { intros ->. inversion Hall; subst. inversion H1. }
    unfold verify_pairs. apply read_shapes_ok in Hall. rewrite Hall. simpl.
    rewrite (check_ndim_differ _ (length s1) (length s2)); [done| | |done];
      by apply (list_elem_of_fmap_2 length). }
  split; [|split; [|split; [exact Hdim|split; [|split]]]].
  - intros p rp rs gp gs Hin Hp Hne.
    apply (load_raises_of_verify _ _ l); [done|by intros ->; inversion Hin|].
    unfold verify_pairs. apply bind_raise.
    by apply (read_shapes_mismatch fs l p rp rs gp gs).
  - intros good shapes p rest rp rs gp gs -> Hgood Hp Hne.
    apply (load_error_of_verify _ _ (good ++ p :: rest));
      [done|by destruct good|].
    unfold verify_pairs.
    by rewrite (read_shapes_first_mismatch fs good shapes p rest
                  rp rs gp gs).
  - intros p1 rp1 s1 p2 rp2 s2 Hin1 Hin2 [Hr1 Hs1] [Hr2 Hs2] Hne.
    destruct (read_shapes fs l) as [shapes|e] eqn:E.
    + apply read_shapes_ok in E.
      assert (Hfind : forall p rp s, p ∈ l ->
        getitem p "raw" = Ok (JStr rp) -> image_shape fs rp = Some s ->
        s ∈ shapes).
      { intros p rp s Hin Hr Hs.
        apply list_elem_of_lookup in Hin as [i Hi].
        destruct (Forall2_lookup_l _ _ _ _ _ E Hi)
          as (t & Ht & rp' & gp' & Hr' & _ & Hs' & _).
        rewrite Hr in Hr'. injection Hr' as <-.
        rewrite Hs in Hs'. injection Hs' as <-.
        by apply list_elem_of_lookup_2 in Ht. }
      rewrite (Hdim shapes s1 s2); [done|done| | |done]; eauto.
    + apply (load_raises_of_verify _ _ l);
        [done|by intros ->; inversion Hin1|].
      unfold verify_pairs. by rewrite E.
  - intros m Hload. apply load_some_inv in Hload as (_ & _ & Hv).
    apply verify_pairs_ok in Hv as (first & rest & Hread & Hall & _).
    exists (first :: rest). split; [by apply read_shapes_ok|].
    intros s1 s2 H1 H2. rewrite Forall_forall in Hall.
    rewrite (Hall s1 H1), (Hall s2 H2). done.
  - intros cj. apply prepare_raises_of_load.
Qed.

Lemma zip_min_assoc (a b c : list Z) :
  zip_with Z.min (zip_with Z.min a b) c
  = zip_with Z.min a (zip_with Z.min b c).
Proof.
  revert b c. induction a as [|x a IH]; intros [|y b] [|z c]; simpl;
    try done. by rewrite Z.min_assoc, IH.
Qed.

Lemma zip_min_fold a b rest :
  zip_with Z.min a (elementwise_min b rest)
  = elementwise_min (zip_with Z.min a b) rest.
Proof.
  revert b. induction rest as [|s rest IH]; intros b; [done|].
  unfold elementwise_min in *. simpl. by rewrite IH, zip_min_assoc.
Qed.

Lemma elementwise_min_app base l1 l2 :
  elementwise_min (elementwise_min base l1) l2
  = elementwise_min base (l1 ++ l2).
Proof. unfold elementwise_min. by rewrite foldl_app. Qed.

Lemma as_int_list_length l base :
  as_int_list l = Ok base -> length base = length l.
Proof.
  revert base. induction l as [|v l IH]; intros base H; simpl in H.
  - by injection H as <-.
  - apply bind_ok in H as (z & _ & H). apply bind_ok in H as (zs & Hzs & H).
    injection H as <-. simpl. by rewrite (IH zs).
Qed.

Lemma first_ndim_read l m first rest :
  read_shapes fs l = Ok (first :: rest) ->
  first_ndim fs (Some (l, m)) = Ok (length first)
  /\ present (Some (l, m)) = true.
Proof.
  intros H. apply read_shapes_ok in H.
  inversion H as [|p ? l' ? (rp & gp & Hr & Hg & Hrs & Hgs) _]; subst.
  simpl. rewrite Hr. simpl. unfold imread. by rewrite Hrs.
Qed.

(** What a successful load of a split has established. *)
Lemma load_ok_shapes config data_type data :
  load_data_paths fs config data_type = Ok data ->
  match data with
  | None => present data = false
  | Some (l, m) =>
      exists first rest,
        read_shapes fs l = Ok (first :: rest)
        /\ Forall (fun s => length s = length first) (first :: rest)
        /\ m = elementwise_min first rest
        /\ length m = length first
  end.
Proof.
  intros H. destruct data as [[l m]|]; [|done].
  apply load_some_inv in H as (_ & _ & Hv). by apply verify_pairs_ok.
Qed.

(** C3. When the two splits load and the reconciliation succeeds, the
    resolved input shape is, axis by axis, the minimum of the base shape
    (the configured [input_shape], or (16, 256, 256) for images with
    three dimensions and (256, 256) otherwise) and of the shapes of all
    training images and, when there is a validation split, of all
    validation images: every entry is attained by one of these shapes
    and exceeds none of them.  The base shape has the dimension of the
    images whenever it is configured or the images have two or three
    dimensions.  Shapes (10,100,100), (8,120,90), (12,100,100) give
    (8,100,90). *)
Theorem resolved_input_shape_is_elementwise_min config tr val s :
  load_data_paths fs config "training" = Ok tr ->
  load_data_paths fs config "validation" = Ok val ->
  reconcile_input_shape fs config tr val = Ok s ->
  (exists tr_pairs tr_min tr_shapes val_shapes base ndim,
     tr = Some (tr_pairs, tr_min)
     /\ Forall2 (pair_ok fs) tr_pairs tr_shapes /\ tr_shapes <> []
     /\ match val with
        | Some (val_pairs, _) =>
            Forall2 (pair_ok fs) val_pairs val_shapes /\ val_shapes <> []
        | None => val_shapes = []
        end
     /\ Forall (fun sh => length sh = ndim) (tr_shapes ++ val_shapes)
     /\ match config !! "input_shape" with
        | Some v =>
            exists l, v = JArr l /\ as_int_list l = Ok base
                      /\ length base = ndim
        | None =>
            base = default_input_shape ndim
            /\ (ndim = 2%nat \/ ndim = 3%nat -> length base = ndim)
        end
     /\ (length base = ndim ->
         s = elementwise_min base (tr_shapes ++ val_shapes)
         /\ length s = ndim
         /\ forall i v, s !! i = Some v ->
              (forall sh, sh ∈ base :: tr_shapes ++ val_shapes ->
                 exists y, sh !! i = Some y /\ v <= y)
              /\ exists sh, sh ∈ base :: tr_shapes ++ val_shapes
                            /\ sh !! i = Some v))
  /\ elementwise_min [16; 256; 256]
       [[10; 100; 100]; [8; 120; 90]; [12; 100; 100]] = [8; 100; 90].
Proof.
  intros Htr Hval Hrec. split; [|reflexivity].
  unfold reconcile_input_shape in Hrec.
  apply bind_ok in Hrec as (ndim & Hnd & Hrec).
  apply bind_ok in Hrec as ([] & Hchk & Hrec).
  apply bind_ok in Hrec as (base & Hbase & Hrec).
  apply bind_ok in Hrec as (s1 & Hs1 & Hrec).
  destruct tr as [[tr_pairs tr_min]|]; [|discriminate].
  destruct (load_ok_shapes _ _ _ Htr)
    as (first & rest & Hread & Hall & Hmin & Hlen).
  destruct (first_ndim_read _ tr_min _ _ Hread) as [Hnd' _].
  rewrite Hnd' in Hnd. injection Hnd as <-.
  assert (Hval' : exists val_shapes,
    match val with
    | Some (val_pairs, _) =>
        Forall2 (pair_ok fs) val_pairs val_shapes /\ val_shapes <> []
    | None => val_shapes = []
    end
    /\ Forall (fun sh => length sh = length first) val_shapes
    /\ (length base = length first ->
        s = elementwise_min s1 val_shapes)).
  { pose proof (load_ok_shapes _ _ _ Hval) as Hv.
    destruct val as [[val_pairs val_min]|].
    - destruct Hv as (vfirst & vrest & Hvread & Hvall & Hvmin & Hvlen).
      destruct (first_ndim_read _ val_min _ _ Hvread) as [Hvnd Hpres].
      rewrite Hpres in Hchk, Hrec. rewrite Hvnd in Hchk. simpl in Hchk.
      destruct (length vfirst =? length first)%nat eqn:E;
        [|discriminate]. apply Nat.eqb_eq in E.
      exists (vfirst :: vrest). split.
      { split; [by apply read_shapes_ok|done]. }
      split.
      { eapply Forall_impl; [exact Hvall|]. simpl. intros; congruence. }
      intros Hb. simpl in Hrec, Hs1.
      rewrite np_minimum_same_length in Hs1 by congruence.
      injection Hs1 as <-.
      rewrite np_minimum_same_length in Hrec.
      2:{ rewrite length_zip_with. lia. }
      injection Hrec as <-. rewrite Hvmin, zip_min_fold.
      reflexivity.
    - exists []. split; [done|]. split; [constructor|].
      intros _. simpl in Hrec. by injection Hrec as <-. }
  destruct Hval' as (val_shapes & Hvs & Hvall & Hs).
  exists tr_pairs, tr_min, (first :: rest), val_shapes, base, (length first).
  split; [done|]. split; [by apply read_shapes_ok|]. split; [done|].
  split; [done|]. split; [by apply Forall_app|]. split.
  { destruct (config !! "input_shape") as [v|].
    - destruct v as [| | | | |l|]; try discriminate.
      destruct (length l =? length first)%nat eqn:E; [|discriminate].
      apply Nat.eqb_eq in E. simpl in Hbase. exists l.
      split; [done|]. split; [done|].
      by rewrite (as_int_list_length _ _ Hbase).
    - injection Hbase as <-. split; [reflexivity|].
      unfold default_input_shape. by intros [-> | ->]. }
  intros Hb.
  assert (Hs1' : s1 = elementwise_min base (first :: rest)).
  { simpl in Hs1. rewrite np_minimum_same_length in Hs1 by congruence.
    injection Hs1 as <-. rewrite Hmin, zip_min_fold.
    symmetry. unfold elementwise_min. reflexivity. }
  assert (Hs' : s = elementwise_min base ((first :: rest) ++ val_shapes)).
  { rewrite (Hs Hb), Hs1'. apply elementwise_min_app. }
  split; [done|]. split.
  { rewrite Hs'.
    apply (fold_minimum_same_length (length first));
      [done|by apply Forall_app]. }
  intros i v Hi. rewrite Hs' in Hi.
  apply elementwise_min_axis in Hi as ((b & Hb1 & Hb2) & Hall' & Hex).
  split.
  - intros sh Hsh. apply elem_of_cons in Hsh as [->|Hsh]; [eauto|].
    by apply Hall'.
  - destruct Hex as [Hbv|(sh & Hsh & Hv)].
    + exists base. split; [left|done].
    + exists sh. split; [by right|done].
Qed.

End Reconciliation.

Lemma shape_checks_cover_every_pair_witness :
  resolve_pairs example_fs mismatch_config "training"
  = Ok (JArr [pair_of "raw/d.tif" "gt/d.tif"])
  /\ load_data_paths example_fs mismatch_config "training"
     = Raise (ValueError (RawAndGtMustBeSameSize
                "raw/d.tif" [4; 64; 64] "gt/d.tif" [4; 64; 32])).
Proof.
  assert (H : resolve_pairs example_fs mismatch_config "training"
              = Ok (JArr [pair_of "raw/d.tif" "gt/d.tif"])) by reflexivity.
  split; [exact H|].
  apply (proj1 (proj2 (shape_checks_cover_every_pair
                  example_fs mismatch_config "training" _ H))
           [] [] (pair_of "raw/d.tif" "gt/d.tif") []).
  - reflexivity.
  - constructor.
  - repeat split; reflexivity.
  - discriminate.
Defined.

Lemma resolved_input_shape_witness :
  exists tr,
    load_data_paths example_fs example_config "training" = Ok tr
    /\ load_data_paths example_fs example_config "validation" = Ok None
    /\ reconcile_input_shape example_fs example_config tr None
       = Ok [8; 100; 90]
    /\ elementwise_min [16; 256; 256]
         [[10; 100; 100]; [8; 120; 90]; [12; 100; 100]] = [8; 100; 90].
Proof.
  destruct (load_data_paths example_fs example_config "training")
    as [tr|e] eqn:Htr; [|vm_compute in Htr; discriminate Htr].
  assert (Hval : load_data_paths example_fs example_config "validation"
                 = Ok None) by reflexivity.
  assert (Hrec : reconcile_input_shape example_fs example_config tr None
                 = Ok [8; 100; 90]).
  { vm_compute in Htr. injection Htr as <-. vm_compute. reflexivity. }
  exists tr. split; [reflexivity|]. split; [exact Hval|].
  split; [exact Hrec|].
  exact (proj2 (resolved_input_shape_is_elementwise_min
                  example_fs example_config tr None [8; 100; 90]
                  Htr Hval Hrec)).
Defined.

(* ===================================================================== *)
(** ** The configuration *)
(* ===================================================================== *)

Section Configuration.

Lemma validate_unfold ty props addl any req its mn mx lo hi en v :
  validate (mkSchema ty props addl any req its mn mx lo hi en) v
  = (opt_all ty (fun t => has_type t v)
     && match v with
        | JObj m =>
            opt_all props (fun ps =>
              List.forallb (fun '(k, sub) =>
                match m !! k with
                | Some x => validate sub x
                | None => true
                end) ps)
            && (addl
                || List.forallb
                     (fun k => mem k (map fst (default [] props)))
                     (keys m))
            && List.forallb (fun k => bool_decide (is_Some (m !! k))) req
        | _ => true
        end
     && opt_all any
          (fun subs => List.existsb (fun sub => validate sub v) subs)
     && match v with
        | JArr l =>
            opt_all its (fun sub => List.forallb (validate sub) l)
            && opt_all mn (fun n => (n <=? length l)%nat)
            && opt_all mx (fun n => (length l <=? n)%nat)
        | _ => true
        end
     && match number_value v with
        | Some q =>
            opt_all lo (fun b => Qle_bool b q)
            && opt_all hi (fun b => Qle_bool q b)
        | None => true
        end
     && opt_all en (fun l =>
          match v with JStr x => mem x l | _ => false end)).
Proof. reflexivity. Qed.

Lemma mem_true k l : mem k l = true <-> k ∈ l.
Proof.
  unfold mem. rewrite existsb_exists, list_elem_of_In. split.
  - intros (x & Hx & E). apply String.eqb_eq in E. by subst.
  - intros H. exists k. split; [done|apply String.eqb_refl].
Qed.

Lemma elem_of_keys (m : gmap string json) k :
  k ∈ keys m <-> is_Some (m !! k).
Proof.
  unfold keys. split.
  - intros H. apply list_elem_of_fmap in H as ([k' x] & -> & H).
    apply elem_of_map_to_list in H. by exists x.
  - intros [x Hx]. apply elem_of_map_to_list in Hx.
    by apply (list_elem_of_fmap_2 fst) in Hx.
Qed.


Lemma lookup_setdefault k' v' (m : gmap string json) k :
  setdefault k' v' m !! k
  = match m !! k with
    | Some v => Some v
    | None => if String.eqb k k' then Some v' else None
    end.
Proof.
  unfold setdefault. destruct (String.eqb k k') eqn:E.
  - apply String.eqb_eq in E as ->.
    destruct (m !! k') eqn:E'; [by rewrite ?E'|].
    by rewrite lookup_insert_eq, ?E'.
  - apply String.eqb_neq in E.
    destruct (m !! k') eqn:E'; [by destruct (m !! k)|].
    rewrite lookup_insert_ne by done. by destruct (m !! k).
Qed.

Lemma lookup_foldl_setdefault l (m : gmap string json) k :
  foldl (fun d '(k, v) => setdefault k v d) m l !! k
  = match m !! k with
    | Some v => Some v
    | None => assoc k l
    end.
Proof.
  revert m. induction l as [|[k' v'] l IH]; intros m; simpl.
  - by destruct (m !! k).
  - rewrite IH, lookup_setdefault.
    destruct (m !! k); [done|]. by destruct (String.eqb k k').
Qed.

Lemma assoc_defaults k d : (k, d) ∈ defaults -> assoc k defaults = Some d.
Proof.
  unfold defaults. intros H.
  repeat (apply elem_of_cons in H as [H|H];
          [injection H as -> ->; reflexivity|]).
  by apply elem_of_nil in H.
Qed.



End Configuration.


(* ===================================================================== *)
(** ** When the network is built, and the errors of its arguments *)
(* ===================================================================== *)

Section Domain.

Lemma bindB_inv {A B} (m : Build A) (k : A -> Build B) g r :
  bindB m k g = Ok r -> exists a g', m g = Ok (a, g') /\ k a g' = Ok r.
Proof.
  unfold bindB. destruct (m g) as [[a g']|e]; [eauto|discriminate].
Qed.

(** A convolution that is built. *)
Lemma conv_inv x f k act g y g' :
  _conv x f k same act g = Ok (y, g') ->
  1 <= _get_spatial_ndim x <= 3 /\ 0 < f
  /\ shape y = removelast (shape x) ++ [f]
  /\ producer y = length g
  /\ g' = g ++ [mkNode (Conv (conv_class (Z.to_nat (_get_spatial_ndim x)))
                          f k same act)
                  [producer x] (removelast (shape x) ++ [f])].
Proof.
  intros H.
  assert (Hn : 1 <= _get_spatial_ndim x <= 3).
  { destruct (Z_le_dec 1 (_get_spatial_ndim x)) as [H1|H1];
      [destruct (Z_le_dec (_get_spatial_ndim x) 3) as [H3|H3]; [lia|]|];
      rewrite conv_unsupported in H by lia; discriminate. }
  split; [done|]. unfold _conv in H.
  assert (Hcl :
    (if _get_spatial_ndim x =? 1 then retB Conv1D
     else if _get_spatial_ndim x =? 2 then retB Conv2D
     else if _get_spatial_ndim x =? 3 then retB Conv3D
     else raiseB (NotImplementedError
                    (ConvolutionNotSupported (_get_spatial_ndim x))))
    = retB (conv_class (Z.to_nat (_get_spatial_ndim x)))).
  { assert (E : _get_spatial_ndim x = 1 \/ _get_spatial_ndim x = 2
                \/ _get_spatial_ndim x = 3) by lia.
    destruct E as [-> | [-> | ->]]; reflexivity. }
  rewrite Hcl in H. unfold bindB, retB, conv_layer in H.
  destruct (f <=? 0) eqn:E; [discriminate|].
  unfold call in H. injection H as <- <-. repeat split; auto. lia.
Qed.

Lemma for_range_first {A} n (body : A -> Build (Flow A)) x g r :
  for_range (S n) body x g = Ok r ->
  exists fl g1, body x g = Ok (fl, g1).
Proof. simpl. intros H. apply bindB_inv in H as (fl & g1 & H & _). eauto. Qed.

Lemma attention_inv x r g y g' :
  _channel_attention_block x r g = Ok (y, g') ->
  2 <= _get_spatial_ndim x <= 3 /\ r <> 0 /\ 0 < _get_num_channels x / r.
Proof.
  unfold _channel_attention_block. intros H.
  apply bindB_inv in H as (y1 & g1 & Hpool & H).
  assert (Hn : 2 <= _get_spatial_ndim x <= 3).
  { destruct (Z_le_dec 2 (_get_spatial_ndim x)) as [H1|H1];
      [destruct (Z_le_dec (_get_spatial_ndim x) 3) as [H3|H3]; [lia|]|];
      rewrite pooling_unsupported in Hpool by lia; discriminate. }
  split; [done|].
  apply bindB_inv in H as (y2 & g2 & _ & H).
  apply bindB_inv in H as (b & g3 & Hb & H).
  unfold liftB, bottleneck_channels, floordiv in Hb.
  destruct (r =? 0) eqn:E; [discriminate|]. injection Hb as <- <-.
  apply bindB_inv in H as (y3 & g4 & Hc & _).
  apply conv_inv in Hc as (_ & Hq & _). split; [lia|done].
Qed.

Lemma length_removelast_snoc (l : list Z) f :
  l <> [] -> length (removelast l ++ [f]) = length l.
Proof.
  intros Hl. destruct l as [|a l] using rev_ind; [done|].
  rewrite removelast_last, !length_app. reflexivity.
Qed.

Lemma conv_keeps_rank (x y : Tensor) f :
  1 <= _get_spatial_ndim x ->
  shape y = removelast (shape x) ++ [f] ->
  _get_spatial_ndim y = _get_spatial_ndim x
  /\ _get_num_channels y = f.
Proof.
  unfold _get_spatial_ndim, _get_num_channels, ndim. intros Hn Hy.
  rewrite Hy, last_snoc, length_removelast_snoc; [done|].
  intros E. rewrite E in Hn. simpl in Hn. lia.
Qed.

Lemma build_rcan_ok_inv input_shape nc blocks groups cr rs k m :
  1 <= blocks -> 1 <= groups ->
  build_rcan input_shape nc blocks groups cr rs k = Ok m ->
  2 <= Z.of_nat (length input_shape) - 1 <= 3
  /\ 1 <= cr /\ cr <= nc
  /\ 0 < resolved_output_channels input_shape k.
Proof.
  intros Hb Hg H. unfold build_rcan in H.
  destruct (build_rcan_graph input_shape nc blocks groups cr rs k [])
    as [[[i o] g]|e] eqn:Hrun; [|discriminate]. clear H.
  unfold build_rcan_graph in Hrun.
  apply bindB_inv in Hrun as (K & g0 & HK & H).
  assert (HK' : K = resolved_output_channels input_shape k).
  { unfold resolved_output_channels. destruct (k <? 0).
    - unfold liftB, last_item in HK.
      destruct (last input_shape); [|discriminate]. by injection HK as <- <-.
    - unfold retB in HK. by injection HK as <- <-. }
  apply bindB_inv in H as (t0 & g1 & Hin & H).
  apply bindB_inv in H as (x1 & g2 & H1 & H).
  unfold Input, pointwise_layer, call in Hin, H1.
  injection Hin as <- <-. injection H1 as <- <-. simpl shape in *.
  apply bindB_inv in H as (x2 & g3 & H2 & H).
  apply conv_inv in H2 as (Hn & Hnc & Hs2 & _). simpl shape in *.
  destruct (conv_keeps_rank _ x2 nc (proj1 Hn) Hs2) as [Hr2 Hc2].
  apply bindB_inv in H as (x3 & g4 & Hgr & H).
  apply bindB_inv in H as (x4 & g5 & _ & H).
  apply bindB_inv in H as (x5 & g6 & _ & H).
  apply bindB_inv in H as (x6 & g7 & Hlast & _).
  apply conv_inv in Hlast as (_ & HKpos & _).
  unfold residual_groups in Hgr.
  destruct (Z.to_nat groups) as [|ng] eqn:Eg; [lia|].
  apply for_range_first in Hgr as (fl & g8 & Hbody).
  unfold residual_group_body in Hbody.
  apply bindB_inv in Hbody as (x7 & g9 & Hstack & _).
  unfold _residual_channel_attention_blocks in Hstack.
  destruct (Z.to_nat blocks) as [|nb] eqn:Eb; [lia|].
  apply for_range_first in Hstack as (fl' & g10 & Hrcab).
  unfold rcab in Hrcab. rewrite Hc2 in Hrcab.
  apply bindB_inv in Hrcab as (y1 & g11 & Hc1 & Hrcab).
  apply conv_inv in Hc1 as (Hn1 & _ & Hy1 & _).
  destruct (conv_keeps_rank _ y1 nc (proj1 Hn1) Hy1) as [Hr3 Hc3].
  apply bindB_inv in Hrcab as (y2 & g12 & Hcv2 & Hrcab).
  apply conv_inv in Hcv2 as (Hn2 & _ & Hy2 & _).
  destruct (conv_keeps_rank _ y2 nc (proj1 Hn2) Hy2) as [Hr4 Hc4].
  apply bindB_inv in Hrcab as (y3 & g13 & Hatt & _).
  apply attention_inv in Hatt as (Hrank & Hcr & Hq).
  rewrite Hc4 in Hq. rewrite Hr4, Hr3, Hr2 in Hrank.
  unfold _get_spatial_ndim, ndim in Hrank. simpl shape in Hrank.
  split; [lia|].
  assert (Hpos : 0 < cr).
  { destruct (Z.lt_trichotomy cr 0) as [Hneg|[->|Hpos]]; [|done|done].
    exfalso. pose proof (Z.div_le_upper_bound (-nc) (-cr) 0) as Hd.
    rewrite Z.div_opp_opp in Hd by lia. lia. }
  split; [lia|]. split; [|by rewrite <- HK'].
  destruct (Z.lt_ge_cases nc cr) as [Hlt|]; [|lia].
  rewrite Z.div_small in Hq by lia. lia.
Qed.

(** X1. For an input shape of positive sizes, with at least one block and
    one group, [build_rcan] returns a model exactly when the input has two
    or three spatial axes, the channel reduction is at least 1 and at most
    the number of channels, and the resolved number of output channels is
    positive. *)
Theorem build_rcan_succeeds_iff input_shape nc blocks groups cr rs k :
  Forall (fun d => 0 < d) input_shape ->
  1 <= blocks -> 1 <= groups ->
  (exists m, build_rcan input_shape nc blocks groups cr rs k = Ok m)
  <-> (2 <= Z.of_nat (length input_shape) - 1 <= 3
       /\ 1 <= cr /\ cr <= nc
       /\ 0 < resolved_output_channels input_shape k).
Proof.
  intros _ Hb Hg. split.
  - intros [m Hm]. by apply (build_rcan_ok_inv _ _ _ _ _ _ _ _ Hb Hg Hm).
  - intros (Hn & Hr & Hc & HK).
    destruct input_shape as [|a l] using rev_ind; [simpl in Hn; lia|].
    rewrite length_app in Hn. simpl in Hn.
    destruct (build_rcan_ok l a nc blocks groups cr rs k) as (m & Hm & _);
      [lia|done|done|done|]. eauto.
Qed.
End Domain.

Lemma build_rcan_succeeds_iff_witness :
  (Forall (fun d => 0 < d) [16; 256; 256; 1] /\ 1 <= 3 /\ 1 <= 5)
  /\ ((exists m, build_rcan [16; 256; 256; 1] 32 3 5 8 1 (-1) = Ok m)
      <-> (2 <= Z.of_nat (length [16; 256; 256; 1]) - 1 <= 3
           /\ 1 <= 8 /\ 8 <= 32
           /\ 0 < resolved_output_channels [16; 256; 256; 1] (-1))).
Proof.
  assert (H0 : Forall (fun d => 0 < d) [16; 256; 256; 1])
    by (repeat constructor; lia).
  assert (H1 : 1 <= 3) by lia. assert (H2 : 1 <= 5) by lia.
  split; [tauto|].
  exact (build_rcan_succeeds_iff [16; 256; 256; 1] 32 3 5 8 1 (-1)
           H0 H1 H2).
Defined.

Section Errors.

Lemma conv_bad_filters x sp c f k pad act g :
  has_shape sp c x -> (1 <= length sp <= 3)%nat -> f <= 0 ->
  _conv x f k pad act g = Raise (ValueError (LibraryMessage "Conv: filters")).
Proof.
  intros Hx Hn Hf. unfold _conv. rewrite (spatial_ndim_snoc _ _ _ Hx).
  unfold bindB, conv_layer.
  destruct (length sp) as [|[|[|[|n]]]]; try lia; simpl;
    destruct (f <=? 0) eqn:E; try lia; reflexivity.
Qed.

(** The two ways the channel attention block fails on its reduction. *)
Lemma attention_bad_reduction x sp c r g :
  has_shape sp c x -> (2 <= length sp <= 3)%nat ->
  (r = 0 -> _channel_attention_block x r g = Raise ZeroDivisionError)
  /\ (r <> 0 -> c / r <= 0 ->
      _channel_attention_block x r g
      = Raise (ValueError (LibraryMessage "Conv: filters"))).
Proof.
  intros Hx Hn. unfold _channel_attention_block.
  rewrite (num_channels_snoc _ _ _ Hx), (spatial_ndim_snoc _ _ _ Hx).
  rewrite Nat2Z.id. split.
  - intros ->.
    eapply bind_then_raises; [by apply emits_pooling|]. intros y1 g1 H1.
    eapply bind_then_raises; [by apply emits_reshape|]. intros y2 g2 H2.
    apply bind_raises. reflexivity.
  - intros Hr Hq.
    eapply bind_then_raises; [by apply emits_pooling|]. intros y1 g1 H1.
    eapply bind_then_raises; [by apply emits_reshape|]. intros y2 g2 H2.
    eapply bind_then_raises.
    { apply (emits_lift _ (c / r)). unfold bottleneck_channels, floordiv.
      rewrite (num_channels_snoc _ _ _ Hx).
      destruct (r =? 0) eqn:E; [lia|done]. }
    intros b g3 ->. apply bind_raises.
    apply (conv_bad_filters _ _ _ _ _ _ _ _ H2); [|done].
    rewrite length_replicate. lia.
Qed.

(** An error of the first channel attention block is the error of
    [build_rcan]. *)
Lemma build_rcan_fails_in_first_block sp cin nc blocks groups r rs k e :
  (forall x g, has_shape sp nc x ->
     _channel_attention_block x r g = Raise e) ->
  (1 <= length sp <= 3)%nat -> 0 < nc -> 1 <= blocks -> 1 <= groups ->
  build_rcan (sp ++ [cin]) nc blocks groups r rs k = Raise e.
Proof.
  intros Hatt Hn Hnc Hb Hg.
  assert (Hx : forall (x : Tensor) g, has_shape sp nc x ->
    _residual_channel_attention_blocks x blocks r rs g = Raise e).
  { intros x g Hs. unfold _residual_channel_attention_blocks.
    rewrite (num_channels_snoc _ _ _ Hs).
    destruct (Z.to_nat blocks) as [|n] eqn:E; [lia|]. simpl.
    apply bind_raises. unfold rcab.
    eapply bind_then_raises; [eapply emits_conv; [exact Hs|lia|lia]|].
    intros x1 g1 H1.
    eapply bind_then_raises; [eapply emits_conv; [exact H1|lia|lia]|].
    intros x2 g2 H2. apply bind_raises. by apply Hatt. }
  assert (Hrun : forall g,
    build_rcan_graph (sp ++ [cin]) nc blocks groups r rs k g = Raise e).
  { intros g. unfold build_rcan_graph.
    eapply bind_then_raises.
    { instantiate (1 := []). instantiate (1 := fun _ => True).
      destruct (k <? 0); [|by apply emits_ret].
      unfold last_item. rewrite last_snoc. by apply emits_ret. }
    intros k' g0 _.
    eapply bind_then_raises; [apply emits_call|]. intros i g1 Hi.
    eapply bind_then_raises; [apply emits_call|]. intros x1 g2 H1.
    rewrite Hi in H1.
    eapply bind_then_raises;
      [eapply (emits_conv x1 sp cin); [exact H1|lia|lia]|].
    intros x2 g3 H2. apply bind_raises. unfold residual_groups.
    destruct (Z.to_nat groups) as [|n] eqn:E; [lia|]. simpl.
    apply bind_raises. unfold residual_group_body.
    apply bind_raises. by apply Hx. }
  unfold build_rcan. by rewrite Hrun.
Qed.

(** X2. The errors of [build_rcan] on bad arguments, for an input of
    positive sizes with one to three spatial axes.  A number of channels that is not positive is
    refused by the first convolution.  With a positive number of channels,
    at least one block and one group and two or three spatial axes, a
    channel reduction of zero raises [ZeroDivisionError] and one whose
    quotient is not positive is refused by the bottleneck convolution.
    With valid hyperparameters, a resolved number of output channels that
    is not positive is refused by the last convolution.  An empty input
    shape with a negative number of output channels raises
    [IndexError]. *)
Theorem build_rcan_argument_errors sp cin nc blocks groups r rs k :
  Forall (fun d => 0 < d) (sp ++ [cin]) ->
  (1 <= length sp <= 3)%nat ->
  (nc <= 0 ->
   build_rcan (sp ++ [cin]) nc blocks groups r rs k
   = Raise (ValueError (LibraryMessage "Conv: filters")))
  /\ (0 < nc -> 1 <= blocks -> 1 <= groups -> (2 <= length sp)%nat ->
      (r = 0 ->
       build_rcan (sp ++ [cin]) nc blocks groups r rs k
       = Raise ZeroDivisionError)
      /\ (r <> 0 -> nc / r <= 0 ->
          build_rcan (sp ++ [cin]) nc blocks groups r rs k
          = Raise (ValueError (LibraryMessage "Conv: filters"))))
  /\ ((2 <= length sp)%nat -> 1 <= r -> r <= nc ->
      resolved_output_channels (sp ++ [cin]) k <= 0 ->
      build_rcan (sp ++ [cin]) nc blocks groups r rs k
      = Raise (ValueError (LibraryMessage "Conv: filters")))
  /\ (k < 0 ->
      build_rcan [] nc blocks groups r rs k = Raise IndexError).
Proof.
  intros _ Hn. split; [|split; [|split]].
  - intros Hnc. unfold build_rcan.
    assert (Hrun : build_rcan_graph (sp ++ [cin]) nc blocks groups r rs k []
                   = Raise (ValueError (LibraryMessage "Conv: filters")));
      [|by rewrite Hrun].
    unfold build_rcan_graph.
    eapply bind_then_raises.
    { instantiate (1 := []). instantiate (1 := fun _ => True).
      destruct (k <? 0); [|by apply emits_ret].
      unfold last_item. rewrite last_snoc. by apply emits_ret. }
    intros k' g0 _.
    eapply bind_then_raises; [apply emits_call|]. intros i g1 Hi.
    eapply bind_then_raises; [apply emits_call|]. intros x1 g2 H1.
    rewrite Hi in H1. apply bind_raises.
    by apply (conv_bad_filters x1 sp cin).
  - intros Hnc Hb Hg Hn2. split.
    + intros Hr. apply build_rcan_fails_in_first_block; auto.
      intros x g Hx.
      by apply (proj1 (attention_bad_reduction x sp nc r g Hx ltac:(lia))).
    + intros Hr Hq. apply build_rcan_fails_in_first_block; auto.
      intros x g Hx.
      by apply (proj2 (attention_bad_reduction x sp nc r g Hx ltac:(lia))).
  - intros Hn2 Hr Hc HK. unfold build_rcan.
    assert (Hrun : build_rcan_graph (sp ++ [cin]) nc blocks groups r rs k []
                   = Raise (ValueError (LibraryMessage "Conv: filters")));
      [|by rewrite Hrun].
    unfold build_rcan_graph.
    eapply bind_then_raises.
    { instantiate (1 := []).
      instantiate (1 := fun v => v = resolved_output_channels (sp ++ [cin]) k).
      unfold resolved_output_channels. destruct (k <? 0).
      - unfold last_item. rewrite last_snoc. simpl. by apply emits_ret.
      - by apply emits_ret. }
    intros ? g0 ->.
    eapply bind_then_raises; [apply emits_call|]. intros i g1 Hi.
    eapply bind_then_raises; [apply emits_call|]. intros x1 g2 H1.
    rewrite Hi in H1.
    eapply bind_then_raises; [eapply emits_conv; [exact H1|lia|lia]|].
    intros x2 g3 H2.
    eapply bind_then_raises; [apply emits_groups; [exact H2|lia|lia|lia]|].
    intros x3 g4 H3.
    eapply bind_then_raises; [eapply emits_conv; [exact H3|lia|lia]|].
    intros x4 g5 H4.
    eapply bind_then_raises; [by apply (emits_add x4 x2 (sp ++ [nc]))|].
    intros x5 g6 H5. apply bind_raises.
    by apply (conv_bad_filters x5 sp nc).
  - intros Hk. unfold build_rcan, build_rcan_graph, bindB.
    destruct (k <? 0) eqn:E; [reflexivity|lia].
Qed.

End Errors.

Lemma build_rcan_argument_errors_witness :
  (Forall (fun d => 0 < d) ([64; 64] ++ [1])
   /\ (1 <= length [64; 64] <= 3)%nat /\ 0 < 8 /\ 1 <= 1 /\ 1 <= 1
   /\ (2 <= length [64; 64])%nat /\ 0 = 0)
  /\ build_rcan ([64; 64] ++ [1]) 8 1 1 0 1 (-1) = Raise ZeroDivisionError.
Proof.
  assert (H0 : Forall (fun d => 0 < d) ([64; 64] ++ [1]))
    by (repeat constructor; lia).
  assert (H1 : (1 <= length [64; 64] <= 3)%nat) by (simpl; lia).
  assert (H2 : 0 < 8) by lia. assert (H3 : 1 <= 1) by lia.
  assert (H4 : (2 <= length [64; 64])%nat) by (simpl; lia).
  assert (H5 : 0 = 0) by reflexivity.
  split; [tauto|].
  exact (proj1 (proj1 (proj2 (build_rcan_argument_errors
           [64; 64] 1 8 1 1 0 1 (-1) H0 H1)) H2 H3 H3 H4) H5).
Defined.

(* ===================================================================== *)
(** ** The size and the wiring of the network *)
(* ===================================================================== *)

Section Counts.

Lemma count_rcab p rank nc r rs :
  count p (rcab_layers rank nc r rs)
  = (count p [conv3 rank nc relu; conv3 rank nc linear]
     + count p (attention_layers rank nc r)
     + (if Qeq_bool rs 1 then 0 else count p [Lambda rs])
     + count p [Add])%nat.
Proof.
  unfold rcab_layers. rewrite !count_app.
  destruct (Qeq_bool rs 1); simpl; lia.
Qed.

Lemma count_groups p rank nc r rs blocks groups :
  count p (groups_layers rank nc r rs blocks groups)
  = (block_count blocks groups * count p (rcab_layers rank nc r rs)
     + closed_groups groups * count p [conv3 rank nc linear; Add])%nat.
Proof.
  unfold groups_layers, block_count, closed_groups, stack_layers.
  destruct (groups =? 1).
  - rewrite count_concat_replicate. lia.
  - rewrite count_concat_replicate, count_app, count_concat_replicate. lia.
Qed.

Lemma count_rcan p rank nc r rs s blocks groups k :
  count p (rcan_layers rank nc r rs s blocks groups k)
  = (count p [InputLayer s; Standardise; conv3 rank nc linear]
     + count p (groups_layers rank nc r rs blocks groups)
     + count p [conv3 rank nc linear; Add; conv3 rank k linear;
                Destandardise])%nat.
Proof. unfold rcan_layers. rewrite !count_app. lia. Qed.

(** X3. The size of the network in its hyperparameters, for an input of
    positive sizes with two or three spatial axes, a channel reduction
    between 1 and the number of channels and a positive number of output
    channels.  With [b] blocks
    in all and [c] groups closed by a convolution and a skip (none when
    there is one group), the graph has [7 + b * p + 2 * c] nodes, where a
    block has [p = 8] nodes without residual scaling and 9 with it:
    [3 + 4 * b + c] convolutions, [1 + b + c] additions, and one
    multiplication and one pooling for each block. *)
Theorem build_rcan_node_counts sp cin nc blocks groups r rs k :
  Forall (fun d => 0 < d) (sp ++ [cin]) ->
  (2 <= length sp <= 3)%nat -> 1 <= r -> r <= nc ->
  0 < resolved_output_channels (sp ++ [cin]) k ->
  exists m,
    build_rcan (sp ++ [cin]) nc blocks groups r rs k = Ok m
    /\ let b := block_count blocks groups in
       let c := closed_groups groups in
       let per_block := if Qeq_bool rs 1 then 8%nat else 9%nat in
       length (layers m) = (7 + b * per_block + 2 * c)%nat
       /\ count is_conv (layers_of (layers m)) = (3 + 4 * b + c)%nat
       /\ count is_add (layers_of (layers m)) = (1 + b + c)%nat
       /\ count is_multiply (layers_of (layers m)) = b
       /\ count is_pooling (layers_of (layers m)) = b
       /\ count is_lambda (layers_of (layers m))
          = if Qeq_bool rs 1 then 0%nat else b.
Proof.
  intros _ Hn Hr Hc Hk.
  destruct (build_rcan_ok sp cin nc blocks groups r rs k Hn Hr Hc Hk)
    as (m & E & _ & _ & L).
  exists m. split; [done|]. cbv zeta.
  rewrite <- (length_map layer (layers m)).
  fold (layers_of (layers m)). rewrite <- count_all, L.
  rewrite !count_rcan, !count_groups, !count_rcab.
  destruct (Qeq_bool rs 1); unfold count; simpl; repeat split; lia.
Qed.

End Counts.

Lemma build_rcan_node_counts_witness :
  (Forall (fun d => 0 < d) ([16; 256; 256] ++ [1])
   /\ (2 <= length [16; 256; 256] <= 3)%nat /\ 1 <= 8 /\ 8 <= 32
   /\ 0 < resolved_output_channels ([16; 256; 256] ++ [1]) (-1))
  /\ exists m,
       build_rcan ([16; 256; 256] ++ [1]) 32 3 5 8 1 (-1) = Ok m
       /\ length (layers m) = 137%nat.
Proof.
  assert (H0 : Forall (fun d => 0 < d) ([16; 256; 256] ++ [1]))
    by (repeat constructor; lia).
  assert (H1 : (2 <= length [16; 256; 256] <= 3)%nat) by (simpl; lia).
  assert (H2 : 1 <= 8) by lia. assert (H3 : 8 <= 32) by lia.
  assert (H4 : 0 < resolved_output_channels ([16; 256; 256] ++ [1]) (-1))
    by reflexivity.
  split; [tauto|].
  destruct (build_rcan_node_counts [16; 256; 256] 1 32 3 5 8 1 (-1)
              H0 H1 H2 H3 H4) as (m & Hm & Hlen & _).
  exists m. split; [exact Hm|exact Hlen].
Defined.

Section OrderLemmas.

Lemma keeps_ret {A} (a : A) (P : A -> Graph -> Prop) n0 :
  (forall g, length g = n0 -> P a g) -> keeps_order (retB a) P n0.
Proof.
  intros HP g a' g' Hg Hn H. unfold retB in H. injection H as <- <-. auto.
Qed.

Lemma keeps_raise {A} e (P : A -> Graph -> Prop) n0 :
  keeps_order (raiseB e) P n0.
Proof. intros g a g' _ _ H. discriminate H. Qed.

Lemma keeps_bind {A B} (m : Build A) (k : A -> Build B)
    (P : A -> Graph -> Prop) (Q : B -> Graph -> Prop) n0 :
  keeps_order m P n0 ->
  (forall a g, (n0 <= length g)%nat -> P a g ->
     keeps_order (k a) Q (length g)) ->
  keeps_order (bindB m k) Q n0.
Proof.
  intros Hm Hk g b g' Hg Hn H.
  apply bindB_inv in H as (a & g1 & H1 & H2).
  destruct (Hm g a g1 Hg Hn H1) as (Hg1 & Hpre & HP).
  pose proof (prefix_length _ _ Hpre) as Hle.
  destruct (Hk a g1 ltac:(lia) HP g1 b g' Hg1 eq_refl H2)
    as (Hg' & Hpre' & HQ).
  split; [done|]. split; [by etrans|done].
Qed.

Lemma keeps_post {A} (m : Build A) (P Q : A -> Graph -> Prop) n0 :
  keeps_order m P n0 -> (forall a g, P a g -> Q a g) -> keeps_order m Q n0.
Proof.
  intros Hm HPQ g a g' Hg Hn H.
  destruct (Hm g a g' Hg Hn H) as (? & ? & ?). auto.
Qed.

Lemma keeps_call l ins out n0 :
  Forall (fun t => (producer t < n0)%nat) ins ->
  keeps_order (call l ins out) (fresh l (map producer ins)) n0.
Proof.
  intros Hins g y g' Hg Hn H. unfold call in H. injection H as <- <-.
  split; [|split; [by apply prefix_app_r|]].
  - intros i node Hi.
    apply lookup_app_Some in Hi as [Hi|[Hlen Hi]]; [by apply Hg|].
    destruct (i - length g)%nat as [|j] eqn:E; [|by destruct j].
    simpl in Hi. injection Hi as <-. simpl.
    apply Forall_fmap. eapply Forall_impl; [exact Hins|].
    simpl. intros t Ht. lia.
  - unfold fresh. rewrite length_app, last_snoc. simpl. split; [lia|done].
Qed.

Lemma fresh_produced l ins x g : fresh l ins x g -> produced x g.
Proof. unfold fresh, produced. lia. Qed.

Lemma produced_mono x g g' :
  produced x g -> (length g <= length g')%nat -> produced x g'.
Proof. unfold produced. lia. Qed.

Lemma keeps_lift {A} (r : result A) n0 :
  keeps_order (liftB r) (fun _ _ => True) n0.
Proof.
  intros g a g' Hg Hn H. unfold liftB in H.
  destruct r; [|discriminate]. injection H as <- <-. auto.
Qed.

Lemma keeps_conv x f k pad act n0 :
  (producer x < n0)%nat ->
  keeps_order (_conv x f k pad act)
    (fun y g => exists cls, fresh (Conv cls f k pad act) [producer x] y g)
    n0.
Proof.
  intros Hx. unfold _conv.
  eapply keeps_bind.
  { instantiate (1 := fun _ g => length g = n0).
    destruct (_ =? 1); [by apply keeps_ret|].
    destruct (_ =? 2); [by apply keeps_ret|].
    destruct (_ =? 3); [by apply keeps_ret|apply keeps_raise]. }
  intros cls g Hn Hg. unfold conv_layer.
  destruct (f <=? 0); [apply keeps_raise|].
  eapply keeps_post.
  - apply keeps_call. constructor; [|constructor]. lia.
  - intros y g' Hy. by exists cls.
Qed.

Lemma keeps_conv_produced x f k pad act n0 :
  (producer x < n0)%nat ->
  keeps_order (_conv x f k pad act) produced n0.
Proof.
  intros Hx. eapply keeps_post; [by apply keeps_conv|].
  intros y g [cls Hy]. by eapply fresh_produced.
Qed.

Lemma keeps_pooling x n0 :
  (producer x < n0)%nat ->
  keeps_order (_global_average_pooling x) produced n0.
Proof.
  intros Hx. unfold _global_average_pooling, pooling_layer.
  destruct (_ =? 2);
    [eapply keeps_post;
       [apply keeps_call; by repeat constructor
       |intros; by eapply fresh_produced]|].
  destruct (_ =? 3);
    [eapply keeps_post;
       [apply keeps_call; by repeat constructor
       |intros; by eapply fresh_produced]|].
  apply keeps_raise.
Qed.

Lemma keeps_reshape t y n0 :
  (producer y < n0)%nat -> keeps_order (reshape_layer t y) produced n0.
Proof.
  intros Hy. unfold reshape_layer.
  destruct (_ =? _); [|apply keeps_raise].
  eapply keeps_post; [apply keeps_call; by repeat constructor|].
  intros; by eapply fresh_produced.
Qed.

Lemma keeps_merge l a b n0 :
  (producer a < n0)%nat -> (producer b < n0)%nat ->
  keeps_order (merge_layer l a b) (fresh l [producer a; producer b]) n0.
Proof.
  intros Ha Hb g y g' Hg Hn H. unfold merge_layer in H.
  destruct (elemwise_output_shape (shape a) (shape b)) as [s|];
    [|discriminate].
  apply (keeps_call l [a; b] s n0 ltac:(by repeat constructor) g y g' Hg Hn H).
Qed.

Lemma keeps_pointwise l x n0 :
  (producer x < n0)%nat ->
  keeps_order (pointwise_layer l x) (fresh l [producer x]) n0.
Proof.
  intros Hx. apply (keeps_call l [x]). by repeat constructor.
Qed.

Lemma keeps_attention x r n0 :
  (producer x < n0)%nat ->
  keeps_order (_channel_attention_block x r) produced n0.
Proof.
  intros Hx. unfold _channel_attention_block.
  eapply keeps_bind; [by apply keeps_pooling|]. intros y1 g1 Hn1 H1.
  eapply keeps_bind; [by apply keeps_reshape|]. intros y2 g2 Hn2 H2.
  eapply keeps_bind.
  { instantiate (1 := fun _ g => length g = length g2).
    intros g b g' Hg Hn H. unfold liftB in H.
    destruct (bottleneck_channels x r); [|discriminate].
    injection H as <- <-. auto. }
  intros b g3 Hn3 H3.
  eapply keeps_bind.
  { apply keeps_conv_produced. unfold produced in H2. lia. }
  intros y3 g4 Hn4 H4.
  eapply keeps_bind; [by apply keeps_conv_produced|]. intros y4 g5 Hn5 H5.
  eapply keeps_post.
  - apply keeps_merge; [lia|done].
  - intros; by eapply fresh_produced.
Qed.

Lemma keeps_rcab nc r rs x n0 :
  (producer x < n0)%nat ->
  keeps_order (rcab nc r rs x) (fun fl g => produced (carried fl) g) n0.
Proof.
  intros Hx. unfold rcab.
  eapply keeps_bind; [by apply keeps_conv_produced|]. intros x1 g1 Hn1 H1.
  eapply keeps_bind; [by apply keeps_conv_produced|]. intros x2 g2 Hn2 H2.
  eapply keeps_bind; [by apply keeps_attention|]. intros x3 g3 Hn3 H3.
  eapply keeps_bind.
  { instantiate (1 := produced).
    destruct (Qeq_bool rs 1).
    - apply keeps_ret. intros g Hg. unfold produced in *. lia.
    - eapply keeps_post; [by apply keeps_pointwise|].
      intros; by eapply fresh_produced. }
  intros x4 g4 Hn4 H4.
  eapply keeps_bind; [apply keeps_merge; [done|lia]|].
  intros x5 g5 Hn5 H5. apply keeps_ret. intros g Hg. simpl.
  apply fresh_produced in H5. unfold produced in *. lia.
Qed.

Lemma keeps_for_range k (body : Tensor -> Build (Flow Tensor)) x n0 :
  (forall y n, (n0 <= n)%nat -> (producer y < n)%nat ->
     keeps_order (body y) (fun fl g => produced (carried fl) g) n) ->
  (producer x < n0)%nat ->
  keeps_order (for_range k body x) produced n0.
Proof.
  revert x n0. induction k as [|k IH]; intros x n0 Hbody Hx; simpl.
  - apply keeps_ret. intros g Hg. unfold produced. lia.
  - eapply keeps_bind; [by apply (Hbody x n0)|].
    intros fl g Hn Hfl. destruct fl as [y|y]; simpl in Hfl.
    + apply IH; [|done]. intros z n' Hn' Hz. apply Hbody; [lia|done].
    + apply keeps_ret. intros g' Hg'. unfold produced in *. lia.
Qed.

Lemma keeps_stack x blocks r rs n0 :
  (producer x < n0)%nat ->
  keeps_order (_residual_channel_attention_blocks x blocks r rs) produced n0.
Proof.
  intros Hx. unfold _residual_channel_attention_blocks.
  apply keeps_for_range; [|done]. intros y n _ Hy. by apply keeps_rcab.
Qed.

Lemma keeps_groups nc blocks groups r rs x n0 :
  (producer x < n0)%nat ->
  keeps_order (residual_groups nc blocks groups r rs x) produced n0.
Proof.
  intros Hx. unfold residual_groups.
  apply keeps_for_range; [|done]. intros y n _ Hy.
  unfold residual_group_body.
  eapply keeps_bind; [by apply keeps_stack|]. intros y1 g1 Hn1 H1.
  destruct (groups =? 1).
  { apply keeps_ret. intros g Hg. simpl. unfold produced in *. lia. }
  eapply keeps_bind; [by apply keeps_conv_produced|]. intros y2 g2 Hn2 H2.
  eapply keeps_bind; [apply keeps_merge; [done|lia]|].
  intros y3 g3 Hn3 H3. apply keeps_ret. intros g Hg. simpl.
  apply fresh_produced in H3. unfold produced in *. lia.
Qed.

Lemma inbound_earlier_nil : inbound_earlier [].
Proof. intros i node H. by destruct i. Qed.

Lemma keeps_build_rcan_graph input_shape nc blocks groups r rs k :
  keeps_order (build_rcan_graph input_shape nc blocks groups r rs k)
    (fun _ _ => True) 0.
Proof.
  unfold build_rcan_graph.
  eapply keeps_bind.
  { instantiate (1 := fun _ g => length g = 0%nat).
    destruct (k <? 0); [|by apply keeps_ret].
    intros g b g' Hg Hn H. unfold liftB in H.
    destruct (last_item input_shape); [|discriminate].
    injection H as <- <-. auto. }
  intros K g0 Hn0 H0.
  eapply keeps_bind; [apply keeps_call; constructor|].
  intros t0 g1 Hn1 H1. apply fresh_produced in H1.
  eapply keeps_bind; [by apply keeps_pointwise|]. intros x1 g2 Hn2 H2.
  apply fresh_produced in H2.
  eapply keeps_bind; [by apply keeps_conv_produced|]. intros x2 g3 Hn3 H3.
  eapply keeps_bind; [by apply keeps_groups|]. intros x3 g4 Hn4 H4.
  eapply keeps_bind; [by apply keeps_conv_produced|]. intros x4 g5 Hn5 H5.
  eapply keeps_bind.
  { apply keeps_merge; [done|]. unfold produced in *. lia. }
  intros x5 g6 Hn6 H6. apply fresh_produced in H6.
  eapply keeps_bind; [by apply keeps_conv_produced|]. intros x6 g7 Hn7 H7.
  eapply keeps_bind; [by apply keeps_pointwise|]. intros x7 g8 Hn8 H8.
  by apply keeps_ret.
Qed.

Lemma merge_inv l a b g y g' :
  merge_layer l a b g = Ok (y, g') ->
  producer y = length g
  /\ g' = g ++ [mkNode l [producer a; producer b] (shape y)].
Proof.
  unfold merge_layer. intros H.
  destruct (elemwise_output_shape (shape a) (shape b)); [|discriminate].
  unfold call in H. by injection H as <- <-.
Qed.

(** X4. Every model [build_rcan] returns is a graph in creation order: each
    node reads only nodes created before it.  Its first three nodes are
    the input layer, the forward normalisation and the stem convolution;
    its last four are a convolution, the addition of the long skip, which
    reads that convolution and the stem convolution (node 2), the output
    convolution and the inverse normalisation, which produces the output
    of the model. *)
Theorem build_rcan_graph_in_order input_shape nc blocks groups r rs k m :
  build_rcan input_shape nc blocks groups r rs k = Ok m ->
  inbound_earlier (layers m)
  /\ inputs m = mkTensor input_shape 0
  /\ S (producer (outputs m)) = length (layers m)
  /\ exists cls1 cls2 cls3 body n s1 s2,
       layers m
       = [mkNode (InputLayer input_shape) [] input_shape;
          mkNode Standardise [0%nat] input_shape;
          mkNode (Conv cls1 nc 3 same linear) [1%nat]
            (removelast input_shape ++ [nc])]
         ++ body
         ++ [mkNode (Conv cls2 nc 3 same linear) [n] s1;
             mkNode Add [(3 + length body)%nat; 2%nat] s2;
             mkNode (Conv cls3 (resolved_output_channels input_shape k)
                       3 same linear)
               [(4 + length body)%nat] (shape (outputs m));
             mkNode Destandardise [(5 + length body)%nat]
               (shape (outputs m))]
       /\ (n < 3 + length body)%nat.
Proof.
  unfold build_rcan. intros H.
  destruct (build_rcan_graph input_shape nc blocks groups r rs k [])
    as [[[i o] g]|e] eqn:Hrun; [|discriminate]. injection H as <-. simpl.
  split.
  { by destruct (keeps_build_rcan_graph input_shape nc blocks groups r rs k
               [] (i, o) g inbound_earlier_nil eq_refl Hrun). }
  unfold build_rcan_graph in Hrun.
  apply bindB_inv in Hrun as (K & g0 & HK & H).
  assert (g0 = [] /\ K = resolved_output_channels input_shape k) as [-> ->].
  { unfold resolved_output_channels. destruct (k <? 0).
    - unfold liftB, last_item in HK.
      destruct (last input_shape); [|discriminate].
      by injection HK as <- <-.
    - unfold retB in HK. by injection HK as <- <-. }
  apply bindB_inv in H as (t0 & g1 & Hin & H).
  unfold Input, call in Hin. injection Hin as <- <-. simpl in H.
  apply bindB_inv in H as (x1 & g2 & H1 & H).
  unfold pointwise_layer, call in H1. injection H1 as <- <-. simpl in H.
  apply bindB_inv in H as (x2 & g3 & H2 & H).
  apply conv_inv in H2 as (_ & _ & Hs2 & Hp2 & ->). simpl in Hs2, Hp2.
  simpl producer in H. simpl shape in H.
  apply bindB_inv in H as (x3 & g4 & Hgr & H).
  match type of Hgr with
  | residual_groups _ _ _ _ _ _ ?g3 = _ =>
      assert (Hg3 : inbound_earlier g3);
      [ intros [|[|[|j]]] node Hj; simpl in Hj; try discriminate;
        injection Hj as <-; simpl; repeat constructor; lia |];
      destruct (keeps_groups nc blocks groups r rs x2 3 ltac:(lia)
                  g3 x3 g4 Hg3 eq_refl Hgr) as (_ & [body ->] & Hx3)
  end.
  apply bindB_inv in H as (x4 & g5 & H4 & H).
  apply conv_inv in H4 as (_ & _ & Hs4 & Hp4 & ->).
  apply bindB_inv in H as (x5 & g6 & H5 & H).
  apply merge_inv in H5 as (Hp5 & ->).
  apply bindB_inv in H as (x6 & g7 & H6 & H).
  apply conv_inv in H6 as (_ & _ & Hs6 & Hp6 & ->).
  apply bindB_inv in H as (x7 & g8 & H7 & H).
  unfold pointwise_layer, call in H7. injection H7 as <- <-.
  unfold retB in H. injection H as <- <- <-. simpl.
  split; [done|]. split; [rewrite !length_app; simpl; lia|].
  eexists _, _, _, body, (producer x3), _, _. split.
  - rewrite <- !app_assoc. simpl. repeat f_equal.
    all: rewrite ?Hp4, ?Hp5, ?Hp6, ?length_app; simpl; rewrite ?length_app;
      simpl; try lia. by rewrite Hs6.
  - unfold produced in Hx3. rewrite length_app in Hx3. simpl in Hx3. lia.
Qed.
End OrderLemmas.

Lemma build_rcan_graph_in_order_witness :
  exists m,
    build_rcan [64; 64; 1] 8 1 2 2 1 (-1) = Ok m
    /\ inbound_earlier (layers m)
    /\ S (producer (outputs m)) = length (layers m).
Proof.
  destruct (build_rcan [64; 64; 1] 8 1 2 2 1 (-1)) as [m|e] eqn:H;
    [|vm_compute in H; discriminate H].
  exists m. split; [reflexivity|].
  pose proof (build_rcan_graph_in_order _ _ _ _ _ _ _ _ H) as (Ho & _ & Hl & _).
  split; [exact Ho|exact Hl].
Defined.

Section DataflowLemmas.

Lemma appends_call l ins out : appends_one (call l ins out) (map producer ins).
Proof.
  intros g y g' H. unfold call in H. injection H as <- <-. eauto.
Qed.

Lemma appends_conv x f k pad act :
  appends_one (_conv x f k pad act) [producer x].
Proof.
  intros g y g' H. unfold _conv in H.
  apply bindB_inv in H as (cls & g1 & Hc & H).
  assert (g1 = g) as ->.
  { destruct (_ =? 1); [by injection Hc as <- <-|].
    destruct (_ =? 2); [by injection Hc as <- <-|].
    destruct (_ =? 3); [by injection Hc as <- <-|discriminate]. }
  unfold conv_layer in H. destruct (f <=? 0); [discriminate|].
  by apply (appends_call _ [x]) in H.
Qed.

Lemma appends_pooling x : appends_one (_global_average_pooling x) [producer x].
Proof.
  intros g y g' H. unfold _global_average_pooling, pooling_layer in H.
  destruct (_ =? 2); [by apply (appends_call _ [x]) in H|].
  destruct (_ =? 3); [by apply (appends_call _ [x]) in H|discriminate].
Qed.

Lemma appends_reshape t y : appends_one (reshape_layer t y) [producer y].
Proof.
  intros g z g' H. unfold reshape_layer in H.
  destruct (_ =? _); [by apply (appends_call _ [y]) in H|discriminate].
Qed.

Lemma appends_merge l a b :
  appends_one (merge_layer l a b) [producer a; producer b].
Proof.
  intros g z g' H. unfold merge_layer in H.
  destruct (elemwise_output_shape _ _); [|discriminate].
  by apply (appends_call _ [a; b]) in H.
Qed.

(** The dataflow of a residual channel attention block that is built. *)
Lemma rcab_dataflow nc r rs x g fl g' :
  rcab nc r rs x g = Ok (fl, g') ->
  exists y nodes,
    fl = Next y /\ g' = g ++ nodes
    /\ map inbound nodes = rcab_inbound (length g) (producer x) rs
    /\ S (producer y) = length g'.
Proof.
  unfold rcab. intros H.
  apply bindB_inv in H as (x1 & g1 & H1 & H).
  apply appends_conv in H1 as (P1 & l1 & s1 & ->).
  apply bindB_inv in H as (x2 & g2 & H2 & H).
  apply appends_conv in H2 as (P2 & l2 & s2 & ->).
  unfold _channel_attention_block in H.
  apply bindB_inv in H as (x3 & g3 & H3 & H).
  apply bindB_inv in H3 as (y1 & g4 & Hy1 & H3).
  apply appends_pooling in Hy1 as (Q1 & l3 & s3 & ->).
  apply bindB_inv in H3 as (y2 & g5 & Hy2 & H3).
  apply appends_reshape in Hy2 as (Q2 & l4 & s4 & ->).
  apply bindB_inv in H3 as (b & g6 & Hb & H3).
  assert (g6 = ((((g ++ [mkNode l1 [producer x] s1])
                  ++ [mkNode l2 [producer x1] s2])
                 ++ [mkNode l3 [producer x2] s3])
                ++ [mkNode l4 [producer y1] s4])) as ->.
  { unfold liftB in Hb. destruct (bottleneck_channels x2 r); [|discriminate].
    by injection Hb as <- <-. }
  apply bindB_inv in H3 as (y3 & g7 & Hy3 & H3).
  apply appends_conv in Hy3 as (Q3 & l5 & s5 & ->).
  apply bindB_inv in H3 as (y4 & g8 & Hy4 & H3).
  apply appends_conv in Hy4 as (Q4 & l6 & s6 & ->).
  apply appends_merge in H3 as (P3 & l7 & s7 & ->).
  apply bindB_inv in H as (x4 & g9 & H4 & H).
  rewrite !length_app in *. simpl in *.
  unfold rcab_inbound.
  destruct (Qeq_bool rs 1).
  - unfold retB in H4. injection H4 as <- <-.
    apply bindB_inv in H as (x5 & g10 & H5 & H).
    apply appends_merge in H5 as (P5 & l8 & s8 & ->).
    unfold retB in H. injection H as <- <-.
    eexists x5, _. split; [done|]. rewrite <- !app_assoc. simpl.
    split; [reflexivity|]. simpl. rewrite !length_app in *. simpl in *.
    split; [|lia].
    rewrite P1, P2, Q1, Q2, Q3, Q4, P3.
    repeat match goal with |- _ :: _ = _ :: _ => f_equal end; lia.
  - apply (appends_call _ [x3]) in H4 as (P4 & l8 & s8 & ->).
    apply bindB_inv in H as (x5 & g10 & H5 & H).
    apply appends_merge in H5 as (P5 & l9 & s9 & ->).
    unfold retB in H. injection H as <- <-.
    eexists x5, _. split; [done|]. rewrite <- !app_assoc. simpl.
    split; [reflexivity|]. simpl. rewrite !length_app in *. simpl in *.
    split; [|lia].
    rewrite P1, P2, Q1, Q2, Q3, Q4, P3, P4.
    repeat match goal with |- _ :: _ = _ :: _ => f_equal end; lia.
Qed.

(** X5. On an input of positive sizes with two or three spatial axes and a
    channel reduction
    between 1 and the number of channels, a residual channel attention
    block is built, keeps the shape, and has the layers and the dataflow
    of its source: two convolutions in a row from the block input, the
    gate (pooling, reshape, two convolutions of size 1) computed from the
    second one and multiplied with it, the optional scaling, and the
    addition of the block input at the end. *)
Theorem rcab_is_built_and_wired x sp c r rs g :
  has_shape sp c x -> Forall (fun d => 0 < d) sp ->
  (2 <= length sp <= 3)%nat -> 1 <= r -> r <= c ->
  exists y nodes,
    rcab c r rs x g = Ok (Next y, g ++ nodes)
    /\ has_shape sp c y
    /\ S (producer y) = length (g ++ nodes)
    /\ layers_of nodes = rcab_layers (length sp) c r rs
    /\ map inbound nodes = rcab_inbound (length g) (producer x) rs.
Proof.
  intros Hx _ Hn Hr Hc.
  destruct (emits_rcab x sp c r rs g Hx Hn Hr Hc)
    as (fl & nodes & Hrun & (y & -> & Hy) & Hl).
  destruct (rcab_dataflow _ _ _ _ _ _ _ Hrun)
    as (y' & nodes' & Hfl & Hg & Hin & Hp).
  injection Hfl as <-. apply app_inv_head in Hg as <-.
  exists y, nodes. repeat split; auto.
Qed.

End DataflowLemmas.

Lemma rcab_is_built_and_wired_witness :
  (has_shape [64; 64] 8 (mkTensor [64; 64; 8] 2)
   /\ Forall (fun d => 0 < d) [64; 64]
   /\ (2 <= length [64; 64] <= 3)%nat /\ 1 <= 2 /\ 2 <= 8)
  /\ exists y nodes,
       rcab 8 2 1 (mkTensor [64; 64; 8] 2) [] = Ok (Next y, [] ++ nodes)
       /\ map inbound nodes
          = [[2]; [0]; [1]; [2]; [3]; [4]; [1; 5]; [6; 2]]%nat.
Proof.
  assert (H1 : has_shape [64; 64] 8 (mkTensor [64; 64; 8] 2)) by reflexivity.
  assert (H0 : Forall (fun d => 0 < d) [64; 64])
    by (repeat constructor; lia).
  assert (H2 : (2 <= length [64; 64] <= 3)%nat) by (simpl; lia).
  assert (H3 : 1 <= 2) by lia. assert (H4 : 2 <= 8) by lia.
  split; [tauto|].
  destruct (rcab_is_built_and_wired (mkTensor [64; 64; 8] 2) [64; 64] 8 2 1
              [] H1 H0 H2 H3 H4) as (y & nodes & Hr & _ & _ & _ & Hin).
  exists y, nodes. split; [exact Hr|exact Hin].
Defined.

Section NoBlocks.

Lemma emits_empty_stack x sp c blocks r rs g :
  has_shape sp c x -> blocks <= 0 ->
  emits (_residual_channel_attention_blocks x blocks r rs) g
    (has_shape sp c) (stack_layers (length sp) c r rs blocks).
Proof.
  intros Hx Hb. unfold _residual_channel_attention_blocks, stack_layers.
  replace (Z.to_nat blocks) with 0%nat by lia. simpl. by apply emits_ret.
Qed.

Lemma emits_groups_without_blocks x sp c blocks groups r rs g :
  has_shape sp c x -> (1 <= length sp <= 3)%nat -> 0 < c ->
  blocks <= 0 \/ groups <= 0 ->
  emits (residual_groups c blocks groups r rs x) g
    (has_shape sp c) (groups_layers (length sp) c r rs blocks groups).
Proof.
  intros Hx Hn Hc Hz. unfold residual_groups, groups_layers.
  destruct (Z_le_dec groups 0) as [Hg|Hg].
  { destruct (groups =? 1) eqn:E; [lia|].
    replace (Z.to_nat groups) with 0%nat by lia. simpl. by apply emits_ret. }
  assert (Hb : blocks <= 0) by lia.
  destruct (groups =? 1) eqn:E.
  - apply Z.eqb_eq in E. subst groups.
    change (Z.to_nat 1) with 1%nat. simpl for_range.
    unfold residual_group_body. simpl (1 =? 1).
    eapply emits_cast.
    + eapply emits_bind.
      { eapply emits_bind; [by apply emits_empty_stack|].
        intros y g' Hy.
        apply (emits_ret (Break y) g'
                 (fun fl => exists y', fl = Break y' /\ has_shape sp c y')).
        by exists y. }
      intros fl g' (y & -> & Hy). by apply emits_ret.
    + by rewrite !app_nil_r.
  - apply emits_for_range; [|done].
    intros y g' Hy. unfold residual_group_body. rewrite E.
    eapply emits_bind; [by apply emits_empty_stack|]. intros y1 g1 H1.
    eapply emits_cast.
    + eapply emits_bind; [eapply emits_conv; [exact H1|lia|lia]|].
      intros y2 g2 H2.
      eapply emits_bind; [by apply (emits_add y2 y (sp ++ [c]))|].
      intros y3 g3 H3. apply emits_ret. by exists y3.
    + reflexivity.
Qed.

(** X6. Without a block in any group the network has no channel attention:
    it is built for inputs of positive sizes with one, two or three
    spatial axes, whatever
    the channel reduction, and consists of the convolutions and the skips
    only. *)
Theorem build_rcan_without_blocks sp cin nc blocks groups r rs k :
  blocks <= 0 \/ groups <= 0 ->
  Forall (fun d => 0 < d) (sp ++ [cin]) ->
  (1 <= length sp <= 3)%nat -> 0 < nc ->
  0 < resolved_output_channels (sp ++ [cin]) k ->
  exists m,
    build_rcan (sp ++ [cin]) nc blocks groups r rs k = Ok m
    /\ shape (outputs m) = sp ++ [resolved_output_channels (sp ++ [cin]) k]
    /\ layers_of (layers m)
       = [InputLayer (sp ++ [cin]); Standardise;
          conv3 (length sp) nc linear]
         ++ (if groups =? 1 then []
             else concat (replicate (Z.to_nat groups)
                            [conv3 (length sp) nc linear; Add]))
         ++ [conv3 (length sp) nc linear; Add;
             conv3 (length sp) (resolved_output_channels (sp ++ [cin]) k)
               linear;
             Destandardise]
    /\ count is_pooling (layers_of (layers m)) = 0%nat.
Proof.
  intros Hz _ Hn Hnc Hk.
  set (K := resolved_output_channels (sp ++ [cin]) k) in *.
  assert (Hrun : emits
    (build_rcan_graph (sp ++ [cin]) nc blocks groups r rs k) []
    (fun io => has_shape sp K (snd io))
    ([] ++ [InputLayer (sp ++ [cin])] ++ [Standardise]
     ++ [conv3 (length sp) nc linear]
     ++ groups_layers (length sp) nc r rs blocks groups
     ++ [conv3 (length sp) nc linear] ++ [Add]
     ++ [conv3 (length sp) K linear] ++ [Destandardise] ++ [])).
  { unfold build_rcan_graph.
    eapply emits_bind.
    { instantiate (1 := fun v => v = K). unfold K, resolved_output_channels.
      destruct (k <? 0).
      - unfold last_item. rewrite last_snoc. simpl. by apply emits_ret.
      - by apply emits_ret. }
    intros ? g0 ->.
    eapply emits_bind; [apply emits_call|]. intros i g1 Hi.
    eapply emits_bind; [apply emits_call|]. intros x1 g2 H1.
    rewrite Hi in H1.
    eapply emits_bind; [eapply emits_conv; [exact H1|lia|lia]|].
    intros x2 g3 H2.
    eapply emits_bind; [by apply emits_groups_without_blocks|].
    intros x3 g4 H3.
    eapply emits_bind; [eapply emits_conv; [exact H3|lia|lia]|].
    intros x4 g5 H4.
    eapply emits_bind; [by apply (emits_add x4 x2 (sp ++ [nc]))|].
    intros x5 g6 H5.
    eapply emits_bind; [eapply emits_conv; [exact H5|lia|exact Hk]|].
    intros x6 g7 H6.
    eapply emits_bind; [apply emits_call|]. intros o g8 Ho.
    apply emits_ret. simpl. unfold has_shape. by rewrite Ho. }
  destruct Hrun as ([i o] & nodes & Hrun & Ho & Hl).
  unfold build_rcan. rewrite Hrun. simpl in *.
  exists (mkModel i o nodes). simpl. split; [done|]. split; [done|].
  assert (Hgl : groups_layers (length sp) nc r rs blocks groups
                = if groups =? 1 then []
                  else concat (replicate (Z.to_nat groups)
                                 [conv3 (length sp) nc linear; Add])).
  { unfold groups_layers, stack_layers.
    destruct (Z_le_dec blocks 0) as [Hb|Hb].
    - replace (Z.to_nat blocks) with 0%nat by lia. reflexivity.
    - assert (groups <= 0) by lia.
      destruct (groups =? 1) eqn:E; [lia|].
      replace (Z.to_nat groups) with 0%nat by lia. reflexivity. }
  rewrite Hl, Hgl. split; [reflexivity|].
  assert (Hmid : count is_pooling
                   (if groups =? 1 then []
                    else concat (replicate (Z.to_nat groups)
                                   [conv3 (length sp) nc linear; Add]))
                 = 0%nat).
  { destruct (groups =? 1); [reflexivity|].
    rewrite count_concat_replicate. unfold count. simpl. lia. }
  unfold count in *. simpl. rewrite List.filter_app, length_app, Hmid.
  reflexivity.
Qed.

End NoBlocks.

Lemma build_rcan_without_blocks_witness :
  ((0 <= 0 \/ 2 <= 0) /\ Forall (fun d => 0 < d) ([64] ++ [1])
   /\ (1 <= length [64] <= 3)%nat /\ 0 < 8
   /\ 0 < resolved_output_channels ([64] ++ [1]) (-1))
  /\ exists m,
       build_rcan ([64] ++ [1]) 8 0 2 0 1 (-1) = Ok m
       /\ shape (outputs m) = [64; 1].
Proof.
  assert (H1 : 0 <= 0 \/ 2 <= 0) by (left; lia).
  assert (H0 : Forall (fun d => 0 < d) ([64] ++ [1]))
    by (repeat constructor; lia).
  assert (H2 : (1 <= length [64] <= 3)%nat) by (simpl; lia).
  assert (H3 : 0 < 8) by lia.
  assert (H4 : 0 < resolved_output_channels ([64] ++ [1]) (-1))
    by reflexivity.
  split; [tauto|].
  destruct (build_rcan_without_blocks [64] 1 8 0 2 0 1 (-1) H1 H0 H2 H3 H4)
    as (m & Hm & Ho & _).
  exists m. split; [exact Hm|exact Ho].
Defined.

(* ===================================================================== *)
(** ** The schema and the defaults together *)
(* ===================================================================== *)

Section Schema.

(** The schema on a dictionary, keyword by keyword. *)
Lemma validate_schema_iff m :
  validate schema (JObj m) = true
  <-> properties_hold m = true
      /\ (forall k, is_Some (m !! k) -> k ∈ known_keys)
      /\ (is_Some (m !! "training_image_pairs")
          \/ is_Some (m !! "training_data_dir")).
Proof.
  unfold schema. rewrite validate_unfold.
  cbn [opt_all number_value default orb has_type].
  unfold requires. cbn [existsb]. rewrite !validate_unfold.
  cbn [opt_all number_value default orb andb forallb has_type].
  rewrite !andb_true_r, orb_false_r. cbn [andb].
  fold (properties_hold m).
  rewrite !andb_true_iff, orb_true_iff, !bool_decide_eq_true.
  rewrite forallb_forall.
  split.
  - intros [[Hp Hk] Hr]. split; [done|]. split; [|done].
    intros k Hk'. apply elem_of_keys, list_elem_of_In in Hk'.
    apply Hk in Hk'. by apply mem_true in Hk'.
  - intros (Hp & Hk & Hr). split; [split; [done|]|done].
    intros k Hk'. apply mem_true, Hk, elem_of_keys.
    by apply list_elem_of_In.
Qed.

Lemma properties_hold_lookup m k sub v :
  properties_hold m = true -> (k, sub) ∈ schema_properties ->
  m !! k = Some v -> validate sub v = true.
Proof.
  unfold properties_hold. rewrite forallb_forall. intros H Hin Hv.
  apply list_elem_of_In in Hin. apply H in Hin. by rewrite Hv in Hin.
Qed.

(** Every default satisfies the schema of its key. *)
Lemma defaults_satisfy_schema :
  List.forallb (fun '(k, sub) =>
    match assoc k defaults with
    | Some d => validate sub d
    | None => true
    end) schema_properties = true.
Proof. vm_compute. reflexivity. Qed.

Lemma defaults_known :
  List.forallb (fun k => mem k known_keys) (map fst defaults) = true.
Proof. vm_compute. reflexivity. Qed.

Lemma lookup_apply_defaults m k :
  apply_defaults m !! k
  = match m !! k with
    | Some v => Some v
    | None => assoc k defaults
    end.
Proof. apply lookup_foldl_setdefault. Qed.

Lemma assoc_some_in k d l : assoc k l = Some d -> k ∈ map fst l.
Proof.
  induction l as [|[k' v'] l IH]; [done|]. simpl.
  destruct (String.eqb k k') eqn:E.
  - apply String.eqb_eq in E as ->. intros _. left.
  - intros H. right. by apply IH.
Qed.

Lemma apply_defaults_valid m :
  validate schema (JObj m) = true ->
  validate schema (JObj (apply_defaults m)) = true.
Proof.
  rewrite !validate_schema_iff. intros (Hp & Hk & Hr).
  split; [|split].
  - unfold properties_hold. rewrite forallb_forall. intros [k sub] Hin.
    rewrite lookup_apply_defaults.
    destruct (m !! k) as [v|] eqn:E.
    + apply (properties_hold_lookup m k sub v Hp); [|done].
      by apply list_elem_of_In.
    + pose proof defaults_satisfy_schema as Hd.
      rewrite forallb_forall in Hd. by apply Hd in Hin.
  - intros k [v Hv]. rewrite lookup_apply_defaults in Hv.
    destruct (m !! k) as [w|] eqn:E; [by apply Hk|].
    apply assoc_some_in in Hv.
    pose proof defaults_known as Hd. rewrite forallb_forall in Hd.
    apply list_elem_of_In, Hd in Hv. by apply mem_true in Hv.
  - destruct Hr as [[v Hv]|[v Hv]]; [left|right];
      rewrite lookup_apply_defaults, Hv; eauto.
Qed.

(** X7. The defaults keep a valid configuration valid, complete it with
    every default key, add no other key, and applying them twice changes
    nothing more; validating the completed configuration gives the same
    result as validating the original. *)
Theorem defaults_respect_schema m :
  validate schema (JObj m) = true ->
  validate schema (JObj (apply_defaults m)) = true
  /\ apply_defaults (apply_defaults m) = apply_defaults m
  /\ (forall k, k ∈ map fst defaults -> is_Some (apply_defaults m !! k))
  /\ (forall k, is_Some (apply_defaults m !! k) ->
        is_Some (m !! k) \/ k ∈ map fst defaults)
  /\ validated_config (JObj (apply_defaults m))
     = validated_config (JObj m).
Proof.
  intros Hv.
  assert (Hidem : apply_defaults (apply_defaults m) = apply_defaults m).
  { apply map_eq. intros k. rewrite !lookup_apply_defaults.
    by destruct (m !! k); [|destruct (assoc k defaults)]. }
  split; [by apply apply_defaults_valid|]. split; [done|].
  split; [|split].
  - intros k Hk. rewrite lookup_apply_defaults.
    destruct (m !! k); [eauto|].
    destruct (assoc k defaults) eqn:E; [eauto|].
    exfalso. revert Hk E. clear. unfold defaults. simpl.
    intros Hk.
    repeat (apply elem_of_cons in Hk as [->|Hk]; [discriminate|]).
    by apply elem_of_nil in Hk.
  - intros k [v Hk]. rewrite lookup_apply_defaults in Hk.
    destruct (m !! k); [left; eauto|]. right. by eapply assoc_some_in.
  - unfold validated_config.
    rewrite (apply_defaults_valid m Hv), Hv, Hidem. reflexivity.
Qed.

End Schema.

Lemma defaults_respect_schema_witness :
  validate schema (JObj example_config) = true
  /\ validate schema (JObj (apply_defaults example_config)) = true.
Proof.
  assert (H : validate schema (JObj example_config) = true)
    by (vm_compute; reflexivity).
  split; [exact H|]. exact (proj1 (defaults_respect_schema example_config H)).
Defined.

(* ===================================================================== *)
(** ** The results and the errors of the loader *)
(* ===================================================================== *)

Section LoaderExtras.
Variable fs : FileSystem.

(** X8. When the loader returns a list of pairs, the list is not empty,
    every pair has a raw and a ground-truth image of the same shape, all
    the images have as many dimensions as the returned minimum shape, and
    every entry of that shape is the least size of its axis over the
    images, attained by one of them. *)
Theorem load_data_paths_result config data_type l m :
  load_data_paths fs config data_type = Ok (Some (l, m)) ->
  l <> [] /\ present (Some (l, m)) = true
  /\ exists shapes,
       Forall2 (pair_ok fs) l shapes
       /\ Forall (fun s => length s = length m) shapes
       /\ first_ndim fs (Some (l, m)) = Ok (length m)
       /\ forall i v, m !! i = Some v ->
            (forall sh, sh ∈ shapes -> exists y, sh !! i = Some y /\ v <= y)
            /\ exists sh, sh ∈ shapes /\ sh !! i = Some v.
Proof.
  intros H. apply load_some_inv in H as (_ & Hne & Hv).
  apply verify_pairs_ok in Hv as (first & rest & Hread & Hall & -> & Hlen).
  destruct (first_ndim_read fs l (elementwise_min first rest) _ _ Hread)
    as [Hnd Hpres].
  split; [done|]. split; [done|].
  exists (first :: rest). split; [by apply read_shapes_ok|].
  split; [by rewrite Hlen|]. split; [by rewrite Hlen|].
  intros i v Hi.
  apply elementwise_min_axis in Hi as ((b & Hb & Hle) & Hrest & Hex).
  split.
  - intros sh Hsh. apply elem_of_cons in Hsh as [->|Hsh]; [eauto|].
    by apply Hrest.
  - destruct Hex as [Hf|(sh & Hsh & Hv)].
    + exists first. split; [left|done].
    + exists sh. split; [by right|done].
Qed.

Lemma read_shapes_error good shapes p rest e :
  Forall2 (pair_ok fs) good shapes ->
  (forall rest', read_shapes fs (p :: rest') = Raise e) ->
  read_shapes fs (good ++ p :: rest) = Raise e.
Proof.
  intros Hgood Hp.
  induction Hgood as [|q s good shapes Hq _ IH]; [apply Hp|].
  destruct Hq as (rq & gq & Hq1 & Hq2 & Hq3 & Hq4).
  change ((q :: good) ++ p :: rest) with (q :: (good ++ p :: rest)).
  simpl. rewrite Hq1, Hq2. simpl. unfold imread. rewrite Hq3, Hq4. simpl.
  rewrite bool_decide_eq_true_2 by done. by rewrite IH.
Qed.

(** X9. The errors of the loader other than a shape mismatch: a directory
    entry or a pair without its [raw] or [gt] key raises [KeyError], a
    pair that is not a dictionary [TypeError], and an image that cannot be
    read makes the loader fail with the exception [tifffile.imread]
    raises for that file, the raw image being read before the ground
    truth; the pairs before the offending one are well formed. *)
Theorem loader_key_and_read_errors config data_type :
  (forall d,
     config !! dir_key data_type = Some (JObj d) -> d !! "raw" = None ->
     load_data_paths fs config data_type = Raise (KeyError "raw"))
  /\ (forall d raw_dir,
        config !! dir_key data_type = Some (JObj d) ->
        d !! "raw" = Some (JStr raw_dir) -> d !! "gt" = None ->
        load_data_paths fs config data_type = Raise (KeyError "gt"))
  /\ (forall good shapes p rest,
        resolve_pairs fs config data_type = Ok (JArr (good ++ p :: rest)) ->
        Forall2 (pair_ok fs) good shapes ->
        (forall d, p = JObj d -> d !! "raw" = None ->
           load_data_paths fs config data_type = Raise (KeyError "raw"))
        /\ (forall d, p = JObj d -> is_Some (d !! "raw") ->
              d !! "gt" = None ->
              load_data_paths fs config data_type = Raise (KeyError "gt"))
        /\ (match p with JObj _ => False | _ => True end ->
            load_data_paths fs config data_type = Raise TypeError)
        /\ (forall rp, getitem p "raw" = Ok (JStr rp) ->
              (exists g, getitem p "gt" = Ok g) ->
              image_shape fs rp = None ->
              load_data_paths fs config data_type = Raise (ImreadError rp))
        /\ (forall rp gp s, getitem p "raw" = Ok (JStr rp) ->
              getitem p "gt" = Ok (JStr gp) ->
              image_shape fs rp = Some s -> image_shape fs gp = None ->
              load_data_paths fs config data_type
              = Raise (ImreadError gp))).
Proof.
  split; [|split].
  - intros d Hd Hr. unfold load_data_paths, resolve_pairs, directory_pairs.
    unfold dir_key in Hd. rewrite Hd. simpl. by rewrite Hr.
  - intros d raw_dir Hd Hr Hg.
    unfold load_data_paths, resolve_pairs, directory_pairs.
    unfold dir_key in Hd. rewrite Hd. simpl. rewrite Hr. simpl.
    by rewrite Hg.
  - intros good shapes p rest Hres Hgood.
    assert (Hload : forall e,
      (forall rest', read_shapes fs (p :: rest') = Raise e) ->
      load_data_paths fs config data_type = Raise e).
    { intros e He. rewrite (load_of_resolved _ _ _ _ Hres).
      destruct (good ++ p :: rest) as [|q l] eqn:E; [by destruct good|].
      rewrite <- E. unfold verify_pairs.
      by rewrite (read_shapes_error good shapes p rest e Hgood He). }
    split; [|split; [|split; [|split]]].
    + intros d -> Hr. apply Hload. intros rest'. simpl. by rewrite Hr.
    + intros d -> [v Hr] Hg. apply Hload. intros rest'. simpl.
      rewrite Hr. simpl. by rewrite Hg.
    + intros Hp. apply Hload. intros rest'. by destruct p.
    + intros rp Hr [g Hg] Hs. apply Hload. intros rest'. simpl.
      rewrite Hr, Hg. simpl. unfold imread. by rewrite Hs.
    + intros rp gp s Hr Hg Hs Hgs. apply Hload. intros rest'. simpl.
      rewrite Hr, Hg. simpl. unfold imread. rewrite Hs. simpl.
      by rewrite Hgs.
Qed.

End LoaderExtras.

Section ListingOrder.

Lemma ascii_compare_trans_lt a b c :
  Ascii.compare a b = Lt -> Ascii.compare b c = Lt -> Ascii.compare a c = Lt.
Proof.
  unfold Ascii.compare. rewrite !N.compare_lt_iff. lia.
Qed.

Lemma string_compare_refl s : String.compare s s = Eq.
Proof.
  induction s as [|a s IH]; [done|]. simpl.
  unfold Ascii.compare. by rewrite N.compare_refl.
Qed.

Lemma string_lt_trans s1 s2 s3 :
  String.compare s1 s2 = Lt -> String.compare s2 s3 = Lt ->
  String.compare s1 s3 = Lt.
Proof.
  revert s2 s3. induction s1 as [|a s1 IH]; intros [|b s2] [|c s3];
    simpl; try done.
  destruct (Ascii.compare a b) eqn:Eab; try done;
    destruct (Ascii.compare b c) eqn:Ebc; try done.
  - apply Ascii.compare_eq_iff in Eab as ->.
    apply Ascii.compare_eq_iff in Ebc as ->.
    unfold Ascii.compare. rewrite N.compare_refl. apply IH.
  - apply Ascii.compare_eq_iff in Eab as ->. by rewrite Ebc.
  - apply Ascii.compare_eq_iff in Ebc as <-. by rewrite Eab.
  - by rewrite (ascii_compare_trans_lt a b c).
Qed.

Lemma path_le_alt a b :
  path_le a b <-> String.compare a b = Lt \/ a = b.
Proof.
  unfold path_le, String.leb. split.
  - destruct (String.compare a b) eqn:E; [|by left|done].
    intros _. right. by apply String.compare_eq_iff.
  - intros [->| ->]; [done|]. by rewrite string_compare_refl.
Qed.

Lemma path_le_trans : Transitive path_le.
Proof.
  intros a b c. rewrite !path_le_alt.
  intros [H1| ->] [H2| ->]; auto. left. by eapply string_lt_trans.
Qed.

Lemma path_le_antisym : AntiSymm eq path_le.
Proof. intros a b. apply String.leb_antisym. Qed.

(** Sorting forgets the order of the listing. *)
Lemma sorted_of_permutation l1 l2 : l1 ≡ₚ l2 -> sorted l1 = sorted l2.
Proof.
  intros Hp.
  apply (@StronglySorted_unique _ path_le path_le_antisym).
  - apply (@StronglySorted_merge_sort _ path_le _ path_le_trans path_le_total).
  - apply (@StronglySorted_merge_sort _ path_le _ path_le_trans path_le_total).
  - unfold sorted. by rewrite !merge_sort_Permutation.
Qed.

(** X10. The loader does not depend on the order in which a directory
    lists its files: two file systems with the same files and images give
    the same result. *)
Theorem load_data_paths_ignores_listing_order fs1 fs2 config data_type :
  (forall d, glob_tif fs1 d ≡ₚ glob_tif fs2 d) ->
  (forall p, image_shape fs1 p = image_shape fs2 p) ->
  load_data_paths fs1 config data_type = load_data_paths fs2 config data_type.
Proof.
  intros Hglob Hshape.
  assert (Hdir : directory_pairs fs1 config data_type
                 = directory_pairs fs2 config data_type).
  { unfold directory_pairs.
    destruct (config !! (data_type +:+ "_data_dir")) as [d|]; [|done].
    destruct (getitem d "raw") as [raw|]; [|done]. simpl.
    destruct (as_path raw) as [raw_dir|]; [|done]. simpl.
    destruct (getitem d "gt") as [gt|]; [|done]. simpl.
    destruct (as_path gt) as [gt_dir|]; [|done]. simpl.
    by rewrite (sorted_of_permutation _ _ (Hglob raw_dir)),
               (sorted_of_permutation _ _ (Hglob gt_dir)). }
  assert (Hread : forall l, read_shapes fs1 l = read_shapes fs2 l).
  { induction l as [|p l IH]; [done|]. simpl. unfold imread.
    destruct (getitem p "raw") as [r|]; [|done]. simpl.
    destruct (getitem p "gt") as [g|]; [|done]. simpl.
    destruct (as_path r) as [rp|]; [|done]. simpl.
    rewrite (Hshape rp). destruct (image_shape fs2 rp) as [rs|]; [|done].
    simpl. destruct (as_path g) as [gp|]; [|done]. simpl.
    rewrite (Hshape gp). destruct (image_shape fs2 gp) as [gs|]; [|done].
    simpl. by rewrite IH. }
  unfold load_data_paths, resolve_pairs, verify_pairs. rewrite Hdir.
  destruct (directory_pairs fs2 config data_type) as [from_dir|]; [|done].
  simpl.
  match goal with
  | |- Py.bind ?e _ = Py.bind ?e _ => destruct e as [v|]; [|done]
  end.
  simpl. destruct (negb (truthy v)); [done|].
  destruct v; try done. by rewrite Hread.
Qed.

End ListingOrder.

Lemma load_data_paths_result_witness :
  exists l,
    load_data_paths example_fs example_config "training"
    = Ok (Some (l, [8; 100; 90]))
    /\ l <> [].
Proof.
  destruct (load_data_paths example_fs example_config "training")
    as [[[l m]|]|e] eqn:H;
    [|vm_compute in H; discriminate H|vm_compute in H; discriminate H].
  assert (Hm : m = [8; 100; 90]).
  { vm_compute in H. by injection H as _ <-. }
  subst m. exists l. split; [reflexivity|].
  exact (proj1 (load_data_paths_result example_fs example_config
                  "training" l _ H)).
Defined.

Lemma loader_key_and_read_errors_witness :
  (no_paths_config !! dir_key "training" = Some (JObj ∅)
   /\ (∅ : gmap string json) !! "raw" = None)
  /\ validate schema (JObj no_paths_config) = true
  /\ load_data_paths example_fs no_paths_config "training"
     = Raise (KeyError "raw").
Proof.
  assert (H1 : no_paths_config !! dir_key "training" = Some (JObj ∅))
    by reflexivity.
  assert (H2 : (∅ : gmap string json) !! "raw" = None) by reflexivity.
  split; [tauto|]. split; [vm_compute; reflexivity|].
  exact (proj1 (loader_key_and_read_errors example_fs no_paths_config
                  "training") ∅ H1 H2).
Defined.

Lemma load_data_paths_ignores_listing_order_witness :
  load_data_paths example_fs example_config "training"
  = load_data_paths example_fs_sorted example_config "training".
Proof.
  apply load_data_paths_ignores_listing_order; [|reflexivity].
  intros d. simpl.
  destruct (String.eqb d "raw"); [apply perm_swap|].
  destruct (String.eqb d "gt"); [|reflexivity].
  etrans; [apply perm_swap|]. apply perm_skip, perm_swap.
Defined.

(* ===================================================================== *)
(** ** The preparation as a whole *)
(* ===================================================================== *)

Section Prepare.
Variable fs : FileSystem.

(** An accepted configuration is a valid dictionary with its defaults,
    and is valid itself. *)
Lemma validated_config_inv cj c :
  validated_config cj = Ok c ->
  exists m, cj = JObj m /\ validate schema (JObj m) = true
            /\ c = apply_defaults m
            /\ validate schema (JObj c) = true.
Proof.
  unfold validated_config. intros H.
  destruct (validate schema cj) eqn:E; [|discriminate].
  destruct cj as [| | | | | |m]; try discriminate. injection H as <-.
  exists m. repeat split; auto. by apply apply_defaults_valid.
Qed.

Lemma accepted_property cj c k sub v :
  validated_config cj = Ok c -> (k, sub) ∈ schema_properties ->
  c !! k = Some v -> validate sub v = true.
Proof.
  intros H Hin Hv. apply validated_config_inv in H as (m & _ & _ & _ & Hc).
  apply validate_schema_iff in Hc as (Hp & _).
  by apply (properties_hold_lookup c k sub v).
Qed.

Lemma at_least_one_int z :
  validate (at_least integer 1) (JInt z) = true -> 1 <= z.
Proof.
  unfold at_least. rewrite validate_unfold. simpl.
  rewrite !andb_true_r. intros H. apply Qle_bool_iff in H.
  unfold Qle in H. simpl in H. lia.
Qed.

(** The hyperparameters of an accepted configuration are at least 1. *)
Lemma accepted_hyperparameter cj c k z :
  validated_config cj = Ok c ->
  k ∈ ["num_channels"; "num_residual_blocks"; "num_residual_groups";
       "channel_reduction"; "epochs"; "steps_per_epoch"; "batch_size"] ->
  c !! k = Some (JInt z) -> 1 <= z.
Proof.
  intros H Hk Hz. apply at_least_one_int.
  apply (accepted_property cj c k _ _ H); [|done].
  unfold schema_properties.
  repeat (apply elem_of_cons in Hk as [->|Hk];
          [repeat (first [by left | right])|]).
  by apply elem_of_nil in Hk.
Qed.

Lemma accepted_input_shape cj c v :
  validated_config cj = Ok c -> c !! "input_shape" = Some v ->
  exists l, v = JArr l /\ (2 <= length l <= 3)%nat.
Proof.
  intros H Hv.
  assert (Hs := accepted_property cj c "input_shape" _ _ H
                  ltac:(unfold schema_properties;
                        repeat (first [by left | right])) Hv).
  rewrite validate_unfold in Hs.
  cbn [opt_all has_type number_value] in Hs.
  destruct v as [| | | | |l|]; try discriminate. exists l. split; [done|].
  cbn [opt_all has_type number_value andb] in Hs.
  rewrite !andb_true_r in Hs.
  apply andb_prop in Hs as [Hs H3]. apply andb_prop in Hs as [_ H2].
  apply Nat.leb_le in H2, H3. lia.
Qed.

Lemma np_minimum_length a b s :
  length a = length b -> np_minimum a b = Ok s -> length s = length a.
Proof.
  intros Hl H. rewrite np_minimum_same_length in H by done.
  injection H as <-. rewrite length_zip_with. lia.
Qed.

(** The resolved shape has the dimension of the images when the base
    shape has it. *)
Lemma reconcile_length config l m val s :
  load_data_paths fs config "training" = Ok (Some (l, m)) ->
  load_data_paths fs config "validation" = Ok val ->
  reconcile_input_shape fs config (Some (l, m)) val = Ok s ->
  is_Some (config !! "input_shape") \/ (2 <= length m <= 3)%nat ->
  length s = length m.
Proof.
  intros Htr Hval Hrec Hbase.
  destruct (load_ok_shapes fs _ _ _ Htr)
    as (first & rest & Hread & _ & _ & Hlen).
  destruct (first_ndim_read fs l m _ _ Hread) as [Hnd _].
  unfold reconcile_input_shape in Hrec. rewrite Hnd in Hrec. simpl in Hrec.
  apply bind_ok in Hrec as ([] & Hchk & Hrec).
  apply bind_ok in Hrec as (base & Hb & Hrec).
  apply bind_ok in Hrec as (s1 & Hs1 & Hrec).
  assert (Hbl : length base = length m).
  { destruct (config !! "input_shape") as [v|] eqn:E.
    - destruct v as [| | | | |li|]; try discriminate.
      destruct (length li =? length first)%nat eqn:E'; [|discriminate].
      apply Nat.eqb_eq in E'. simpl in Hb.
      rewrite (as_int_list_length _ _ Hb). lia.
    - destruct Hbase as [[? ?]|Hm]; [discriminate|].
      injection Hb as <-.
      destruct (length first =? 3)%nat eqn:E'.
      + apply Nat.eqb_eq in E'. simpl. lia.
      + apply Nat.eqb_neq in E'. simpl. lia. }
  pose proof (np_minimum_length _ _ _ Hbl Hs1) as Hl1.
  pose proof (load_ok_shapes fs _ _ _ Hval) as Hv.
  destruct val as [[vl vm]|]; [|by injection Hrec as <-; lia].
  destruct Hv as (vfirst & vrest & Hvread & _ & _ & Hvlen).
  destruct (first_ndim_read fs vl vm _ _ Hvread) as [Hvnd Hpres].
  rewrite Hpres in Hchk, Hrec. rewrite Hvnd in Hchk. simpl in Hchk.
  destruct (length vfirst =? length first)%nat eqn:E; [|discriminate].
  apply Nat.eqb_eq in E. simpl in Hrec.
  apply np_minimum_length in Hrec; lia.
Qed.

Lemma prepare_unfold cj config tr val s nc nb ng cr :
  validated_config cj = Ok config ->
  load_data_paths fs config "training" = Ok tr ->
  load_data_paths fs config "validation" = Ok val ->
  reconcile_input_shape fs config tr val = Ok s ->
  config !! "num_channels" = Some (JInt nc) ->
  config !! "num_residual_blocks" = Some (JInt nb) ->
  config !! "num_residual_groups" = Some (JInt ng) ->
  config !! "channel_reduction" = Some (JInt cr) ->
  prepare fs cj
  = (try! model := build_rcan (s ++ [1]) nc nb ng cr 1 (-1) in
     match tr with
     | Some (pairs, _) =>
         Ok (mkPrepared config pairs (fst <$> val) s model)
     | None => Raise TypeError
     end).
Proof.
  intros Hc Htr Hval Hs H1 H2 H3 H4. unfold prepare.
  rewrite Hc. simpl. rewrite Htr. simpl. rewrite Hval. simpl.
  rewrite Hs. simpl. unfold config_int. by rewrite H1, H2, H3, H4.
Qed.

(** X11. For an accepted configuration whose hyperparameters, and whose
    [input_shape] when it has one, are written as integers, and images of
    two or three dimensions that pass the verification, with a resolved
    shape of positive sizes, the preparation builds a model from the
    resolved shape with one channel in and out when the channel reduction
    does not exceed the number of channels, and fails in the construction
    of the graph otherwise. *)
Theorem prepare_builds_model cj config tr_pairs tr_min val s nc nb ng cr :
  validated_config cj = Ok config ->
  load_data_paths fs config "training" = Ok (Some (tr_pairs, tr_min)) ->
  load_data_paths fs config "validation" = Ok val ->
  reconcile_input_shape fs config (Some (tr_pairs, tr_min)) val = Ok s ->
  Forall (fun d => 0 < d) s ->
  (2 <= length tr_min <= 3)%nat ->
  (forall v, config !! "input_shape" = Some v ->
     exists zs, v = JArr (JInt <$> zs)) ->
  config !! "num_channels" = Some (JInt nc) ->
  config !! "num_residual_blocks" = Some (JInt nb) ->
  config !! "num_residual_groups" = Some (JInt ng) ->
  config !! "channel_reduction" = Some (JInt cr) ->
  (cr <= nc ->
   exists p,
     prepare fs cj = Ok p
     /\ training_data p = tr_pairs
     /\ validation_data p = fst <$> val
     /\ input_shape p = s
     /\ length s = length tr_min
     /\ shape (inputs (model p)) = s ++ [1]
     /\ shape (outputs (model p)) = s ++ [1])
  /\ (nc < cr ->
      prepare fs cj = Raise (ValueError (LibraryMessage "Conv: filters"))).
Proof.
  intros Hc Htr Hval Hs _ Hdim _ H1 H2 H3 H4.
  rewrite (prepare_unfold _ _ _ _ _ _ _ _ _ Hc Htr Hval Hs H1 H2 H3 H4).
  pose proof (reconcile_length _ _ _ _ _ Htr Hval Hs (or_intror Hdim))
    as Hlen.
  assert (Hnc : 1 <= nc).
  { apply (accepted_hyperparameter cj config "num_channels" nc Hc);
      [|done]. repeat (first [by left | right]). }
  assert (Hnb : 1 <= nb).
  { apply (accepted_hyperparameter cj config "num_residual_blocks" nb Hc);
      [|done]. repeat (first [by left | right]). }
  assert (Hng : 1 <= ng).
  { apply (accepted_hyperparameter cj config "num_residual_groups" ng Hc);
      [|done]. repeat (first [by left | right]). }
  assert (Hcr : 1 <= cr).
  { apply (accepted_hyperparameter cj config "channel_reduction" cr Hc);
      [|done]. repeat (first [by left | right]). }
  split.
  - intros Hle.
    destruct (build_rcan_ok s 1 nc nb ng cr 1 (-1)) as (m & Hm & Hi & Ho & _);
      [lia|done|done| |].
    { unfold resolved_output_channels. simpl. by rewrite last_snoc. }
    rewrite Hm. simpl. eexists. split; [reflexivity|]. simpl.
    repeat split; auto.
    rewrite Ho. unfold resolved_output_channels. simpl.
    by rewrite last_snoc.
  - intros Hlt.
    rewrite (build_rcan_fails_in_first_block s 1 nc nb ng cr 1 (-1)
               (ValueError (LibraryMessage "Conv: filters")));
      [done| |lia|lia|done|done].
    intros x g Hx.
    apply (proj2 (attention_bad_reduction x s nc cr g Hx ltac:(lia)));
      [lia|]. rewrite Z.div_small; lia.
Qed.

(** X12. The dimension errors after the loading.  A validation split whose
    images have another number of dimensions than the training images
    raises [ValueError]; so does a configured [input_shape] whose length
    is not that number; and with images of four or more dimensions an
    accepted configuration always ends in a [ValueError], whether it has
    an [input_shape] or not. *)
Theorem reconciliation_dimension_errors config l m val :
  load_data_paths fs config "training" = Ok (Some (l, m)) ->
  load_data_paths fs config "validation" = Ok val ->
  (forall vl vm,
     val = Some (vl, vm) -> length vm <> length m ->
     reconcile_input_shape fs config (Some (l, m)) val
     = Raise (ValueError AllImagesSameNumberOfDimensions))
  /\ (forall li,
        config !! "input_shape" = Some (JArr li) ->
        length li <> length m ->
        (forall vl vm, val = Some (vl, vm) -> length vm = length m) ->
        reconcile_input_shape fs config (Some (l, m)) val
        = Raise (ValueError
                   (InputShapeMustBeArray (Z.of_nat (length m)))))
  /\ (forall cj,
        validated_config cj = Ok config -> (4 <= length m)%nat ->
        exists msg,
          reconcile_input_shape fs config (Some (l, m)) val
          = Raise (ValueError msg)
          /\ prepare fs cj = Raise (ValueError msg)).
Proof.
  intros Htr Hval.
  destruct (load_ok_shapes fs _ _ _ Htr)
    as (first & rest & Hread & _ & _ & Hlen).
  destruct (first_ndim_read fs l m _ _ Hread) as [Hnd _].
  assert (Hvnd : forall vl vm, val = Some (vl, vm) ->
    first_ndim fs val = Ok (length vm) /\ present val = true).
  { intros vl vm ->. pose proof (load_ok_shapes fs _ _ _ Hval) as Hv.
    destruct Hv as (vfirst & vrest & Hvread & _ & _ & Hvlen).
    rewrite Hvlen. apply (first_ndim_read fs vl vm _ _ Hvread). }
  assert (Hchk : (forall vl vm, val = Some (vl, vm) -> length vm = length m) ->
    (if present val then
       try! v := first_ndim fs val in
       if negb (v =? length first)%nat then
         Raise (ValueError AllImagesSameNumberOfDimensions)
       else Ok tt
     else Ok tt) = Ok tt).
  { intros Hsame. destruct val as [[vl vm]|]; [|done].
    destruct (Hvnd vl vm eq_refl) as [-> ->]. simpl.
    rewrite (Hsame vl vm eq_refl), Hlen, Nat.eqb_refl. done. }
  assert (Hdiff : forall vl vm, val = Some (vl, vm) ->
    length vm <> length m ->
    reconcile_input_shape fs config (Some (l, m)) val
    = Raise (ValueError AllImagesSameNumberOfDimensions)).
  { intros vl vm Hv Hne. unfold reconcile_input_shape.
    rewrite Hnd. simpl. destruct (Hvnd vl vm Hv) as [-> ->]. simpl.
    assert (E : (length vm =? length first)%nat = false)
      by (apply Nat.eqb_neq; lia).
    by rewrite E. }
  assert (Hwrong : forall li,
    config !! "input_shape" = Some (JArr li) -> length li <> length m ->
    (forall vl vm, val = Some (vl, vm) -> length vm = length m) ->
    reconcile_input_shape fs config (Some (l, m)) val
    = Raise (ValueError (InputShapeMustBeArray (Z.of_nat (length m))))).
  { intros li Hi Hne Hsame. unfold reconcile_input_shape.
    rewrite Hnd. simpl. rewrite (Hchk Hsame). simpl. rewrite Hi.
    assert (E : (length li =? length first)%nat = false)
      by (apply Nat.eqb_neq; lia).
    rewrite E. simpl. by rewrite Hlen. }
  split; [exact Hdiff|]. split; [exact Hwrong|].
  intros cj Hc H4.
  assert (Hrec : exists msg,
    reconcile_input_shape fs config (Some (l, m)) val
    = Raise (ValueError msg)).
  { assert (Hcases :
      (forall vl vm, val = Some (vl, vm) -> length vm = length m)
      \/ exists vl vm, val = Some (vl, vm) /\ length vm <> length m).
    { clear -val. destruct val as [[vl vm]|]; [|left; intros; discriminate].
      destruct (decide (length vm = length m)) as [E|E];
        [left; by intros ? ? [= <- <-]|right; eauto]. }
    destruct Hcases as [Hsame|(vl & vm & Hv & Hne)].
    2:{ eexists. by apply (Hdiff vl vm). }
    destruct (config !! "input_shape") as [v|] eqn:E.
    - destruct (accepted_input_shape _ _ _ Hc E) as (li & -> & Hl).
      eexists. apply (Hwrong li); [done|lia|done].
    - unfold reconcile_input_shape. rewrite Hnd. simpl.
      rewrite (Hchk Hsame). simpl. rewrite E. simpl.
      assert (Hmin : exists msg, np_minimum
        (if (length first =? 3)%nat then [16; 256; 256] else [256; 256]) m
        = Raise (ValueError msg)).
      { unfold np_minimum.
        destruct (length first =? 3)%nat eqn:E3.
        - apply Nat.eqb_eq in E3. lia.
        - destruct m as [|a [|b [|c [|d m]]]]; simpl in H4; try lia.
          simpl. eauto. }
      destruct Hmin as [msg ->]. eauto. }
  destruct Hrec as [msg Hrec]. exists msg. split; [done|].
  unfold prepare. rewrite Hc. simpl. rewrite Htr. simpl. rewrite Hval.
  simpl. by rewrite Hrec.
Qed.

End Prepare.

Lemma prepare_builds_model_witness :
  exists p,
    prepare example_fs (JObj example_config) = Ok p
    /\ input_shape p = [8; 100; 90]
    /\ shape (outputs (model p)) = [8; 100; 90; 1].
Proof.
  assert (Hc : validated_config (JObj example_config)
               = Ok (apply_defaults example_config))
    by (vm_compute; reflexivity).
  destruct (load_data_paths example_fs (apply_defaults example_config)
              "training") as [[[l m]|]|e] eqn:Htr;
    [|vm_compute in Htr; discriminate Htr|vm_compute in Htr; discriminate Htr].
  assert (Hm : m = [8; 100; 90]).
  { vm_compute in Htr. by injection Htr as _ <-. }
  subst m.
  assert (Hval : load_data_paths example_fs (apply_defaults example_config)
                   "validation" = Ok None) by (vm_compute; reflexivity).
  assert (Hs : reconcile_input_shape example_fs
                 (apply_defaults example_config)
                 (Some (l, [8; 100; 90])) None = Ok [8; 100; 90]).
  { vm_compute in Htr. injection Htr as <-. vm_compute. reflexivity. }
  assert (Hpos : Forall (fun d => 0 < d) [8; 100; 90])
    by (repeat constructor; lia).
  assert (Hd : (2 <= length [8; 100; 90] <= 3)%nat) by (simpl; lia).
  assert (Hint : forall v,
            apply_defaults example_config !! "input_shape" = Some v ->
            exists zs, v = JArr (JInt <$> zs)).
  { intros v Hv. vm_compute in Hv. discriminate Hv. }
  destruct (proj1 (prepare_builds_model example_fs (JObj example_config)
              (apply_defaults example_config) l [8; 100; 90] None
              [8; 100; 90] 32 3 5 8 Hc Htr Hval Hs Hpos Hd Hint
              eq_refl eq_refl eq_refl eq_refl) ltac:(lia))
    as (p & Hp & _ & _ & Hi & _ & _ & Ho).
  exists p. split; [exact Hp|]. split; [exact Hi|exact Ho].
Defined.

Lemma reconciliation_dimension_errors_witness :
  exists l,
    load_data_paths example_fs wrong_shape_config "training"
    = Ok (Some (l, [8; 100; 90]))
    /\ load_data_paths example_fs wrong_shape_config "validation" = Ok None
    /\ reconcile_input_shape example_fs wrong_shape_config
         (Some (l, [8; 100; 90])) None
       = Raise (ValueError (InputShapeMustBeArray 3)).
Proof.
  destruct (load_data_paths example_fs wrong_shape_config "training")
    as [[[l m]|]|e] eqn:Htr;
    [|vm_compute in Htr; discriminate Htr|vm_compute in Htr; discriminate Htr].
  assert (Hm : m = [8; 100; 90]).
  { vm_compute in Htr. by injection Htr as _ <-. }
  subst m.
  assert (Hval : load_data_paths example_fs wrong_shape_config "validation"
                 = Ok None) by (vm_compute; reflexivity).
  exists l. split; [reflexivity|]. split; [exact Hval|].
  apply (proj1 (proj2 (reconciliation_dimension_errors example_fs
           wrong_shape_config l [8; 100; 90] None Htr Hval))
           [JInt 64; JInt 64]).
  - reflexivity.
  - simpl. lia.
  - intros vl vm H. discriminate H.
Defined.

Section SchemaGap.
Variable fs : FileSystem.

Lemma properties_hold_insert m k v :
  properties_hold m = true ->
  List.forallb (fun '(k', sub) =>
    if String.eqb k k' then validate sub v else true) schema_properties
  = true ->
  properties_hold (<[k := v]> m) = true.
Proof.
  unfold properties_hold. rewrite !forallb_forall. intros Hm Hv [k' s'] Hin.
  destruct (decide (k = k')) as [<-|Hne].
  - rewrite lookup_insert_eq. apply Hv in Hin.
    by rewrite String.eqb_refl in Hin.
  - rewrite lookup_insert_ne by done. by apply (Hm (k', s')).
Qed.

(** X14. The schema does not ask a directory entry for its [raw] and [gt]
    keys: with an empty [training_data_dir] a valid configuration stays
    valid, and the preparation raises [KeyError]. *)
Theorem schema_accepts_directory_without_paths m :
  validate schema (JObj m) = true ->
  validate schema (JObj (<["training_data_dir" := JObj ∅]> m)) = true
  /\ prepare fs (JObj (<["training_data_dir" := JObj ∅]> m))
     = Raise (KeyError "raw").
Proof.
  intros Hv.
  assert (Hv' : validate schema
                  (JObj (<["training_data_dir" := JObj ∅]> m)) = true).
  { apply validate_schema_iff in Hv as (Hp & Hk & Hr).
    apply validate_schema_iff. split; [|split].
    - apply properties_hold_insert; [done|]. vm_compute. reflexivity.
    - intros k [v Hkv].
      destruct (decide ("training_data_dir" = k)) as [<-|Hne].
      + unfold known_keys, schema_properties. simpl.
        repeat (first [by left | right]).
      + rewrite lookup_insert_ne in Hkv by done. apply Hk. eauto.
    - right. rewrite lookup_insert_eq. eauto. }
  split; [done|].
  unfold prepare, validated_config. rewrite Hv'. cbn [Py.bind].
  unfold load_data_paths, resolve_pairs, directory_pairs.
  assert (Hd : apply_defaults (<["training_data_dir" := JObj ∅]> m)
               !! ("training" +:+ "_data_dir") = Some (JObj ∅)).
  { rewrite lookup_apply_defaults.
    change ("training" +:+ "_data_dir") with "training_data_dir".
    by rewrite lookup_insert_eq. }
  rewrite Hd. reflexivity.
Qed.

End SchemaGap.

Lemma schema_accepts_directory_without_paths_witness :
  validate schema (JObj example_config) = true
  /\ prepare example_fs (JObj (<["training_data_dir" := JObj ∅]> example_config))
     = Raise (KeyError "raw").
Proof.
  assert (H : validate schema (JObj example_config) = true)
    by (vm_compute; reflexivity).
  split; [exact H|].
  exact (proj2 (schema_accepts_directory_without_paths example_fs
                  example_config H)).
Defined.

(* ===================================================================== *)
(** ** The arguments of the training *)
(* ===================================================================== *)

Section Fit.

Lemma accepted_has_default cj c k d :
  validated_config cj = Ok c -> (k, d) ∈ defaults -> is_Some (c !! k).
Proof.
  intros H Hk. apply validated_config_inv in H as (m & _ & _ & -> & _).
  rewrite lookup_apply_defaults. destruct (m !! k); [eauto|].
  rewrite (assoc_defaults k d Hk). eauto.
Qed.

Lemma enum_string l v :
  validate (mkSchema (Some string_) None true None [] None None None None
              None (Some l)) v = true ->
  exists s, v = JStr s /\ s ∈ l.
Proof.
  rewrite validate_unfold. destruct v; simpl; try discriminate.
  intros H. eexists. split; [done|]. by apply mem_true.
Qed.

Lemma lookup_all_metrics l :
  List.forallb
    (validate (mkSchema (Some string_) None true None [] None None None
                 None None (Some ["psnr"; "ssim"]))) l = true ->
  exists ms, lookup_all metric_table l = inr ms /\ length ms = length l.
Proof.
  induction l as [|v l IH]; [simpl; eauto|].
  intros H. cbn [List.forallb] in H. apply andb_prop in H as [Hv Hl].
  destruct (IH Hl) as (ms & Hms & Hlen). cbn [lookup_all]. rewrite Hms.
  apply enum_string in Hv as (s & -> & Hs). simpl.
  assert (exists a, metric_table s = Some a) as [a ->].
  { repeat (apply elem_of_cons in Hs as [->|Hs]; [by eexists|]).
    by apply elem_of_nil in Hs. }
  simpl. eexists. split; [done|]. simpl. lia.
Qed.

(** X13. For every accepted configuration the script finds all the keys it
    reads after building the model, its loss and each of its metrics; it
    monitors the validation loss and names it in the checkpoint files
    exactly when there is a validation split, and passes validation steps
    exactly then. *)
Theorem fit_arguments_of_accepted key_order cj config validation_data :
  validated_config cj = Ok config ->
  exists a,
    fit_arguments key_order config validation_data = inr a
    /\ config !! "loss"
       = Some (JStr (match loss a with
                     | MeanAbsoluteError => "mae"
                     | MeanSquaredError => "mse"
                     end))
    /\ (exists names, config !! "metrics" = Some (JArr names)
                      /\ length (metrics a) = length names)
    /\ config !! "epochs" = Some (epochs a)
    /\ config !! "steps_per_epoch" = Some (steps_per_epoch a)
    /\ match validation_data with
       | Some _ =>
           monitor a = "val_loss"
           /\ checkpoint_filepath a
              = "weights_{epoch:03d}_{val_loss:.8f}.keras"
           /\ validation_steps a = Some (steps_per_epoch a)
       | None =>
           monitor a = "loss"
           /\ checkpoint_filepath a = "weights_{epoch:03d}_{loss:.8f}.keras"
           /\ validation_steps a = None
       end.
Proof.
  intros Hc.
  assert (Hget : forall k d, (k, d) ∈ defaults ->
    exists v, config !! k = Some v /\ config_get config k = inr v).
  { intros k d Hk. destruct (accepted_has_default _ _ _ _ Hc Hk) as [v Hv].
    exists v. unfold config_get. by rewrite Hv. }
  assert (Hin : forall k, k ∈ map fst defaults ->
    exists v, config !! k = Some v /\ config_get config k = inr v).
  { intros k Hk. apply list_elem_of_fmap in Hk as ([k' d] & -> & Hk).
    by apply (Hget k' d). }
  destruct (Hin "initial_learning_rate") as (lr & Hlr & Glr);
    [unfold defaults; simpl; repeat (first [by left | right])|].
  destruct (Hin "loss") as (lo & Hlo & Glo);
    [unfold defaults; simpl; repeat (first [by left | right])|].
  destruct (Hin "metrics") as (me & Hme & Gme);
    [unfold defaults; simpl; repeat (first [by left | right])|].
  destruct (Hin "batch_size") as (bs & Hbs & Gbs);
    [unfold defaults; simpl; repeat (first [by left | right])|].
  destruct (Hin "data_augmentation") as (da & Hda & Gda);
    [unfold defaults; simpl; repeat (first [by left | right])|].
  destruct (Hin "intensity_threshold") as (it & Hit & Git);
    [unfold defaults; simpl; repeat (first [by left | right])|].
  destruct (Hin "area_ratio_threshold") as (ar & Har & Gar);
    [unfold defaults; simpl; repeat (first [by left | right])|].
  destruct (Hin "steps_per_epoch") as (sp & Hsp & Gsp);
    [unfold defaults; simpl; repeat (first [by left | right])|].
  destruct (Hin "epochs") as (ep & Hep & Gep);
    [unfold defaults; simpl; repeat (first [by left | right])|].
  (* the loss *)
  assert (Hloss := accepted_property cj config "loss" _ _ Hc
     ltac:(unfold schema_properties; repeat (first [by left | right])) Hlo).
  apply enum_string in Hloss as (ls & -> & Hls).
  assert (Hlt : exists L, loss_table ls = Some L
    /\ ls = match L with MeanAbsoluteError => "mae"
                       | MeanSquaredError => "mse" end).
  { repeat (apply elem_of_cons in Hls as [->|Hls]; [by eexists|]).
    by apply elem_of_nil in Hls. }
  destruct Hlt as (L & HL & Els).
  (* the metrics *)
  assert (Hmet := accepted_property cj config "metrics" _ _ Hc
     ltac:(unfold schema_properties; repeat (first [by left | right])) Hme).
  rewrite validate_unfold in Hmet. cbn [opt_all has_type number_value] in Hmet.
  destruct me as [| | | | |names|]; try discriminate.
  cbn [opt_all has_type number_value andb] in Hmet.
  rewrite !andb_true_r in Hmet.
  destruct (lookup_all_metrics names Hmet) as (ms & Hms & Hlen).
  (* the epochs *)
  assert (Hepo := accepted_property cj config "epochs" _ _ Hc
     ltac:(unfold schema_properties; repeat (first [by left | right])) Hep).
  assert (Hdiv : exists dp, floordiv4 ep = inr dp).
  { unfold at_least in Hepo. rewrite validate_unfold in Hepo.
    destruct ep; simpl in Hepo; try discriminate; simpl; eauto. }
  destruct Hdiv as [dp Hdp].
  unfold fit_arguments.
  rewrite Glr, Glo. simpl. rewrite HL. simpl. rewrite Gme. simpl.
  rewrite Hms. simpl. rewrite Gbs, Gda. simpl. rewrite Git, Gar. simpl.
  rewrite Gsp. simpl. rewrite Gep. simpl. rewrite Hdp. simpl.
  eexists. split; [reflexivity|]. simpl.
  split; [by rewrite Hlo, Els|]. split; [eauto|].
  split; [done|]. split; [done|]. by destruct validation_data.
Qed.

End Fit.

Lemma fit_arguments_of_accepted_witness :
  validated_config (JObj example_config)
  = Ok (apply_defaults example_config)
  /\ exists a,
       fit_arguments (fun m => (map_to_list m).*1)
         (apply_defaults example_config) None = inr a
       /\ monitor a = "loss" /\ validation_steps a = None.
Proof.
  assert (Hc : validated_config (JObj example_config)
               = Ok (apply_defaults example_config))
    by (vm_compute; reflexivity).
  split; [exact Hc|].
  destruct (fit_arguments_of_accepted (fun m => (map_to_list m).*1)
              (JObj example_config)
              (apply_defaults example_config) None Hc)
    as (a & Ha & _ & _ & _ & _ & Hm & _ & Hv).
  exists a. split; [exact Ha|]. split; [exact Hm|exact Hv].
Defined.
